(** * Nutrient database build pipeline: a shallow embedding

    Source: [src/usda_mcp_server/setup_nutrient_db.py], class
    [OptimizedNutrientDB].  The SQLite database is modelled as a record
    of tables.  A table with a primary key is a finite map from the key
    to the remaining columns; a table that is only appended to (the
    checkpoint log) or scanned (foods, nutrients, food_categories) is a
    list in row order.

    Modelling conventions.
    - In the tables of [db] a [REAL] column is an exact rational
      ([Q]): the statements about these tables concern which rows
      exist, how amounts are compared and ranked, and the
      rounding-free reading of the SQL expressions, stated up to
      [==].  SQLite computes in IEEE binary64; the value the density
      pass stores is modelled in that arithmetic, on primitive floats
      ([density_of_real]).
    - A cell of an amount column is null, a number, or a text that
      [float] rejects; NaN and the infinities are not represented.
    - The [last_updated] columns are left out.  The checkpoint log of
      [db] is the list of its rows in order of insertion, and
      [latest_checkpoint] is the row its SELECT returns when no two
      in-progress rows share a timestamp; the SELECT on a log with
      its [timestamp] column is [select_checkpoint].
    - Row offsets into the fact file are natural numbers.
    - Text is ASCII ([string]); bytes above 127 are treated as
      non-alphanumeric by the classifier's normalisation.
    - The table [common_portions] is kept beside the record of the
      other tables, in [store]; [import_foundation_foods] is the
      method on a database without a portion that refers to a food,
      [import_foundation_foods_store] the method on a [store].
      Logging is not modelled, but for the two numbers
      [import_portions] logs. *)

From Stdlib Require Import QArith Ascii Lqa Floats.
From stdpp Require Import gmap strings list fin_maps.

(** ** Tables *)

Record food := mk_food {
  f_id : Z;                 (* id INTEGER PRIMARY KEY AUTOINCREMENT *)
  f_fdc_id : Z;             (* fdc_id INTEGER UNIQUE NOT NULL *)
  f_name : string;          (* name TEXT NOT NULL *)
  f_category_id : Z;        (* category_id REFERENCES food_categories(id) *)
  f_base_serving_size : Q;
  f_base_serving_unit : string;
  f_data_quality_score : Q
}.

Record nutrient := mk_nutrient {
  n_id : Z;                 (* id INTEGER PRIMARY KEY *)
  n_name : string;
  n_unit : string
}.

(** food_nutrients: PRIMARY KEY (food_id, nutrient_id). *)
Record fact := mk_fact {
  amount : Q;
  confidence_score : Q
}.

(** nutrient_rankings: PRIMARY KEY (food_id, nutrient_id). *)
Record ranking := mk_ranking {
  r_amount : Q;
  percentile_rank : Q;
  z_score : Q
}.

(** common_nutrients_mv: PRIMARY KEY food_id; the REAL columns are
    nullable in the schema. *)
Record mv_row := mk_mv_row {
  mv_name : string;
  calories : option Q;
  protein : option Q;
  fat : option Q;
  carbohydrates : option Q;
  fiber : option Q;
  sugar : option Q;
  calcium : option Q;
  iron : option Q;
  vitamin_c : option Q;
  vitamin_d : option Q;
  vitamin_b12 : option Q;
  data_completeness : option Q
}.

(** food_density_scores: PRIMARY KEY food_id; [category_scores] is the
    JSON object, kept as its list of members. *)
Record density_score := mk_density_score {
  total_score : Q;
  nutrient_completeness : Q;
  calories_per_100g : Q;
  category_scores : list (string * Q)
}.

Inductive ckpt_status := in_progress | completed.

Global Instance ckpt_status_eq_dec : EqDecision ckpt_status.
Proof. solve_decision. Defined.

(** import_checkpoint: one row per INSERT, in insertion order. *)
Record checkpoint := mk_checkpoint {
  table_name : string;
  last_processed : nat;
  total_records : nat;
  status : ckpt_status
}.

Record db := mk_db {
  food_categories : list (Z * string);
  nutrients : list nutrient;
  foods : list food;
  foods_seq : Z;            (* sqlite_sequence entry of foods *)
  food_nutrients : gmap (Z * Z) fact;
  nutrient_rankings : gmap (Z * Z) ranking;
  common_nutrients_mv : gmap Z mv_row;
  food_density_scores : gmap Z density_score;
  import_checkpoint : list checkpoint
}.

Definition set_food_nutrients (fn : gmap (Z * Z) fact) (d : db) : db :=
  mk_db (food_categories d) (nutrients d) (foods d) (foods_seq d) fn
        (nutrient_rankings d) (common_nutrients_mv d)
        (food_density_scores d) (import_checkpoint d).

Definition set_import_checkpoint (log : list checkpoint) (d : db) : db :=
  mk_db (food_categories d) (nutrients d) (foods d) (foods_seq d)
        (food_nutrients d) (nutrient_rankings d) (common_nutrients_mv d)
        (food_density_scores d) log.

Definition set_nutrient_rankings (r : gmap (Z * Z) ranking) (d : db) : db :=
  mk_db (food_categories d) (nutrients d) (foods d) (foods_seq d)
        (food_nutrients d) r (common_nutrients_mv d)
        (food_density_scores d) (import_checkpoint d).

Definition set_common_nutrients_mv (m : gmap Z mv_row) (d : db) : db :=
  mk_db (food_categories d) (nutrients d) (foods d) (foods_seq d)
        (food_nutrients d) (nutrient_rankings d) m
        (food_density_scores d) (import_checkpoint d).

Definition set_food_density_scores (s : gmap Z density_score) (d : db) : db :=
  mk_db (food_categories d) (nutrients d) (foods d) (foods_seq d)
        (food_nutrients d) (nutrient_rankings d) (common_nutrients_mv d)
        s (import_checkpoint d).

Definition set_foods (fs : list food) (seq : Z) (d : db) : db :=
  mk_db (food_categories d) (nutrients d) fs seq
        (food_nutrients d) (nutrient_rankings d) (common_nutrients_mv d)
        (food_density_scores d) (import_checkpoint d).

(** Schema constraints on [foods]: [id] is the primary key and [fdc_id]
    is UNIQUE. *)
Definition foods_wf (fs : list food) : Prop :=
  NoDup (f_id <$> fs) ∧ NoDup (f_fdc_id <$> fs).

(** ** Outcome of a method: it returns, or an exception leaves it.
    Both carry the database as it is on disk afterwards. *)

Inductive outcome (A : Type) :=
| Done (a : A)
| Raised (a : A).
Arguments Done {A} a.
Arguments Raised {A} a.

Definition obind {A} (o : outcome A) (k : A → outcome A) : outcome A :=
  match o with
  | Done a => k a
  | Raised a => Raised a
  end.

(** [for x in xs: body] where [body] may raise. *)
Fixpoint for_each {I A} (body : I → A → outcome A) (xs : list I) (a : A)
  : outcome A :=
  match xs with
  | [] => Done a
  | x :: xs' => obind (body x a) (for_each body xs')
  end.

(** [range(start, stop, step)] for a positive step; the fuel
    [stop - start] bounds the number of iterations. *)
Fixpoint range_aux (fuel i stop step : nat) : list nat :=
  match fuel with
  | O => []
  | S fuel' =>
      if i <? stop then i :: range_aux fuel' (i + step) stop step else []
  end.

Definition py_range (start stop step : nat) : list nat :=
  range_aux (stop - start) start stop step.

(** polars [DataFrame.slice(offset, length)]: [length] rows starting at
    [offset], clipped at the end of the frame. *)
Definition slice {A} (l : list A) (offset len : nat) : list A :=
  take len (drop offset l).

(** ** The fact file *)

(** A cell of the [amount] column as [iter_rows] yields it. *)
Inductive cell :=
| Null                       (* None *)
| Numeric (q : Q)            (* a value float() converts *)
| NonNumeric (s : string).   (* a value on which float() raises *)

(** A row of [food_nutrient.csv]; its two ids are integers. *)
Record fact_row := mk_fact_row {
  fr_fdc_id : Z;
  fr_nutrient_id : Z;
  fr_amount : cell
}.

(** [float(row['amount'])]; [None] means the call raises. *)
Definition py_float (c : cell) : option Q :=
  match c with
  | Numeric q => Some q
  | _ => None
  end.

Definition is_null (c : cell) : bool :=
  match c with Null => true | _ => false end.

(** The list comprehension building [batch_values]: rows with a null
    amount are filtered out, [float] is applied to the others; [None]
    when some [float] call raises. *)
Fixpoint batch_values (batch : list fact_row) : option (list (Z * Z * Q)) :=
  match batch with
  | [] => Some []
  | r :: rest =>
      if is_null (fr_amount r) then batch_values rest
      else
        match py_float (fr_amount r) with
        | None => None
        | Some a =>
            match batch_values rest with
            | None => None
            | Some vs => Some ((fr_fdc_id r, fr_nutrient_id r, a) :: vs)
            end
        end
  end.

(** [executemany("INSERT OR REPLACE INTO temp_nutrients ...")]. *)
Definition stage (vs : list (Z * Z * Q)) (temp : gmap (Z * Z) Q)
  : gmap (Z * Z) Q :=
  foldl (λ t v, <[(v.1.1, v.1.2) := v.2]> t) temp vs.

(** [SELECT f.id, t.nutrient_id, t.amount, 1.0 FROM temp_nutrients t
     JOIN foods f ON f.fdc_id = t.fdc_id]. *)
Definition staged_join (fs : list food) (temp : gmap (Z * Z) Q)
  : list ((Z * Z) * fact) :=
  map_to_list temp ≫= λ t,
    (λ f, ((f_id f, t.1.2), mk_fact t.2 1)) <$>
      filter (λ f, f_fdc_id f = t.1.1) fs.

Definition insert_or_replace {K V} `{Countable K}
    (rows : list (K * V)) (m : gmap K V) : gmap K V :=
  foldl (λ acc kv, <[kv.1 := kv.2]> acc) m rows.

(** Plain [INSERT]: a primary-key conflict raises. *)
Fixpoint insert_strict {K V} `{Countable K}
    (rows : list (K * V)) (m : gmap K V) : option (gmap K V) :=
  match rows with
  | [] => Some m
  | kv :: rest =>
      match m !! kv.1 with
      | Some _ => None
      | None => insert_strict rest (<[kv.1 := kv.2]> m)
      end
  end.

(** FOREIGN KEY (nutrient_id) REFERENCES nutrients(id), enforced since
    [connect] sets [PRAGMA foreign_keys=ON]. *)
Definition nutrient_fk (ns : list nutrient) (kv : (Z * Z) * fact) : bool :=
  bool_decide (kv.1.2 ∈ n_id <$> ns).

(** [INSERT OR REPLACE INTO food_nutrients ... SELECT ...]; [None] when
    the statement fails on the foreign key (it then changes nothing). *)
Definition flush (fs : list food) (ns : list nutrient)
    (temp : gmap (Z * Z) Q) (fn : gmap (Z * Z) fact)
  : option (gmap (Z * Z) fact) :=
  let sel := staged_join fs temp in
  if forallb (nutrient_fk ns) sel then Some (insert_or_replace sel fn)
  else None.

(** [INSERT INTO temp_nutrients SELECT f.fdc_id, fn.nutrient_id,
     fn.amount FROM food_nutrients fn JOIN foods f ON f.id = fn.food_id]
    into the freshly created temporary table. *)
Definition reload_join (fs : list food) (fn : gmap (Z * Z) fact)
  : list ((Z * Z) * Q) :=
  map_to_list fn ≫= λ r,
    (λ f, ((f_fdc_id f, r.1.2), amount r.2)) <$>
      filter (λ f, f_id f = r.1.1) fs.

Definition reload (fs : list food) (fn : gmap (Z * Z) fact)
  : option (gmap (Z * Z) Q) :=
  insert_strict (reload_join fs fn) ∅.

(** ** import_nutrient_data *)

Definition fact_table : string := "food_nutrients".

(** [SELECT last_processed FROM import_checkpoint WHERE table_name =
     'food_nutrients' AND status = 'in_progress' ORDER BY timestamp DESC
     LIMIT 1]. *)
Definition is_resume_point (c : checkpoint) : Prop :=
  table_name c = fact_table ∧ status c = in_progress.

Global Instance is_resume_point_dec c : Decision (is_resume_point c).
Proof. unfold is_resume_point. apply _. Defined.

Definition latest_checkpoint (log : list checkpoint) : option checkpoint :=
  last (filter is_resume_point log).

(** [start_position = checkpoint[0] if checkpoint else 0]. *)
Definition start_position (log : list checkpoint) : nat :=
  match latest_checkpoint log with
  | Some c => last_processed c
  | None => 0
  end.

(** State of a run inside the batch loop: the tables as the open
    transaction sees them, the temporary table, and what the last
    [commit] left on disk. *)
Record run_state := mk_run {
  w_fn : gmap (Z * Z) fact;
  w_log : list checkpoint;
  w_temp : gmap (Z * Z) Q;
  on_disk : db
}.

(** [self.conn.commit()]: the fact table and the log of the open
    transaction reach the disk; the temporary table is not part of it. *)
Definition commit_tables (d : db) (fn : gmap (Z * Z) fact)
    (log : list checkpoint) : db :=
  set_import_checkpoint log (set_food_nutrients fn d).

Definition commit_run (d : db) (st : run_state) : db :=
  commit_tables d (w_fn st) (w_log st).

Section Importer.
(** [batch_size] and [checkpoint_interval] are local constants of the
    method; the model takes them as parameters and instantiates them
    below. *)
Variables (batch_size checkpoint_interval : nat).
Variable rows : list fact_row.       (* nutrients_df *)

Definition total_rows : nat := length rows.

(** Body of [for i in range(start_position, total_rows, batch_size)].
    The batch is [nutrients_df.slice(i, min(i + batch_size,
    total_rows))]: the second argument of [slice] is a length, so the
    batch may reach beyond [i + batch_size], and [processed] is [i] plus
    the number of rows it holds.  The checkpoint row is inserted before
    the staged rows are converted.  An exception is caught by the inner
    handler, which commits the open transaction and re-raises. *)
Definition import_batch (d : db) (i : nat) (st : run_state)
  : outcome run_state :=
  let batch := slice rows i (min (i + batch_size) total_rows) in
  match batch_values batch with
  | None => Raised st
  | Some vs =>
      let temp := stage vs (w_temp st) in
      let processed := i + length batch in
      if processed mod checkpoint_interval <? batch_size then
        let log :=
          w_log st ++ [mk_checkpoint fact_table processed total_rows
                                     in_progress] in
        match flush (foods d) (nutrients d) temp (w_fn st) with
        | None => Raised (mk_run (w_fn st) log temp (on_disk st))
        | Some fn => Done (mk_run fn log ∅ (commit_tables d fn log))
        end
      else Done (mk_run (w_fn st) (w_log st) temp (on_disk st))
  end.

(** The statements before the loop.  The checkpoint is read; on a
    fresh start ([start_position > 0] is false) the fact table is
    deleted; the temporary table is recreated, and reloaded from the
    fact table when resuming.  [None] when the reload raises, which
    happens outside the inner handler and is rolled back. *)
Definition clears_existing (d : db) : bool :=
  negb (0 <? start_position (import_checkpoint d)).

Definition begin_import (d : db) : option run_state :=
  let resuming := 0 <? start_position (import_checkpoint d) in
  let fn := if resuming then food_nutrients d else ∅ in
  match (if resuming then reload (foods d) fn else Some ∅) with
  | None => None
  | Some temp => Some (mk_run fn (import_checkpoint d) temp d)
  end.

Definition batch_offsets (d : db) : list nat :=
  py_range (start_position (import_checkpoint d)) total_rows batch_size.

(** The final conversion, the terminal checkpoint row and the commit. *)
Definition finish_import (d : db) (st : run_state) : outcome db :=
  match flush (foods d) (nutrients d) (w_temp st) (w_fn st) with
  | None => Raised (commit_run d st)
  | Some fn =>
      Done (commit_tables d fn
              (w_log st ++ [mk_checkpoint fact_table total_rows
                                          total_rows completed]))
  end.

Definition import_nutrient_data_with (d : db) : outcome db :=
  match begin_import d with
  | None => Raised d
  | Some st0 =>
      match for_each (import_batch d) (batch_offsets d) st0 with
      | Raised st => Raised (commit_run d st)
      | Done st => finish_import d st
      end
  end.

(** The process is killed after [j] iterations of the batch loop:
    what is on disk is what the last commit wrote.  (When the loop
    raised before that, the handler's commit is the last one.) *)
Definition interrupted_after (j : nat) (d : db) : db :=
  match begin_import d with
  | None => d
  | Some st0 =>
      match for_each (import_batch d) (take j (batch_offsets d)) st0 with
      | Raised st => commit_run d st
      | Done st => on_disk st
      end
  end.
End Importer.

(** The constants of the method. *)
Definition batch_size : nat := Z.to_nat 100000.
Definition checkpoint_interval : nat := Z.to_nat 500000.

Definition import_nutrient_data (rows : list fact_row) (d : db) : outcome db :=
  import_nutrient_data_with batch_size checkpoint_interval rows d.

(** ** Text helpers (Python [str] methods, ASCII) *)

Definition is_upper (c : ascii) : bool :=
  let n := nat_of_ascii c in (65 <=? n)%nat && (n <=? 90)%nat.
Definition is_lower (c : ascii) : bool :=
  let n := nat_of_ascii c in (97 <=? n)%nat && (n <=? 122)%nat.
Definition is_digit (c : ascii) : bool :=
  let n := nat_of_ascii c in (48 <=? n)%nat && (n <=? 57)%nat.
(** Whitespace for [str.split], [str.strip] and the regex class \s. *)
Definition is_space (c : ascii) : bool :=
  let n := nat_of_ascii c in
  ((9 <=? n)%nat && (n <=? 13)%nat) || ((28 <=? n)%nat && (n <=? 32)%nat).

Definition lower_char (c : ascii) : ascii :=
  if is_upper c then ascii_of_nat (nat_of_ascii c + 32) else c.

Fixpoint map_string (f : ascii → ascii) (s : string) : string :=
  match s with
  | EmptyString => EmptyString
  | String c s' => String (f c) (map_string f s')
  end.

Fixpoint all_chars (p : ascii → bool) (s : string) : bool :=
  match s with
  | EmptyString => true
  | String c s' => p c && all_chars p s'
  end.

(** [s.lower()] *)
Definition lower (s : string) : string := map_string lower_char s.

(** [re.sub(r'[^a-z0-9\s]', ' ', s)] *)
Definition sub_special (s : string) : string :=
  map_string (λ c, if is_lower c || is_digit c || is_space c then c
                   else " "%char) s.

(** [s.split()] *)
Fixpoint split_aux (cur : string) (s : string) : list string :=
  match s with
  | EmptyString => if decide (cur = EmptyString) then [] else [cur]
  | String c s' =>
      if is_space c then
        if decide (cur = EmptyString) then split_aux EmptyString s'
        else cur :: split_aux EmptyString s'
      else split_aux (cur +:+ String c EmptyString) s'
  end.

Definition split (s : string) : list string := split_aux EmptyString s.

(** [sep.join(l)] *)
Fixpoint join (sep : string) (l : list string) : string :=
  match l with
  | [] => EmptyString
  | [w] => w
  | w :: rest => w +:+ sep +:+ join sep rest
  end.

Fixpoint starts_with (p s : string) : bool :=
  match p, s with
  | EmptyString, _ => true
  | String a p', String b s' => bool_decide (a = b) && starts_with p' s'
  | String _ _, EmptyString => false
  end.

(** [needle in hay] for strings. *)
Fixpoint contains (needle hay : string) : bool :=
  starts_with needle hay ||
  match hay with
  | EmptyString => false
  | String _ hay' => contains needle hay'
  end.

(** [s.isdigit()] *)
Definition isdigit (s : string) : bool :=
  negb (bool_decide (s = EmptyString)) && all_chars is_digit s.

(** [int(s)] on a string of decimal digits. *)
Fixpoint int_aux (acc : Z) (s : string) : Z :=
  match s with
  | EmptyString => acc
  | String c s' => int_aux (10 * acc + (Z.of_nat (nat_of_ascii c) - 48)) s'
  end.
Definition py_int (s : string) : Z := int_aux 0 s.

Fixpoint lstrip (s : string) : string :=
  match s with
  | String c s' => if is_space c then lstrip s' else s
  | EmptyString => EmptyString
  end.

Fixpoint rstrip (s : string) : string :=
  match s with
  | EmptyString => EmptyString
  | String c s' =>
      let t := rstrip s' in
      if decide (t = EmptyString) then
        if is_space c then EmptyString else String c EmptyString
      else String c t
  end.

(** [s.strip()] *)
Definition strip (s : string) : string := rstrip (lstrip s).

(** ** Python dictionaries whose iteration order matters: association
    lists in insertion order; assigning to a present key keeps its
    position. *)

Fixpoint dict_get {V} (k : string) (d : list (string * V)) : option V :=
  match d with
  | [] => None
  | (k', v) :: d' => if decide (k' = k) then Some v else dict_get k d'
  end.

Fixpoint dict_set {V} (k : string) (v : V) (d : list (string * V))
  : list (string * V) :=
  match d with
  | [] => [(k, v)]
  | (k', v') :: d' =>
      if decide (k' = k) then (k, v) :: d' else (k', v') :: dict_set k v d'
  end.

(** ** Category classifier *)

(** [_standardize_category_name] *)
Definition standardize_category_name (name : string) : string :=
  if decide (name = EmptyString) then EmptyString
  else join " " (split (sub_special (lower name))).

(** The instance attributes the classifier reads. *)
Record mappings := mk_mappings {
  category_name_to_id : list (string * Z);
  valid_category_ids : list Z
}.

Definition default_category_id : Z := 1.

(** [_build_category_mappings], from the rows of
    [SELECT id, name FROM food_categories] in the order returned. *)
Definition build_category_mappings (cats : list (Z * string)) : mappings :=
  mk_mappings
    (foldl (λ m row, dict_set (lower row.2) row.1 m) [] cats)
    (cats.*1).

Definition base_category_variations : list (string * list string) :=
  [ ("beverages",
     ["drink"; "juice"; "soda"; "coffee"; "tea"; "beverage"; "smoothie";
      "lemonade"; "water"; "cola"; "energy drink"]);
    ("dairy and egg products",
     ["milk"; "cheese"; "yogurt"; "dairy"; "ice cream"; "frozen yogurt";
      "cream"; "butter"; "egg"; "custard"; "pudding"; "whey"]);
    ("snacks",
     ["chips"; "crackers"; "popcorn"; "pretzels"; "snack"; "granola bar";
      "energy bar"; "trail mix"; "peanuts"; "seeds"; "nuts"; "crisps";
      "tortilla chips"; "potato chips"; "corn chips"; "mixed nuts"]);
    ("baked products",
     ["bread"; "cake"; "cookie"; "pastry"; "baked"; "muffin"; "roll"; "bun";
      "bagel"; "croissant"; "donut"; "pie"; "brownie"; "biscuit"; "scone"]);
    ("cereal grains and pasta",
     ["cereal"; "grain"; "pasta"; "rice"; "wheat"; "oat"; "quinoa"; "barley";
      "noodle"; "macaroni"; "spaghetti"; "couscous"; "ramen"]);
    ("fast foods",
     ["restaurant"; "takeout"; "fast-food"; "drive-thru"; "burger"; "pizza";
      "sandwich"; "fries"; "taco"; "burrito"]);
    ("vegetables and vegetable products",
     ["vegetable"; "veggies"; "veg"; "pickle"; "olive"; "pepper"; "relish";
      "salad"; "lettuce"; "tomato"; "carrot"; "potato"; "onion"; "garlic";
      "broccoli"; "spinach"; "cucumber"; "celery"; "mushroom"]);
    ("fruits and fruit juices",
     ["fruit"; "fruits"; "apple"; "orange"; "banana"; "berry"; "grape";
      "citrus"; "peach"; "pear"; "plum"; "mango"; "pineapple"; "melon"]);
    ("spices and herbs",
     ["spice"; "herb"; "seasoning"; "salt"; "marinade"; "tenderizer";
      "pepper"; "garlic"; "oregano"; "basil"; "thyme"; "cinnamon";
      "nutmeg"; "paprika"; "cumin"; "curry"]);
    ("soups, sauces, and gravies",
     ["soup"; "sauce"; "gravy"; "dip"; "salsa"; "ketchup"; "mustard";
      "bbq"; "mayonnaise"; "dressing"; "broth"; "stock"; "chowder";
      "stew"; "bouillon"]);
    ("sweets",
     ["candy"; "chocolate"; "sweet"; "dessert"; "sugar"; "syrup";
      "honey"; "jam"; "jelly"; "marshmallow"; "caramel"; "fudge";
      "taffy"; "gummy"; "licorice"; "lollipop"; "toffee"]) ].

Definition brand_categories : list (string * list string) :=
  [ ("snacks",
     ["doritos"; "lays"; "pringles"; "cheetos"; "ritz"; "nabisco";
      "sunchips"; "tostitos"; "fritos"; "planters"; "chex mix"; "combos"]);
    ("beverages",
     ["coca-cola"; "coke"; "pepsi"; "sprite"; "fanta"; "gatorade";
      "snapple"; "mountain dew"; "dr pepper"; "7up"; "schweppes";
      "red bull"; "monster"]);
    ("sweets",
     ["hershey"; "mars"; "nestle"; "cadbury"; "twix"; "snickers";
      "milky way"; "kitkat"; "reeses"; "butterfinger"; "skittles";
      "starburst"]);
    ("dairy and egg products",
     ["dannon"; "yoplait"; "breyers"; "häagen"; "haagen"; "ben jerry";
      "chobani"; "kraft"; "philadelphia"; "sargento"; "velveeta"]) ].

(** [category_variations[category].extend(brands)] *)
Fixpoint dict_extend (k : string) (extra : list string)
    (d : list (string * list string)) : list (string * list string) :=
  match d with
  | [] => []
  | (k', vs) :: d' =>
      if decide (k' = k) then (k', vs ++ extra) :: d'
      else (k', vs) :: dict_extend k extra d'
  end.

(** The merged table, after the loop over [brand_categories]. *)
Definition category_variations : list (string * list string) :=
  foldl (λ cv entry, dict_extend entry.1 entry.2 cv)
        base_category_variations brand_categories.

(** [if base_id:] is false for [None] and for 0. *)
Definition truthy_id (o : option Z) : option Z :=
  match o with
  | Some id => if decide (id = 0%Z) then None else Some id
  | None => None
  end.

(** [category_name_map]: the standardized category names, then every
    variation of the categories that are present. *)
Definition add_variations (m : list (string * Z))
    (entry : string * list string) : list (string * Z) :=
  match truthy_id (dict_get (standardize_category_name entry.1) m) with
  | Some base_id =>
      foldl (λ m' variation,
               dict_set (standardize_category_name variation) base_id m')
            m entry.2
  | None => m
  end.

(** The dict comprehension over [self.category_name_to_id.items()]. *)
Definition base_name_map (self : mappings) : list (string * Z) :=
  foldl (λ m kv, dict_set (standardize_category_name kv.1) kv.2 m)
        [] (category_name_to_id self).

Definition category_name_map (self : mappings) : list (string * Z) :=
  foldl add_variations (base_name_map self) category_variations.

(** First loop of [find_category_id] over [category_name_map.items()]. *)
Fixpoint name_match (std_food_name : string) (m : list (string * Z))
  : option (Z * string) :=
  match m with
  | [] => None
  | (key_term, cat_id) :: m' =>
      if contains key_term std_food_name
      then Some (cat_id, "name_match:" +:+ key_term)
      else name_match std_food_name m'
  end.

(** [all(word in food_words for word in variation.split())] *)
Definition all_words_in (food_words : list string) (variation : string)
  : bool :=
  forallb (λ word, bool_decide (word ∈ food_words)) (split variation).

Fixpoint first_variation (food_words : list string) (base_id : Z)
    (variations : list string) : option (Z * string) :=
  match variations with
  | [] => None
  | v :: rest =>
      if all_words_in food_words v
      then Some (base_id, "multi_word_match:" +:+ v)
      else first_variation food_words base_id rest
  end.

(** Second loop, over [category_variations.items()]. *)
Fixpoint multi_word_match (m : list (string * Z)) (food_words : list string)
    (cv : list (string * list string)) : option (Z * string) :=
  match cv with
  | [] => None
  | (base_category, variations) :: cv' =>
      match truthy_id (dict_get (standardize_category_name base_category) m)
      with
      | Some base_id =>
          match first_variation food_words base_id variations with
          | Some r => Some r
          | None => multi_word_match m food_words cv'
          end
      | None => multi_word_match m food_words cv'
      end
  end.

Definition find_category_id (self : mappings)
    (food_name category_name : string) : Z * string :=
  let m := category_name_map self in
  if isdigit category_name
     && bool_decide (py_int category_name ∈ valid_category_ids self)
  then (py_int category_name, "direct_id")
  else
    let std_category := standardize_category_name category_name in
    let std_food_name := standardize_category_name food_name in
    match dict_get std_category m with
    | Some id => (id, "exact_match")
    | None =>
        match name_match std_food_name m with
        | Some r => r
        | None =>
            match multi_word_match m (split std_food_name)
                    category_variations with
            | Some r => r
            | None => (default_category_id, "default")
            end
        end
    end.

(** ** import_foundation_foods *)

(** A cell of the [food_category_id] column: polars yields [None], an
    [int] or a [str] depending on the inferred column type. *)
Inductive pl_cell :=
| PNone
| PInt (z : Z)
| PStr (s : string).

Record food_csv_row := mk_food_csv_row {
  fc_fdc_id : option Z;
  fc_description : option string;
  fc_food_category_id : pl_cell
}.

(** [row['food_category_id'].strip() if row['food_category_id'] else ''];
    [None] when [.strip()] raises (the cell is a non-zero [int]). *)
Definition category_label (c : pl_cell) : option string :=
  match c with
  | PNone => Some EmptyString
  | PInt z => if decide (z = 0%Z) then Some EmptyString else None
  | PStr s => if decide (s = EmptyString) then Some EmptyString
              else Some (strip s)
  end.

(** [INSERT OR REPLACE INTO foods (fdc_id, name, category_id, ...)]:
    [fdc_id] and [name] are NOT NULL, [category_id] is a foreign key;
    a row with the same [fdc_id] is replaced; the new row takes the
    next AUTOINCREMENT id.  [None] when the statement raises. *)
Definition insert_food (cats : list (Z * string))
    (fdc : option Z) (name : option string) (category_id : Z)
    (fs : list food) (seq : Z) : option (list food * Z) :=
  match fdc, name with
  | Some fdc, Some name =>
      if bool_decide (category_id ∈ cats.*1) then
        Some (filter (λ f, f_fdc_id f ≠ fdc) fs ++
                [mk_food (seq + 1) fdc name category_id 100 "g" 1],
              (seq + 1)%Z)
      else None
  | _, _ => None
  end.

(** The loop commits every 10000 imported rows. *)
Definition foods_commit_every : nat := Z.to_nat 10000.

Record foods_state := mk_foods_state {
  fs_foods : list food;
  fs_seq : Z;
  imported_count : nat;
  fs_disk : db
}.

(** Body of the loop over [foods_df.iter_rows]; the handler logs and
    re-raises. *)
Definition import_food_row (self : mappings) (d0 : db)
    (row : food_csv_row) (st : foods_state) : outcome foods_state :=
  match category_label (fc_food_category_id row) with
  | None => Raised st
  | Some category_name =>
      let food_name := default EmptyString (fc_description row) in
      let category_id := (find_category_id self food_name category_name).1 in
      match insert_food (food_categories d0) (fc_fdc_id row)
              (fc_description row) category_id (fs_foods st) (fs_seq st) with
      | None => Raised st
      | Some (fs, seq) =>
          let imported := S (imported_count st) in
          if (imported mod foods_commit_every =? 0)%nat
          then Done (mk_foods_state fs seq imported (set_foods fs seq d0))
          else Done (mk_foods_state fs seq imported (fs_disk st))
      end
  end.

(** The five DELETE statements and the commit that open the method. *)
Definition clear_for_foods (d : db) : db :=
  mk_db (food_categories d) (nutrients d) [] (foods_seq d) ∅ ∅ ∅ ∅
        (import_checkpoint d).

(** On an exception the outer handler rolls back to the last commit. *)
Definition import_foundation_foods (self : mappings)
    (rows : list food_csv_row) (d : db) : outcome db :=
  let d0 := clear_for_foods d in
  match for_each (import_food_row self d0) rows
          (mk_foods_state [] (foods_seq d0) 0 d0) with
  | Raised st => Raised (fs_disk st)
  | Done st => Done (set_foods (fs_foods st) (fs_seq st) d0)
  end.

(** ** Ranking and scoring *)

Definition Qltb (x y : Q) : bool := negb (Qle_bool y x).

Definition Qnat (n : nat) : Q := inject_Z (Z.of_nat n).

Definition Qsum (l : list Q) : Q := foldr Qplus 0%Q l.

(** SQL [MIN] and [MAX] over a non-empty group. *)
Definition Qmin_list (a : Q) (l : list Q) : Q :=
  foldl (λ m x, if Qltb x m then x else m) a l.
Definition Qmax_list (a : Q) (l : list Q) : Q :=
  foldl (λ m x, if Qltb m x then x else m) a l.

(** The rows of [food_nutrients] with [nutrient_id = nid] and
    [amount > 0]: the group of [nutrient_stats] and the window
    partition of the ranking query. *)
Definition positive_amounts (fn : gmap (Z * Z) fact) (nid : Z) : list Q :=
  omap (λ kv, if decide (kv.1.2 = nid)
              then if Qltb 0 (amount kv.2) then Some (amount kv.2) else None
              else None)
       (map_to_list fn).

Record stats := mk_stats {
  avg_amount : Q;
  min_amount : Q;
  max_amount : Q
}.

(** The CTE [nutrient_stats]; no row for a nutrient without a positive
    amount. *)
Definition nutrient_stats (fn : gmap (Z * Z) fact) (nid : Z) : option stats :=
  match positive_amounts fn nid with
  | [] => None
  | a :: l =>
      Some (mk_stats (Qsum (a :: l) / Qnat (length (a :: l)))
                     (Qmin_list a l) (Qmax_list a l))
  end.

(** [RANK() OVER (PARTITION BY nutrient_id ORDER BY amount)]: one more
    than the number of partition rows that sort strictly before. *)
Definition sql_rank (a : Q) (partition : list Q) : nat :=
  S (length (filter (λ x, Qltb x a = true) partition)).

(** One row of the ranking SELECT, for the fact [(k, f)]. *)
Definition ranking_row (fn : gmap (Z * Z) fact) (k : Z * Z) (f : fact)
  : option ranking :=
  match nutrient_stats fn k.2 with
  | None => None
  | Some ns =>
      if Qltb 0 (amount f) then
        let partition := positive_amounts fn k.2 in
        Some (mk_ranking (amount f)
                (Qnat (sql_rank (amount f) partition) * 100
                   / Qnat (length partition))
                (if Qeq_bool (max_amount ns) (min_amount ns) then 0
                 else (amount f - avg_amount ns)
                        / (max_amount ns - min_amount ns)))%Q
      else None
  end.

Definition calculate_nutrient_rankings (d : db) : db :=
  set_nutrient_rankings
    (map_imap (ranking_row (food_nutrients d)) (food_nutrients d)) d.

(** [name LIKE '%pat%'] (LIKE ignores ASCII case). *)
Definition like_contains (pat name : string) : bool :=
  contains (lower pat) (lower name).

(** [foods f LEFT JOIN food_nutrients fn ON f.id = fn.food_id
     LEFT JOIN nutrients n ON fn.nutrient_id = n.id], the rows of one
    food: a food without facts keeps one row of NULLs. *)
Definition food_group (ns : list nutrient) (fn : gmap (Z * Z) fact)
    (f : food) : list (option fact * option nutrient) :=
  match filter (λ kv, kv.1.1 = f_id f) (map_to_list fn) with
  | [] => [(None, None)]
  | facts =>
      facts ≫= λ kv,
        match filter (λ n, n_id n = kv.1.2) ns with
        | [] => [(Some kv.2, None)]
        | matches => (λ n, (Some kv.2, Some n)) <$> matches
        end
  end.

(** SQL [MAX] over a group, NULL on an empty one. *)
Definition sql_max (l : list Q) : option Q :=
  match l with
  | [] => None
  | a :: l' => Some (Qmax_list a l')
  end.

(** [COALESCE(MAX(CASE WHEN n.name LIKE '%pat%' THEN fn.amount END), 0)] *)
Definition headline (pat : string)
    (g : list (option fact * option nutrient)) : option Q :=
  Some (default 0%Q
    (sql_max
       (omap (λ row, match row with
                     | (Some f, Some n) =>
                         if like_contains pat (n_name n)
                         then Some (amount f) else None
                     | _ => None
                     end) g))).

(** [CASE WHEN COUNT( * ) >= 10 THEN 1.0 ELSE COUNT( * ) / 10.0 END] *)
Definition completeness_of_count (count : nat) : Q :=
  if (10 <=? count)%nat then 1%Q else (Qnat count / 10)%Q.

Definition mv_row_of (ns : list nutrient) (fn : gmap (Z * Z) fact)
    (f : food) : mv_row :=
  let g := food_group ns fn f in
  mk_mv_row (f_name f)
    (headline "Energy" g) (headline "Protein" g) (headline "Total lipid" g)
    (headline "Carbohydrate" g) (headline "Fiber" g) (headline "Sugars" g)
    (headline "Calcium" g) (headline "Iron" g) (headline "Vitamin C" g)
    (headline "Vitamin D" g) (headline "Vitamin B-12" g)
    (Some (completeness_of_count (length g))).

(** DELETE, then INSERT one row per group of [GROUP BY f.id, f.name]. *)
Definition update_common_nutrients_mv (d : db) : db :=
  set_common_nutrients_mv
    (list_to_map
       ((λ f, (f_id f, mv_row_of (nutrients d) (food_nutrients d) f))
          <$> foods d)) d.

Definition coalesce (o : option Q) (dflt : Q) : Q := default dflt o.

(** [CASE WHEN x > 0 THEN 1 ELSE 0 END]; a NULL compares as not true. *)
Definition positive_flag (o : option Q) : Z :=
  match o with
  | Some x => if Qltb 0 x then 1%Z else 0%Z
  | None => 0%Z
  end.

(** One row of the density SELECT. *)
Definition density_of (cn : mv_row) : density_score :=
  mk_density_score
    ((coalesce (protein cn) 0 / 50 + coalesce (fiber cn) 0 / 25
      + coalesce (vitamin_c cn) 0 / 90 + coalesce (iron cn) 0 / 18
      + coalesce (calcium cn) 0 / 1000) / 5 * 100)%Q
    (inject_Z (positive_flag (protein cn) + positive_flag (fiber cn)
               + positive_flag (vitamin_c cn) + positive_flag (iron cn)
               + positive_flag (calcium cn)) / 5)%Q
    (coalesce (calories cn) 0)
    [("protein", coalesce (protein cn) 0);
     ("fiber", coalesce (fiber cn) 0);
     ("vitamin_c", coalesce (vitamin_c cn) 0);
     ("iron", coalesce (iron cn) 0);
     ("calcium", coalesce (calcium cn) 0)].

(** DELETE, then INSERT ... SELECT ... FROM common_nutrients_mv. *)
Definition calculate_density_scores (d : db) : db :=
  set_food_density_scores (density_of <$> common_nutrients_mv d) d.

(** The three calls of [update_rankings_and_scores], in the order the
    method makes them ([verify_data_integrity] only reads). *)
Definition update_rankings_and_scores (d : db) : db :=
  update_common_nutrients_mv
    (calculate_density_scores (calculate_nutrient_rankings d)).

(** * Vocabulary of the statements *)

(** ** The importer *)

Definition or_else {A} (x y : option A) : option A :=
  match x with
  | Some a => Some a
  | None => y
  end.

Definition row_key (r : fact_row) : Z * Z := (fr_fdc_id r, fr_nutrient_id r).

(** The amount of the last row of the file, among those for the pair
    [k], whose amount is a number (rows with a null amount carry no
    value). *)
Fixpoint last_amount (k : Z * Z) (rows : list fact_row) : option Q :=
  match rows with
  | [] => None
  | r :: rest =>
      or_else (last_amount k rest)
              (if decide (row_key r = k) then py_float (fr_amount r)
               else None)
  end.

Definition imported (a : Q) : fact := mk_fact a 1.

(** What a flush of [temp] over [fn] would leave for the facts of the
    foods [fs], against the first [p] rows of the file. *)
Definition view_agrees (fs : list food) (rows : list fact_row) (p : nat)
    (temp : gmap (Z * Z) Q) (fn : gmap (Z * Z) fact) : Prop :=
  (∀ f nid, f ∈ fs →
     or_else (imported <$> temp !! (f_fdc_id f, nid)) (fn !! (f_id f, nid))
     = imported <$> last_amount (f_fdc_id f, nid) (take p rows))
  ∧ (∀ fid nid, (∀ f, f ∈ fs → f_id f ≠ fid) → fn !! (fid, nid) = None).

Definition numeric_or_null (c : cell) : Prop :=
  match c with
  | NonNumeric _ => False
  | _ => True
  end.

(** The rows of the file that reach [food_nutrients]: an amount that is
    not null and a known food. *)
Definition reaches_table (fs : list food) (r : fact_row) : Prop :=
  is_null (fr_amount r) = false ∧ fr_fdc_id r ∈ f_fdc_id <$> fs.

(** A file the importer can load completely: every amount is null or
    numeric, and the rows that reach the table name a known nutrient. *)
Definition loadable (fs : list food) (ns : list nutrient)
    (rows : list fact_row) : Prop :=
  ∀ r, r ∈ rows →
    numeric_or_null (fr_amount r) ∧
    (reaches_table fs r → fr_nutrient_id r ∈ n_id <$> ns).

(** Staged rows of known foods name known nutrients. *)
Definition temp_valid (fs : list food) (ns : list nutrient)
    (temp : gmap (Z * Z) Q) : Prop :=
  ∀ fdc nid, is_Some (temp !! (fdc, nid)) → fdc ∈ f_fdc_id <$> fs →
    nid ∈ n_id <$> ns.

(** Among the first [p] rows every amount converted, and those that
    reach the table either passed a foreign-key check or are still
    staged. *)
Definition staged_or_valid (fs : list food) (ns : list nutrient)
    (rows : list fact_row) (p : nat) (temp : gmap (Z * Z) Q) : Prop :=
  ∀ r, r ∈ take p rows →
    numeric_or_null (fr_amount r) ∧
    (reaches_table fs r →
       fr_nutrient_id r ∈ n_id <$> ns ∨ is_Some (temp !! row_key r)).

(** What the last commit of a run left on disk: nothing yet, or the
    tables of the run at its latest checkpoint, which hold the facts of
    the rows before that offset. *)
Definition disk_inv (d : db) (rows : list fact_row) (st : run_state) : Prop :=
  (on_disk st = d ∧ w_log st = import_checkpoint d) ∨
  (on_disk st = commit_run d st ∧
   ∃ c, latest_checkpoint (w_log st) = Some c ∧
        0 < last_processed c ≤ length rows ∧
        view_agrees (foods d) rows (last_processed c) ∅ (w_fn st)).

Definition outcome_db (o : outcome db) : db :=
  match o with
  | Done d | Raised d => d
  end.

(** ** The checkpoint log *)

(** No row of the log marks an unfinished import of the fact table. *)
Definition no_in_progress (log : list checkpoint) : Prop :=
  ∀ c, c ∈ log → ¬ is_resume_point c.



(** The rows the batch loop appends to the log. *)
Definition progress_row (c : checkpoint) : Prop :=
  is_resume_point c ∧ 0 < last_processed c.

(** The log of a run, and of what it has committed, extends the log it
    started from by progress rows. *)
Definition log_extends (log0 : list checkpoint) (st : run_state) : Prop :=
  (∃ new, w_log st = log0 ++ new ∧ Forall progress_row new) ∧
  (∃ new, import_checkpoint (on_disk st) = log0 ++ new
          ∧ Forall progress_row new).

(** ** The food file *)

(** A row of the food file that cannot be imported whatever the
    database holds: a missing fdc_id or description (NOT NULL), or a
    category cell on which [.strip()] raises. *)
Definition row_must_fail (r : food_csv_row) : Prop :=
  fc_fdc_id r = None ∨ fc_description r = None
  ∨ category_label (fc_food_category_id r) = None.

(** ** Rankings and scores *)



Definition is_max (hi : Q) (l : list Q) : Prop :=
  (∃ x, x ∈ l ∧ (x == hi)%Q) ∧ ∀ y, y ∈ l → (y <= hi)%Q.

(** ** The classifier example *)

Definition cheddar : string := "cheddar cheese".
Definition dairy : string := "dairy and egg products".

(** A variation of the synonym table that cannot disturb the example:
    its key is not empty, is not the dairy category name, and is a
    substring of the food name only if it is the dairy term "cheese". *)
Definition variation_ok (base v : string) : Prop :=
  standardize_category_name v ≠ EmptyString ∧
  standardize_category_name v ≠ dairy ∧
  (contains (standardize_category_name v) cheddar = true →
   standardize_category_name v = "cheese"
   ∧ standardize_category_name base = dairy).

Global Instance variation_ok_dec base v : Decision (variation_ok base v).
Proof. unfold variation_ok. apply _. Defined.

(** The invariant of [category_name_map] while the variations are
    added: the only key occurring in the food name is "cheese" with the
    dairy id, the dairy category keeps its id, no key is empty. *)
Definition map_inv (dairy_id : Z) (m : list (string * Z)) : Prop :=
  Forall (λ kv, contains kv.1 cheddar = true → kv = ("cheese", dairy_id)) m
  ∧ dict_get dairy m = Some dairy_id
  ∧ dict_get EmptyString m = None.

(** ** Sample data for the concrete instances *)

Definition sample_categories : list (Z * string) :=
  [(1%Z, "Dairy and Egg Products"); (2%Z, "Spices and Herbs");
   (14%Z, "Beverages")].

Definition sample_nutrients : list nutrient :=
  [mk_nutrient 1003 "Protein" "G";
   mk_nutrient 1079 "Fiber, total dietary" "G";
   mk_nutrient 1162 "Vitamin C, total ascorbic acid" "MG";
   mk_nutrient 1089 "Iron, Fe" "MG";
   mk_nutrient 1087 "Calcium, Ca" "MG"].

Definition sample_foods : list food :=
  [mk_food 1 101 "Cheddar Cheese" 1 100 "g" 1;
   mk_food 2 102 "Whole Milk" 1 100 "g" 1].

(** A database holding the dimension tables only. *)
Definition sample_db : db :=
  mk_db sample_categories sample_nutrients sample_foods 2 ∅ ∅ ∅ ∅ [].

(** A fact file of seven rows: a repeated pair, an unknown food and a
    null amount. *)
Definition sample_rows : list fact_row :=
  [mk_fact_row 101 1003 (Numeric 25);
   mk_fact_row 102 1003 (Numeric 3);
   mk_fact_row 101 1003 (Numeric (51 # 2));
   mk_fact_row 999 1003 (Numeric 3);
   mk_fact_row 101 1079 Null;
   mk_fact_row 102 1079 (Numeric 5);
   mk_fact_row 102 1003 (Numeric 7)].

(** A file with a non-numeric amount in its second row. *)
Definition sample_bad_rows : list fact_row :=
  [mk_fact_row 101 1003 (Numeric 25);
   mk_fact_row 102 1003 (NonNumeric "n/a");
   mk_fact_row 102 1079 (Numeric 5)].

(** The fact file of the spec's density example: the five components
    for food 101. *)
Definition density_rows : list fact_row :=
  [mk_fact_row 101 1003 (Numeric 25);
   mk_fact_row 101 1079 (Numeric 5);
   mk_fact_row 101 1162 (Numeric 45);
   mk_fact_row 101 1089 (Numeric 9);
   mk_fact_row 101 1087 (Numeric 500)].

(** The database right after the import of that file: the facts are
    loaded, the derived tables are still empty; food 1 has the five
    components of the density score, food 2 has no fact. *)
Definition loaded_db : db :=
  outcome_db (import_nutrient_data density_rows sample_db).


(** ** Standardized names *)

(** A character the normalisation keeps inside a word. *)
Definition is_word_char (c : ascii) : bool := is_lower c || is_digit c.

(** A character the substitution of [_standardize_category_name]
    leaves in place. *)
Definition is_kept_char (c : ascii) : bool :=
  is_lower c || is_digit c || is_space c.

(** A word of a standardized name: not empty, made of lowercase
    letters and digits. *)
Definition is_word (w : string) : Prop :=
  w ≠ EmptyString ∧ all_chars is_word_char w = true.

(** ** The food table *)

(** The food that row [r] becomes when it is row [i] (from 0) of a file
    imported on a database whose id sequence stood at [seq0]: every
    INSERT takes the next AUTOINCREMENT id. *)
Definition food_of_row (self : mappings) (seq0 : Z) (i : nat)
    (r : food_csv_row) : option food :=
  match fc_fdc_id r, fc_description r,
        category_label (fc_food_category_id r) with
  | Some fdc, Some name, Some label =>
      Some (mk_food (seq0 + Z.of_nat i + 1) fdc name
                    (find_category_id self name label).1 100 "g" 1)
  | _, _, _ => None
  end.

(** Row [i] of the file is [r], and no later row has its fdc_id. *)
Definition last_of_fdc (rows : list food_csv_row) (i : nat)
    (r : food_csv_row) : Prop :=
  rows !! i = Some r ∧
  ∀ j r', i < j → rows !! j = Some r' → fc_fdc_id r' ≠ fc_fdc_id r.

(** The constraints of the schema on [foods], for ids handed out after
    the sequence stood at [seq0]: primary key, UNIQUE fdc_id, foreign
    key on the category. *)
Definition foods_table_ok (cats : list (Z * string)) (seq0 : Z)
    (fs : list food) (seq : Z) : Prop :=
  (seq0 ≤ seq)%Z ∧ NoDup (f_id <$> fs) ∧ NoDup (f_fdc_id <$> fs) ∧
  Forall (λ f, (seq0 < f_id f ≤ seq)%Z ∧ f_category_id f ∈ cats.*1) fs.

(** A food file with a repeated fdc_id. *)
Definition sample_food_rows : list food_csv_row :=
  [mk_food_csv_row (Some 101%Z) (Some "Cheddar Cheese") PNone;
   mk_food_csv_row (Some 102%Z) (Some "Whole Milk") (PStr "1");
   mk_food_csv_row (Some 101%Z) (Some "Cheese, cheddar") (PStr " 14 ")].

(** ** Fact tables *)

(** [fn] is the fact table an import of [file] leaves for the foods
    [fs]: a row for each pair of a food and a nutrient that has a
    numeric amount in the file, with the last such amount and
    confidence 1, and no other row. *)
Definition holds_facts_of (fs : list food) (file : list fact_row)
    (fn : gmap (Z * Z) fact) : Prop :=
  ∀ fid nid v,
    fn !! (fid, nid) = Some v ↔
    ∃ f a, f ∈ fs ∧ f_id f = fid
           ∧ last_amount (f_fdc_id f, nid) file = Some a
           ∧ v = mk_fact a 1.




(** ** verify_data_integrity *)

(** The five [COUNT( * )] checks, as (description, count). *)
Definition core_checks (d : db) : list (string * nat) :=
  [("total foods", length (foods d));
   ("total nutrients", length (nutrients d));
   ("total nutrient records", length (map_to_list (food_nutrients d)));
   ("nutrient rankings", length (map_to_list (nutrient_rankings d)));
   ("density scores", length (map_to_list (food_density_scores d)))].

(** [SELECT COUNT( * ) FROM food_nutrients fn LEFT JOIN foods f
     ON fn.food_id = f.id WHERE f.id IS NULL] *)
Definition orphaned_records (d : db) : nat :=
  length (filter (λ kv : (Z * Z) * fact, kv.1.1 ∉ f_id <$> foods d)
                 (map_to_list (food_nutrients d))).

(** [SELECT COUNT( * ) FROM foods f LEFT JOIN food_density_scores fds
     ON f.id = fds.food_id WHERE fds.food_id IS NULL] *)
Definition missing_scores (d : db) : nat :=
  length (filter (λ f, food_density_scores d !! f_id f = None) (foods d)).

(** The [results] dictionary the method returns; it only reads. *)
Definition verify_data_integrity (d : db) : list (string * nat) :=
  dict_set "foods missing density scores" (missing_scores d)
    (dict_set "orphaned records" (orphaned_records d)
       (foldl (λ results check, dict_set check.1 check.2 results)
              [] (core_checks d))).

(** No fact row names a food that [foods] does not have. *)
Definition no_orphans (fs : list food) (fn : gmap (Z * Z) fact) : Prop :=
  ∀ fid nid, is_Some (fn !! (fid, nid)) → fid ∈ f_id <$> fs.

(** The facts of food [f] that the column with pattern [pat] reads:
    the amount, for every nutrient of the food whose name matches. *)
Definition matches_column (pat : string) (ns : list nutrient)
    (fn : gmap (Z * Z) fact) (f : food) (a : Q) : Prop :=
  ∃ nid fa n, fn !! (f_id f, nid) = Some fa ∧ n ∈ ns ∧ n_id n = nid
              ∧ like_contains pat (n_name n) = true ∧ a = amount fa.


(** ** import_portions *)

(** common_portions: id INTEGER PRIMARY KEY AUTOINCREMENT, food_id
    REFERENCES foods(id), description, gram_weight, household_measure.
    The table is kept beside the record [db]. *)
Record portion := mk_portion {
  p_id : Z;
  p_food_id : Z;
  p_description : option string;
  p_gram_weight : Q;
  p_household_measure : option string
}.

Record store := mk_store {
  tables : db;
  common_portions : list portion;
  portions_seq : Z          (* sqlite_sequence entry of common_portions *)
}.

(** A row of [food_portion.csv]. *)
Record portion_row := mk_portion_row {
  pr_fdc_id : option Z;
  pr_amount : cell;
  pr_gram_weight : cell;
  pr_portion_description : option string;
  pr_modifier : option string
}.

(** Truth value of a cell: [None], zero and the empty string are
    false. *)
Definition truthy (c : cell) : bool :=
  match c with
  | Null => false
  | Numeric q => negb (Qeq_bool q 0)
  | NonNumeric s => negb (bool_decide (s = EmptyString))
  end.

(** [float(cell or dflt)]; [None] when [float] raises. *)
Definition float_or (c : cell) (dflt : Q) : option Q :=
  py_float (if truthy c then c else Numeric dflt).

(** [{row[1]: row[0] for row in SELECT id, fdc_id FROM foods}] *)
Definition food_map (fs : list food) : gmap Z Z :=
  foldl (λ m f, <[f_fdc_id f := f_id f]> m) ∅ fs.

(** A tuple appended to [values]. *)
Record portion_value := mk_portion_value {
  pv_food_id : Z;
  pv_description : option string;
  pv_gram_weight : Q;
  pv_modifier : option string
}.

(** Body of the loop over the rows: [values] and [skipped]. *)
Definition import_portion_row (fm : gmap Z Z) (row : portion_row)
    (acc : list portion_value * nat) : list portion_value * nat :=
  match pr_fdc_id row ≫= (fm !!.) with
  | None => (acc.1, S acc.2)
  | Some food_id =>
      match float_or (pr_amount row) 100 with
      | None => (acc.1, S acc.2)
      | Some _ =>
          match float_or (pr_gram_weight row) 0 with
          | None => (acc.1, S acc.2)
          | Some gram_weight =>
              (acc.1 ++ [mk_portion_value food_id
                           (pr_portion_description row) gram_weight
                           (pr_modifier row)],
               acc.2)
          end
      end
  end.

Definition scan_portions (fm : gmap Z Z) (rows : list portion_row)
  : list portion_value * nat :=
  foldl (λ acc row, import_portion_row fm row acc) ([], 0) rows.

(** [executemany("INSERT INTO common_portions ...")]: every row takes
    the next AUTOINCREMENT id; [None] when a food_id fails the foreign
    key. *)
Definition insert_portions (fs : list food) (seq : Z)
    (values : list portion_value) : option (list portion) :=
  if forallb (λ v, bool_decide (pv_food_id v ∈ f_id <$> fs)) values
  then Some (imap (λ i v, mk_portion (seq + Z.of_nat i + 1) (pv_food_id v)
                            (pv_description v) (pv_gram_weight v)
                            (pv_modifier v)) values)
  else None.

(** The table is emptied and refilled in one transaction, which the
    handler rolls back on an exception. *)
Definition import_portions (rows : list portion_row) (s : store)
  : outcome store :=
  let fs := foods (tables s) in
  let values := (scan_portions (food_map fs) rows).1 in
  match insert_portions fs (portions_seq s) values with
  | None => Raised s
  | Some ps =>
      Done (mk_store (tables s) ps
                     (portions_seq s + Z.of_nat (length values)))
  end.

(** The two numbers the method logs. *)
Definition portions_logged (rows : list portion_row) (s : store) : nat * nat :=
  let r := scan_portions (food_map (foods (tables s))) rows in
  (length r.1, r.2).

(** [import_foundation_foods] on a database with portions: the DELETE
    of [foods] fails on the foreign key of [common_portions] when a
    portion refers to a food; the handler rolls the method's earlier
    DELETE statements back. *)
Definition import_foundation_foods_store (self : mappings)
    (rows : list food_csv_row) (s : store) : outcome store :=
  if existsb (λ p, bool_decide (p_food_id p ∈ f_id <$> foods (tables s)))
             (common_portions s)
  then Raised s
  else
    match import_foundation_foods self rows (tables s) with
    | Done d' => Done (mk_store d' (common_portions s) (portions_seq s))
    | Raised d' => Raised (mk_store d' (common_portions s) (portions_seq s))
    end.

(** The gram weight stored for a row: the number of the cell, 0 when
    the cell is empty. *)
Definition weight_of (c : cell) : Q :=
  match c with
  | Numeric q => q
  | _ => 0
  end.

(** A row of the portion file that is imported: its fdc_id is the one
    of a food and neither number is a text [float] rejects. *)
Definition bad_number (c : cell) : Prop :=
  match c with
  | NonNumeric s => s ≠ EmptyString
  | _ => False
  end.

Global Instance bad_number_dec c : Decision (bad_number c).
Proof. destruct c; simpl; apply _. Defined.

Definition known_fdc (fs : list food) (fdc : option Z) : Prop :=
  match fdc with
  | Some z => z ∈ f_fdc_id <$> fs
  | None => False
  end.

Global Instance known_fdc_dec fs fdc : Decision (known_fdc fs fdc).
Proof. destruct fdc; simpl; apply _. Defined.

Definition portion_importable (fs : list food) (row : portion_row) : Prop :=
  known_fdc fs (pr_fdc_id row)
  ∧ ¬ bad_number (pr_amount row) ∧ ¬ bad_number (pr_gram_weight row).

Global Instance portion_importable_dec fs row :
  Decision (portion_importable fs row).
Proof. unfold portion_importable. apply _. Defined.

(** The relation between an importable row and the tuple built from
    it. *)
Definition tuple_of_row (fs : list food) (row : portion_row)
    (v : portion_value) : Prop :=
  (∃ f, f ∈ fs ∧ pr_fdc_id row = Some (f_fdc_id f) ∧ pv_food_id v = f_id f)
  ∧ pv_description v = pr_portion_description row
  ∧ (pv_gram_weight v == weight_of (pr_gram_weight row))%Q
  ∧ pv_modifier v = pr_modifier row.

Definition portion_of_row (fs : list food) (row : portion_row)
    (p : portion) : Prop :=
  tuple_of_row fs row
    (mk_portion_value (p_food_id p) (p_description p) (p_gram_weight p)
                      (p_household_measure p)).

(** The portion file of the examples: a known food, an unknown one, a
    malformed weight and an empty weight. *)
Definition sample_portion_rows : list portion_row :=
  [mk_portion_row (Some 101%Z) (Numeric 1) (Numeric 28) (Some "slice") None;
   mk_portion_row (Some 999%Z) (Numeric 1) (Numeric 10) (Some "cup") None;
   mk_portion_row (Some 102%Z) (Numeric 1) (NonNumeric "n/a") None None;
   mk_portion_row (Some 102%Z) Null Null (Some "cup") (Some "whole")].

Definition sample_store : store := mk_store sample_db [] 0.

(** ** populate_nutrients *)

Definition set_nutrients (ns : list nutrient) (d : db) : db :=
  mk_db (food_categories d) ns (foods d) (foods_seq d)
        (food_nutrients d) (nutrient_rankings d) (common_nutrients_mv d)
        (food_density_scores d) (import_checkpoint d).

(** A row of [nutrient.csv].  [nc_id] is [int(row['id'])], [None] when
    the conversion raises; the column nutrient_nbr has no constraint
    and is left out, like the columns nutrient_nbr and rank of the
    table. *)
Record nutrient_csv_row := mk_nutrient_csv_row {
  nc_id : option Z;
  nc_name : option string;
  nc_unit_name : option string;
  nc_rank : cell
}.

(** [float(row['rank']) if row['rank'] else None]; the outer [None]
    when [float] raises. *)
Definition rank_value (c : cell) : option (option Q) :=
  if truthy c then
    match py_float c with
    | Some q => Some (Some q)
    | None => None
    end
  else Some None.

(** The nutrient a row stands for, when its values can be bound to an
    INSERT: the conversions succeed, name and unit are NOT NULL. *)
Definition nutrient_of_row (row : nutrient_csv_row) : option nutrient :=
  match nc_id row, rank_value (nc_rank row), nc_name row, nc_unit_name row
  with
  | Some id, Some _, Some name, Some unit => Some (mk_nutrient id name unit)
  | _, _, _, _ => None
  end.

(** [INSERT INTO nutrients]: the id is the primary key.  [None] when
    the statement, or a conversion before it, raises. *)
Definition insert_nutrient (row : nutrient_csv_row) (ns : list nutrient)
  : option (list nutrient) :=
  match nutrient_of_row row with
  | Some n =>
      if bool_decide (n_id n ∈ n_id <$> ns) then None else Some (ns ++ [n])
  | None => None
  end.

(** Body of the loop: the handler inside it logs a warning and goes on
    with the next row. *)
Definition populate_row (ns : list nutrient) (row : nutrient_csv_row)
  : list nutrient :=
  default ns (insert_nutrient row ns).

(** The file is taken to exist.
    [DELETE FROM nutrients] fails on the foreign keys of
    [food_nutrients] and [nutrient_rankings] when one of their rows
    refers to a nutrient. *)
Definition nutrients_referenced (d : db) : bool :=
  existsb (λ kv : (Z * Z) * fact,
             bool_decide (kv.1.2 ∈ n_id <$> nutrients d))
          (map_to_list (food_nutrients d))
  || existsb (λ kv : (Z * Z) * ranking,
                bool_decide (kv.1.2 ∈ n_id <$> nutrients d))
             (map_to_list (nutrient_rankings d)).

(** The outer handler rolls back and re-raises. *)
Definition populate_nutrients (rows : list nutrient_csv_row) (d : db)
  : outcome db :=
  if nutrients_referenced d then Raised d
  else Done (set_nutrients (foldl populate_row [] rows) d).

(** No earlier row of the file that can be inserted has the id of row
    [i]. *)
Definition first_of_id (rows : list nutrient_csv_row) (i : nat)
    (row : nutrient_csv_row) : Prop :=
  ∀ j row', j < i → rows !! j = Some row' →
    is_Some (nutrient_of_row row') → nc_id row' ≠ nc_id row.

(** ** create_food_categories *)

Definition set_food_categories (cats : list (Z * string)) (d : db) : db :=
  mk_db cats (nutrients d) (foods d) (foods_seq d)
        (food_nutrients d) (nutrient_rankings d) (common_nutrients_mv d)
        (food_density_scores d) (import_checkpoint d).

(** A row of [food_category.csv]; [cc_id] is [int(row['id'])]. *)
Record category_csv_row := mk_category_csv_row {
  cc_id : option Z;
  cc_description : option string
}.

(** The table in the order a scan returns it: [id] is the INTEGER
    PRIMARY KEY, that is the rowid, and rows come in rowid order. *)
Fixpoint insert_by_id (c : Z * string) (cats : list (Z * string))
  : list (Z * string) :=
  match cats with
  | [] => [c]
  | x :: cats' =>
      if (c.1 <? x.1)%Z then c :: x :: cats' else x :: insert_by_id c cats'
  end.

(** [INSERT OR REPLACE INTO food_categories (id, name)]: the rows with
    the same id or the same name (UNIQUE) are deleted and the new row
    is inserted.  The statement fails when the name is NULL, or when a
    food refers to a deleted row whose id does not come back (foreign
    key of [foods]). *)
Definition replace_category (fs : list food) (row : category_csv_row)
    (cats : list (Z * string)) : option (list (Z * string)) :=
  match cc_id row, cc_description row with
  | Some id, Some name =>
      if existsb (λ c : Z * string,
                    bool_decide (c.2 = name ∧ c.1 ≠ id
                                 ∧ c.1 ∈ f_category_id <$> fs)) cats
      then None
      else Some (insert_by_id (id, name)
                   (filter (λ c : Z * string, c.1 ≠ id ∧ c.2 ≠ name) cats))
  | _, _ => None
  end.

(** The row of the table a row of the file stands for, when its values
    can be bound. *)
Definition category_of_row (row : category_csv_row) : option (Z * string) :=
  match cc_id row, cc_description row with
  | Some id, Some name => Some (id, name)
  | _, _ => None
  end.

(** The method: every row in its own try/except, a commit, then
    [_build_category_mappings], which reads the table back. *)
Definition create_food_categories (rows : list category_csv_row) (d : db)
  : db * mappings :=
  let cats :=
    foldl (λ cats row, default cats (replace_category (foods d) row cats))
          (food_categories d) rows in
  (set_food_categories cats d, build_category_mappings cats).

(** The rows are in increasing order of id. *)
Fixpoint sorted_by_id (cats : list (Z * string)) : Prop :=
  match cats with
  | [] => True
  | c :: cats' => Forall (λ x, (c.1 < x.1)%Z) cats' ∧ sorted_by_id cats'
  end.

(** The constraints of the schema on [food_categories] and the foreign
    key of [foods]. *)
Definition categories_ok (fs : list food) (cats : list (Z * string)) : Prop :=
  NoDup cats.*1 ∧ NoDup cats.*2
  ∧ ∀ f, f ∈ fs → f_category_id f ∈ cats.*1.

(** ** main *)

(** The script: the facts are imported only when [food_nutrients] is
    empty, then the portions; an exception ends the script. *)
Definition main_with (batch_size checkpoint_interval : nat)
    (rows : list fact_row) (portion_rows : list portion_row) (s : store)
  : outcome store :=
  let d := tables s in
  let imported :=
    if (length (map_to_list (food_nutrients d)) =? 0)%nat
    then import_nutrient_data_with batch_size checkpoint_interval rows d
    else Done d in
  match imported with
  | Raised d' => Raised (mk_store d' (common_portions s) (portions_seq s))
  | Done d' =>
      import_portions portion_rows
        (mk_store d' (common_portions s) (portions_seq s))
  end.

Definition main (rows : list fact_row) (portion_rows : list portion_row)
    (s : store) : outcome store :=
  main_with batch_size checkpoint_interval rows portion_rows s.

(** Sample files of the two dimension tables. *)
Definition sample_nutrient_rows : list nutrient_csv_row :=
  [mk_nutrient_csv_row (Some 1003%Z) (Some "Protein") (Some "G")
                       (Numeric 600);
   mk_nutrient_csv_row (Some 1003%Z) (Some "Protein, again") (Some "G") Null;
   mk_nutrient_csv_row (Some 1079%Z) None (Some "G") Null;
   mk_nutrient_csv_row (Some 1079%Z) (Some "Fiber, total dietary")
                       (Some "G") (Numeric 1200)].

Definition sample_category_rows : list category_csv_row :=
  [mk_category_csv_row (Some 1%Z) (Some "Dairy and Egg Products");
   mk_category_csv_row (Some 9%Z) (Some "Fruits and Fruit Juices");
   mk_category_csv_row None (Some "Broken")].

(** ** The density pass in IEEE arithmetic *)

(** SQLite holds a REAL as an IEEE binary64 value and evaluates the
    arithmetic of a statement in that format, one operation after the
    other; an operation whose result is a NaN gives NULL.  This
    section is the density SELECT of [calculate_density_scores] read
    that way, on the six columns of [common_nutrients_mv] it uses. *)
Record mv_reals := mk_mv_reals {
  calories_r : option float;
  protein_r : option float;
  fiber_r : option float;
  vitamin_c_r : option float;
  iron_r : option float;
  calcium_r : option float
}.

Record density_reals := mk_density_reals {
  total_score_r : option float;
  nutrient_completeness_r : float;
  calories_per_100g_r : float;
  category_scores_r : list (string * float)
}.

(** [COALESCE(x, 0)] *)
Definition coalesce_r (o : option float) : float := default 0%float o.

(** [CASE WHEN x > 0 THEN 1 ELSE 0 END] *)
Definition positive_flag_r (o : option float) : Z :=
  match o with
  | Some x => if (0 <? x)%float then 1%Z else 0%Z
  | None => 0%Z
  end.

(** An INTEGER operand of a REAL operation (here between 0 and 5). *)
Definition real_of_Z (z : Z) : float := PrimFloat.of_uint63 (Uint63.of_Z z).

(** The result of REAL arithmetic as a column value. *)
Definition sql_real (x : float) : option float :=
  if PrimFloat.is_nan x then None else Some x.

(** One row of the density SELECT. *)
Definition density_of_real (cn : mv_reals) : density_reals :=
  mk_density_reals
    (sql_real
       ((coalesce_r (protein_r cn) / 50 + coalesce_r (fiber_r cn) / 25
         + coalesce_r (vitamin_c_r cn) / 90 + coalesce_r (iron_r cn) / 18
         + coalesce_r (calcium_r cn) / 1000) / 5 * 100)%float)
    (real_of_Z (positive_flag_r (protein_r cn) + positive_flag_r (fiber_r cn)
                + positive_flag_r (vitamin_c_r cn)
                + positive_flag_r (iron_r cn)
                + positive_flag_r (calcium_r cn)) / 5)%float
    (coalesce_r (calories_r cn))
    [("protein", coalesce_r (protein_r cn));
     ("fiber", coalesce_r (fiber_r cn));
     ("vitamin_c", coalesce_r (vitamin_c_r cn));
     ("iron", coalesce_r (iron_r cn));
     ("calcium", coalesce_r (calcium_r cn))].

(** DELETE, then INSERT ... SELECT ... FROM common_nutrients_mv. *)
Definition calculate_density_scores_real (mv : gmap Z mv_reals)
  : gmap Z density_reals :=
  density_of_real <$> mv.

(** The number of components that are > 0. *)
Definition count_positive_r (l : list (option float)) : nat :=
  length (List.filter (λ o, match o with
                            | Some x => (0 <? x)%float
                            | None => false
                            end) l).

(** The row of the spec's density example. *)
Definition example_mv_reals : mv_reals :=
  mk_mv_reals (Some 403%float) (Some 25%float) (Some 5%float)
              (Some 45%float) (Some 9%float) (Some 500%float).

(** ** The importer from a given offset *)

Section Importer_at.
Variables (batch_size checkpoint_interval : nat).
Variable rows : list fact_row.


End Importer_at.

(** ** The timestamp column of the checkpoint log *)

(** A row of [import_checkpoint] with its [timestamp]:
    [DEFAULT CURRENT_TIMESTAMP] stores the second of the INSERT. *)
Abbreviation stamped := (checkpoint * nat)%type.

(** [ORDER BY timestamp DESC]: rows with equal timestamps stay in the
    order of the scan, which is the order of insertion. *)
Fixpoint insert_desc (ct : stamped) (l : list stamped) : list stamped :=
  match l with
  | [] => [ct]
  | x :: l' =>
      if (x.2 <=? ct.2)%nat then ct :: x :: l' else x :: insert_desc ct l'
  end.

Definition order_by_timestamp_desc (l : list stamped) : list stamped :=
  foldr insert_desc [] l.

(** [SELECT last_processed FROM import_checkpoint WHERE table_name =
     'food_nutrients' AND status = 'in_progress' ORDER BY timestamp DESC
     LIMIT 1] *)
Definition select_checkpoint (tlog : list stamped) : option checkpoint :=
  fst <$> head (order_by_timestamp_desc
                  (filter (λ ct : stamped, is_resume_point ct.1) tlog)).

(** [start_position = checkpoint[0] if checkpoint else 0] *)
Definition start_position_at (tlog : list stamped) : nat :=
  match select_checkpoint tlog with
  | Some c => last_processed c
  | None => 0
  end.


(** Row [i] of the table is the row the SELECT returns: an in-progress
    row of the fact table; every other such row has a smaller
    timestamp, or the same timestamp and was inserted later. *)
Definition selected_row (tlog : list stamped) (i : nat) (c : checkpoint)
  : Prop :=
  ∃ t, tlog !! i = Some (c, t) ∧ is_resume_point c ∧
    ∀ j c' t', tlog !! j = Some (c', t') → is_resume_point c' →
      t' < t ∨ (t' = t ∧ i ≤ j).

(** The timestamps of the in-progress rows increase strictly with the
    order of insertion. *)
Definition distinct_seconds (tlog : list stamped) : Prop :=
  ∀ i j c t c' t', i < j →
    tlog !! i = Some (c, t) → tlog !! j = Some (c', t') →
    is_resume_point c → is_resume_point c' → t < t'.

(** ** Aborted runs *)

(** The fact table of the open transaction holds the facts of the
    first [k] rows of the file, where [k] is 0 or an offset that this
    run has logged. *)
Definition flushed_prefix (d : db) (rows : list fact_row)
    (st : run_state) : Prop :=
  ∃ new k, w_log st = import_checkpoint d ++ new
    ∧ Forall progress_row new
    ∧ (k = 0 ∨ ∃ c, c ∈ new ∧ last_processed c = k)
    ∧ view_agrees (foods d) rows k ∅ (w_fn st).

(** What an aborted run of the fact importer leaves on disk: the
    dimension tables as they were, the log it found followed by
    in-progress rows only, and in [food_nutrients] the facts of the
    first [k] rows of the file, [k] being 0 or one of the offsets
    logged by the run. *)
Definition aborted_with_progress (d : db) (rows : list fact_row)
    (d' : db) : Prop :=
  food_categories d' = food_categories d ∧
  foods d' = foods d ∧ nutrients d' = nutrients d ∧
  ∃ new k, import_checkpoint d' = import_checkpoint d ++ new
    ∧ Forall progress_row new
    ∧ (k = 0 ∨ ∃ c, c ∈ new ∧ last_processed c = k)
    ∧ ∀ fid nid v,
        food_nutrients d' !! (fid, nid) = Some v ↔
        ∃ f a, f ∈ foods d ∧ f_id f = fid
               ∧ last_amount (f_fdc_id f, nid) (take k rows) = Some a
               ∧ v = mk_fact a 1.

(** ** Food imports on a database with portions *)

(** A row of [common_portions] refers to a row of [foods]. *)
Definition portion_refers_food (s : store) : Prop :=
  Exists (λ p, p_food_id p ∈ f_id <$> foods (tables s)) (common_portions s).

Definition outcome_store (o : outcome store) : store :=
  match o with
  | Done s | Raised s => s
  end.

(** ** Sample checkpoint tables *)




(** The foreign key of [common_portions]: every portion refers to a
    food. *)
Definition portions_fk (s : store) : Prop :=
  ∀ p, p ∈ common_portions s → p_food_id p ∈ f_id <$> foods (tables s).

(** The constraints of the schema that involve [foods]: its primary
    key and UNIQUE fdc_id, its foreign key on the category, its ids
    handed out by the AUTOINCREMENT sequence, and the foreign key of
    [common_portions]. *)
Definition store_ok (s : store) : Prop :=
  foods_wf (foods (tables s))
  ∧ (∀ f, f ∈ foods (tables s) →
       f_category_id f ∈ (food_categories (tables s)).*1
       ∧ (f_id f ≤ foods_seq (tables s))%Z)
  ∧ portions_fk s.

(** A category cell whose text, if it is one, is plain: ASCII
    characters only, on which this model of [str.strip], [str.isdigit]
    and [int] is exact, and no more than 4300 of them, the length up
    to which [int] converts a string of digits. *)
Definition plain_label (c : pl_cell) : Prop :=
  match c with
  | PStr s =>
      all_chars (λ a, (nat_of_ascii a <? 128)%nat) s = true
      ∧ String.length s ≤ 4300
  | _ => True
  end.

(** * Proofs *)

(** ** Lists, ranges and slices *)

Lemma or_else_assoc {A} (x y z : option A) :
  or_else x (or_else y z) = or_else (or_else x y) z.
Proof. by destruct x. Qed.

Lemma or_else_None_r {A} (x : option A) : or_else x None = x.
Proof. by destruct x. Qed.

Lemma take_add_drop {A} (l : list A) (i n : nat) :
  take (i + n) l = take i l ++ take n (drop i l).
Proof.
  revert l; induction i as [|i IH]; intros [|x l]; simpl; try done.
  - by rewrite take_nil.
  - by rewrite IH.
Qed.

Lemma take_length_take {A} (l : list A) (n : nat) :
  take (length (take n l)) l = take n l.
Proof.
  revert l; induction n as [|n IH]; intros [|x l]; simpl; try done.
  by rewrite IH.
Qed.

Lemma slice_length {A} (l : list A) (i n : nat) :
  length (slice l i n) = n `min` (length l - i).
Proof. unfold slice. by rewrite length_take, length_drop. Qed.

Lemma take_slice {A} (l : list A) (i n : nat) :
  take (i + length (slice l i n)) l = take i l ++ slice l i n.
Proof. rewrite take_add_drop. unfold slice. by rewrite take_length_take. Qed.

Lemma for_each_take_Done {I A} (body : I → A → outcome A) xs j a a' :
  for_each body xs a = Done a' →
  ∃ a'', for_each body (take j xs) a = Done a''.
Proof.
  revert j a; induction xs as [|x xs IH]; intros [|j] a; simpl; eauto.
  destruct (body x a); simpl; [eauto | done].
Qed.

Lemma range_aux_length_le fuel i stop step :
  length (range_aux fuel i stop step) ≤ fuel.
Proof.
  revert i; induction fuel as [|fuel IH]; intros i; simpl; [lia|].
  destruct (i <? stop); simpl; [specialize (IH (i + step)) |]; lia.
Qed.

(** ** Staging, flushing and reloading *)

Lemma last_amount_app k l1 l2 :
  last_amount k (l1 ++ l2) = or_else (last_amount k l2) (last_amount k l1).
Proof.
  induction l1 as [|r l1 IH]; simpl.
  - by rewrite or_else_None_r.
  - by rewrite IH, or_else_assoc.
Qed.

Lemma last_amount_app_None k l1 l2 :
  last_amount k (l1 ++ l2) = None →
  last_amount k l1 = None ∧ last_amount k l2 = None.
Proof.
  rewrite last_amount_app. destruct (last_amount k l2); simpl; [done|].
  by intros ->.
Qed.

Lemma last_amount_Some_elem k rows a :
  last_amount k rows = Some a →
  ∃ r, r ∈ rows ∧ row_key r = k ∧ fr_amount r = Numeric a.
Proof.
  induction rows as [|r rows IH]; simpl; [done|].
  destruct (last_amount k rows) as [a'|]; simpl.
  - intros [= ->]. destruct IH as (r' & ? & ? & ?); [done|].
    exists r'. by rewrite elem_of_cons; auto.
  - case_decide; [|done]. destruct (fr_amount r) eqn:E; simpl; try done.
    intros [= ->]. exists r. rewrite elem_of_cons. auto.
Qed.

Lemma stage_lookup batch vs temp k :
  batch_values batch = Some vs →
  stage vs temp !! k = or_else (last_amount k batch) (temp !! k).
Proof.
  revert vs temp; induction batch as [|r batch IH]; intros vs temp; simpl.
  - by intros [= <-].
  - destruct (fr_amount r) as [|q|s] eqn:E; simpl.
    + intros Hvs. rewrite (IH _ _ Hvs).
      destruct (last_amount k batch); simpl; [done|]. by case_decide.
    + destruct (batch_values batch) as [vs'|]; [|done]. intros [= <-].
      unfold stage in *; simpl. rewrite (IH vs' _ eq_refl).
      destruct (last_amount k batch); simpl; [done|].
      unfold row_key. case_decide as Hk.
      * rewrite Hk. by rewrite lookup_insert_eq.
      * by rewrite lookup_insert_ne.
    + done.
Qed.

(** A file whose batch converts has no non-numeric amount in it. *)
Lemma batch_values_Some batch vs :
  batch_values batch = Some vs →
  ∀ r, r ∈ batch → numeric_or_null (fr_amount r).
Proof.
  revert vs; induction batch as [|r batch IH]; intros vs; simpl.
  - intros _ r Hr. by apply elem_of_nil in Hr.
  - intros Hvs r' Hr'. apply elem_of_cons in Hr' as [->|Hr'].
    + destruct (fr_amount r); simpl in *; done.
    + destruct (is_null (fr_amount r)); [by eapply IH|].
      destruct (py_float (fr_amount r)); [|done].
      destruct (batch_values batch); [|done]. by eapply IH.
Qed.

Lemma batch_values_total batch :
  (∀ r, r ∈ batch → numeric_or_null (fr_amount r)) →
  ∃ vs, batch_values batch = Some vs.
Proof.
  induction batch as [|r batch IH]; intros Hok; simpl; [eauto|].
  destruct IH as [vs Hvs].
  { intros r' Hr'. apply Hok. by right. }
  pose proof (Hok r (list_elem_of_here _ _)) as Hr.
  destruct (fr_amount r); simpl in *; rewrite ?Hvs; eauto. done.
Qed.

(** [INSERT OR REPLACE] of rows that agree on equal keys. *)
Lemma insert_or_replace_notin {K V} `{Countable K}
    (rows : list (K * V)) (m : gmap K V) k :
  (∀ v, (k, v) ∉ rows) → insert_or_replace rows m !! k = m !! k.
Proof.
  unfold insert_or_replace.
  revert m; induction rows as [|[k' v'] rows IH]; intros m Hk; simpl; [done|].
  rewrite IH.
  - rewrite lookup_insert_ne; [done|]. intros ->. apply (Hk v'). by left.
  - intros v Hv. apply (Hk v). by right.
Qed.

Lemma insert_or_replace_in {K V} `{Countable K}
    (rows : list (K * V)) (m : gmap K V) k v :
  (∀ v', (k, v') ∈ rows → v' = v) → (k, v) ∈ rows →
  insert_or_replace rows m !! k = Some v.
Proof.
  unfold insert_or_replace.
  revert m; induction rows as [|[k' v'] rows IH]; intros m Hfun Hin; simpl.
  - by apply elem_of_nil in Hin.
  - destruct (decide (k ∈ rows.*1)) as [Hk|Hno].
    + apply list_elem_of_fmap in Hk as ([k2 v2] & -> & Hv2); simpl in *.
      apply IH.
      * intros v3 Hv3. apply Hfun. by right.
      * assert (v2 = v) as <- by (apply Hfun; by right). done.
    + assert (∀ v3, (k, v3) ∉ rows) as Hno'.
      { intros v3 Hv3. apply Hno. apply list_elem_of_fmap. by exists (k, v3). }
      apply elem_of_cons in Hin as [[= <- <-]|Hin]; [|by destruct (Hno' v)].
      pose proof (insert_or_replace_notin rows (<[k:=v]> m) k Hno') as Hn.
      unfold insert_or_replace in Hn. simpl. rewrite Hn.
      by rewrite lookup_insert_eq.
Qed.

Lemma elem_of_staged_join fs temp fid nid v :
  ((fid, nid), v) ∈ staged_join fs temp ↔
  ∃ f a, f ∈ fs ∧ f_id f = fid ∧ temp !! (f_fdc_id f, nid) = Some a
         ∧ v = imported a.
Proof.
  unfold staged_join. rewrite list_elem_of_bind. split.
  - intros ([[fdc n] a] & Hf & Ht). simpl in *.
    apply list_elem_of_fmap in Hf as (f & [= -> -> ->] & Hf).
    apply list_elem_of_filter in Hf as [Hfdc Hf].
    apply elem_of_map_to_list in Ht. rewrite <- Hfdc in Ht. by exists f, a.
  - intros (f & a & Hf & <- & Ht & ->).
    exists ((f_fdc_id f, nid), a). split.
    + apply list_elem_of_fmap. exists f. split; [done|].
      by apply list_elem_of_filter.
    + by apply elem_of_map_to_list.
Qed.

Lemma food_by_id_unique fs f1 f2 :
  NoDup (f_id <$> fs) → f1 ∈ fs → f2 ∈ fs → f_id f1 = f_id f2 → f1 = f2.
Proof.
  induction fs as [|f fs IH]; simpl; intros Hnd H1 H2 Heq.
  - by apply elem_of_nil in H1.
  - apply NoDup_cons in Hnd as [Hnotin Hnd].
    apply elem_of_cons in H1 as [->|H1]; apply elem_of_cons in H2 as [->|H2];
      try done.
    + destruct Hnotin. rewrite Heq. by apply list_elem_of_fmap_2.
    + destruct Hnotin. rewrite <- Heq. by apply list_elem_of_fmap_2.
    + by apply IH.
Qed.

Lemma food_by_fdc_unique fs f1 f2 :
  NoDup (f_fdc_id <$> fs) → f1 ∈ fs → f2 ∈ fs →
  f_fdc_id f1 = f_fdc_id f2 → f1 = f2.
Proof.
  induction fs as [|f fs IH]; simpl; intros Hnd H1 H2 Heq.
  - by apply elem_of_nil in H1.
  - apply NoDup_cons in Hnd as [Hnotin Hnd].
    apply elem_of_cons in H1 as [->|H1]; apply elem_of_cons in H2 as [->|H2];
      try done.
    + destruct Hnotin. rewrite Heq. by apply list_elem_of_fmap_2.
    + destruct Hnotin. rewrite <- Heq. by apply list_elem_of_fmap_2.
    + by apply IH.
Qed.

(** The table after a flush, row by row. *)
Lemma flush_lookup_food fs ns temp fn fn' f nid :
  NoDup (f_id <$> fs) → f ∈ fs →
  flush fs ns temp fn = Some fn' →
  fn' !! (f_id f, nid)
  = or_else (imported <$> temp !! (f_fdc_id f, nid)) (fn !! (f_id f, nid)).
Proof.
  intros Hnd Hf. unfold flush.
  destruct (forallb _ _); [|done]. intros [= <-].
  destruct (temp !! (f_fdc_id f, nid)) as [a|] eqn:Ht; simpl.
  - apply insert_or_replace_in.
    + intros v' (f' & a' & Hf' & Hid & Ht' & ->)%elem_of_staged_join.
      assert (f' = f) as -> by by eapply food_by_id_unique.
      congruence.
    + apply elem_of_staged_join. by exists f, a.
  - apply insert_or_replace_notin.
    intros v (f' & a' & Hf' & Hid & Ht' & ->)%elem_of_staged_join.
    assert (f' = f) as -> by by eapply food_by_id_unique.
    congruence.
Qed.

Lemma flush_lookup_other fs ns temp fn fn' fid nid :
  (∀ f, f ∈ fs → f_id f ≠ fid) →
  flush fs ns temp fn = Some fn' →
  fn' !! (fid, nid) = fn !! (fid, nid).
Proof.
  intros Hno. unfold flush.
  destruct (forallb _ _); [|done]. intros [= <-].
  apply insert_or_replace_notin.
  intros v (f' & a' & Hf' & Hid & _)%elem_of_staged_join.
  by eapply Hno.
Qed.

(** A flush succeeds exactly when the staged rows of known foods name
    known nutrients. *)
Lemma flush_is_Some fs ns temp fn :
  temp_valid fs ns temp ↔ is_Some (flush fs ns temp fn).
Proof.
  unfold flush, temp_valid. split.
  - intros Hv. destruct (forallb _ _) eqn:E; [eauto|].
    apply not_true_iff_false in E. destruct E.
    apply forallb_forall. intros [[fid nid] v] Hin%list_elem_of_In.
    apply elem_of_staged_join in Hin as (f & a & Hf & <- & Ht & ->).
    unfold nutrient_fk; simpl. apply bool_decide_eq_true.
    eapply Hv; [by rewrite Ht|]. by apply list_elem_of_fmap_2.
  - destruct (forallb _ _) eqn:E; [|by intros [? ?]].
    intros _ fdc nid [a Ha] (f & -> & Hf)%list_elem_of_fmap.
    rewrite forallb_forall in E.
    specialize (E ((f_id f, nid), imported a)).
    unfold nutrient_fk in E; simpl in E.
    apply bool_decide_eq_true in E; [done|].
    apply list_elem_of_In, elem_of_staged_join. by exists f, a.
Qed.

(** Plain INSERT of rows with pairwise different keys into a table
    that has none of them. *)
Lemma insert_strict_NoDup {K V} `{Countable K}
    (rows : list (K * V)) (m : gmap K V) :
  NoDup rows.*1 → (∀ k, k ∈ rows.*1 → m !! k = None) →
  ∃ m', insert_strict rows m = Some m' ∧
        ∀ k v, m' !! k = Some v ↔ (k, v) ∈ rows ∨ m !! k = Some v.
Proof.
  revert m; induction rows as [|[k0 v0] rows IH]; intros m Hnd Hfresh; simpl.
  - exists m. split; [done|]. intros k v. rewrite elem_of_nil. tauto.
  - apply NoDup_cons in Hnd as [Hk0 Hnd].
    rewrite (Hfresh k0) by (simpl; left).
    destruct (IH (<[k0:=v0]> m) Hnd) as (m' & -> & Hm').
    { intros k Hk. rewrite lookup_insert_ne; [|by intros ->].
      apply Hfresh. by right. }
    exists m'. split; [done|]. intros k v. rewrite Hm', elem_of_cons.
    destruct (decide (k = k0)) as [->|Hne].
    + rewrite lookup_insert_eq, (Hfresh k0) by (simpl; left).
      split.
      * intros [?|[= ->]]; auto.
      * intros [[[= ->]|?]|?]; auto. done.
    + rewrite lookup_insert_ne by done.
      split.
      * intros [?|?]; auto.
      * intros [[[= -> ->]|?]|?]; auto. done.
Qed.

Lemma elem_of_reload_join fs fn fdc nid a :
  ((fdc, nid), a) ∈ reload_join fs fn ↔
  ∃ f r, f ∈ fs ∧ f_fdc_id f = fdc ∧ fn !! (f_id f, nid) = Some r
         ∧ a = amount r.
Proof.
  unfold reload_join. rewrite list_elem_of_bind. split.
  - intros ([[fid n] r] & Hf & Hr). simpl in *.
    apply list_elem_of_fmap in Hf as (f & [= -> -> ->] & Hf).
    apply list_elem_of_filter in Hf as [Hid Hf].
    apply elem_of_map_to_list in Hr. rewrite <- Hid in Hr. by exists f, r.
  - intros (f & r & Hf & <- & Hr & ->).
    exists ((f_id f, nid), r). split.
    + apply list_elem_of_fmap. exists f. split; [done|].
      by apply list_elem_of_filter.
    + by apply elem_of_map_to_list.
Qed.

Lemma reload_join_NoDup fs fn :
  foods_wf fs → NoDup (reload_join fs fn).*1.
Proof.
  intros [Hid Hfdc]. apply NoDup_fmap_fst.
  - intros [fdc nid] a1 a2
      (f1 & r1 & Hf1 & E1 & Hr1 & ->)%elem_of_reload_join
      (f2 & r2 & Hf2 & E2 & Hr2 & ->)%elem_of_reload_join.
    assert (f1 = f2) as -> by (eapply food_by_fdc_unique; eauto; congruence).
    congruence.
  - unfold reload_join. apply NoDup_bind.
    + intros [[i1 n1] r1] [[i2 n2] r2] y H1 H2 Hy1 Hy2; simpl in *.
      apply list_elem_of_fmap in Hy1 as (f1 & -> & Hf1).
      apply list_elem_of_fmap in Hy2 as (f2 & [= E1 E2 E3] & Hf2).
      apply list_elem_of_filter in Hf1 as [<- Hf1].
      apply list_elem_of_filter in Hf2 as [<- Hf2].
      assert (f1 = f2) as -> by by eapply food_by_fdc_unique.
      subst n2. apply elem_of_map_to_list in H1, H2. congruence.
    + intros [[i n] r] _; simpl.
      apply NoDup_fmap_2_strong.
      * intros f1 f2 [_ Hf1]%list_elem_of_filter [_ Hf2]%list_elem_of_filter
          [= E].
        by eapply food_by_fdc_unique.
      * apply NoDup_filter. by eapply NoDup_fmap_1.
    + apply NoDup_map_to_list.
Qed.

(** The temporary table after the reload of a resumed run. *)
Lemma reload_lookup fs fn :
  foods_wf fs →
  ∃ temp, reload fs fn = Some temp ∧
    ∀ fdc nid a, temp !! (fdc, nid) = Some a ↔
      ∃ f r, f ∈ fs ∧ f_fdc_id f = fdc ∧ fn !! (f_id f, nid) = Some r
             ∧ a = amount r.
Proof.
  intros Hwf. unfold reload.
  destruct (insert_strict_NoDup (reload_join fs fn) ∅) as (temp & -> & Ht).
  - by apply reload_join_NoDup.
  - intros k _. apply lookup_empty.
  - exists temp. split; [done|]. intros fdc nid a.
    rewrite Ht, lookup_empty, <- elem_of_reload_join.
    split; [by intros [?|?] | auto].
Qed.

(** ** The batch loop *)

Lemma view_agrees_ext fs rows1 rows2 p1 p2 m1 m2 :
  (∀ k, last_amount k (take p1 rows1) = last_amount k (take p2 rows2)) →
  view_agrees fs rows1 p1 ∅ m1 → view_agrees fs rows2 p2 ∅ m2 → m1 = m2.
Proof.
  intros Heq [H1 H1'] [H2 H2']. apply map_eq. intros [fid nid].
  destruct (decide (fid ∈ f_id <$> fs)) as [Hin|Hout].
  - apply list_elem_of_fmap in Hin as (f & -> & Hf).
    specialize (H1 f nid Hf). specialize (H2 f nid Hf).
    rewrite lookup_empty in H1, H2. simpl in *. rewrite Heq in H1. congruence.
  - assert (∀ f, f ∈ fs → f_id f ≠ fid) as Hno.
    { intros f Hf <-. apply Hout. by apply list_elem_of_fmap_2. }
    by rewrite H1', H2'.
Qed.

Lemma view_agrees_unique fs rows p m1 m2 :
  view_agrees fs rows p ∅ m1 → view_agrees fs rows p ∅ m2 → m1 = m2.
Proof. by apply view_agrees_ext. Qed.

Lemma view_agrees_lookup fs rows p m fid nid v :
  view_agrees fs rows p ∅ m →
  m !! (fid, nid) = Some v ↔
  ∃ f a, f ∈ fs ∧ f_id f = fid
         ∧ last_amount (f_fdc_id f, nid) (take p rows) = Some a
         ∧ v = imported a.
Proof.
  intros [H1 H2]. split.
  - intros Hm. destruct (decide (fid ∈ f_id <$> fs)) as [Hin|Hout].
    + apply list_elem_of_fmap in Hin as (f & -> & Hf).
      specialize (H1 f nid Hf). rewrite lookup_empty, Hm in H1. simpl in H1.
      destruct (last_amount _ _) as [a|] eqn:E; [|done].
      exists f, a. by injection H1 as ->.
    + rewrite H2 in Hm; [done|].
      intros f Hf <-. apply Hout. by apply list_elem_of_fmap_2.
  - intros (f & a & Hf & <- & Hl & ->).
    specialize (H1 f nid Hf). rewrite lookup_empty, Hl in H1. done.
Qed.

Section Importer_proofs.
Variables (batch_size checkpoint_interval : nat).
Variable rows : list fact_row.
Variable d : db.
Hypothesis batch_size_pos : 0 < batch_size.
Hypothesis foods_pk : NoDup (f_id <$> foods d).

Local Abbreviation Nrows := (total_rows rows).
Local Abbreviation body :=
  (import_batch batch_size checkpoint_interval rows d).
Local Abbreviation batch_at i := (slice rows i (min (i + batch_size) Nrows)).

Lemma batch_at_length i :
  i < Nrows → 0 < length (batch_at i) ∧ i + length (batch_at i) ≤ Nrows
          ∧ (i + batch_size) `min` Nrows ≤ i + length (batch_at i).
Proof. rewrite slice_length. unfold total_rows. lia. Qed.

Lemma batch_at_length_le i : i + length (batch_at i) ≤ 2 * i + batch_size.
Proof. rewrite slice_length. lia. Qed.

(** Invariant rule for the loop: [p] is the number of leading rows of
    the file that have been staged so far. *)
Lemma batch_loop_rule (Inv : nat → run_state → Prop) :
  (∀ i st st' p, i < Nrows → i ≤ p ≤ Nrows `min` (2 * i + batch_size) →
     Inv p st → body i st = Done st' →
     Inv (i + length (batch_at i)) st') →
  ∀ fuel j i st st' p,
    Nrows - i ≤ fuel → i `min` Nrows ≤ p ≤ Nrows `min` (2 * i + batch_size) →
    Inv p st →
    for_each body (take j (range_aux fuel i Nrows batch_size)) st = Done st' →
    ∃ p', p' ≤ Nrows ∧ Inv p' st' ∧
          (length (range_aux fuel i Nrows batch_size) ≤ j → p' = Nrows).
Proof.
  intros Hstep. induction fuel as [|fuel IH]; intros j i st st' p Hf Hp HI.
  - simpl. rewrite take_nil. simpl. intros [= <-]. exists p.
    split; [lia|]. split; [done|]. intros _. lia.
  - simpl. destruct (Nat.ltb_spec i Nrows) as [Hlt|Hge].
    + destruct j as [|j]; simpl.
      * intros [= <-]. exists p. split; [lia|]. split; [done|]. lia.
      * destruct (body i st) as [st1|st1] eqn:E; simpl; [|done].
        intros Hrest.
        pose proof (batch_at_length i Hlt) as (Hpos & Hle & Hmin).
        pose proof (batch_at_length_le i) as Hle2.
        destruct (IH j (i + batch_size) st1 st'
                     (i + length (batch_at i))) as (p' & ? & ? & Hfull);
          [lia | lia | | done |].
        { eapply Hstep; [done| |done|done]. lia. }
        exists p'. split; [done|]. split; [done|]. intros ?. apply Hfull. lia.
    + rewrite take_nil. simpl. intros [= <-]. exists p.
      split; [lia|]. split; [done|]. intros _. lia.
Qed.

(** *** What the tables hold *)

Lemma stage_view i st vs p :
  i ≤ p ≤ Nrows `min` (2 * i + batch_size) →
  batch_values (batch_at i) = Some vs →
  view_agrees (foods d) rows p (w_temp st) (w_fn st) →
  view_agrees (foods d) rows (i + length (batch_at i))
              (stage vs (w_temp st)) (w_fn st).
Proof.
  intros Hp Hvs [Hv Ho]. split; [|done].
  intros f nid Hf. rewrite take_slice, last_amount_app.
  rewrite (stage_lookup _ _ _ _ Hvs).
  destruct (last_amount _ (batch_at i)) as [a|] eqn:E; simpl; [done|].
  rewrite (Hv f nid Hf). f_equal.
  replace p with (i + (p - i)) by lia.
  rewrite take_add_drop, last_amount_app.
  assert (last_amount (f_fdc_id f, nid) (take (p - i) (drop i rows)) = None)
    as ->; [|done].
  unfold slice in E.
  rewrite <- (take_drop (p - i) (take _ (drop i rows))) in E.
  apply last_amount_app_None in E as [E _].
  rewrite take_take in E.
  by rewrite (Nat.min_l (p - i) ((i + batch_size) `min` Nrows)) in E by lia.
Qed.

Lemma flush_view st p temp fn' :
  view_agrees (foods d) rows p temp (w_fn st) →
  flush (foods d) (nutrients d) temp (w_fn st) = Some fn' →
  view_agrees (foods d) rows p ∅ fn'.
Proof.
  intros [Hv Ho] Hfl. split.
  - intros f nid Hf. rewrite lookup_empty. simpl.
    rewrite (flush_lookup_food _ _ _ _ _ _ _ foods_pk Hf Hfl). by apply Hv.
  - intros fid nid Hno. rewrite (flush_lookup_other _ _ _ _ _ _ _ Hno Hfl).
    by apply Ho.
Qed.

Lemma import_batch_view i st st' p :
  i < Nrows → i ≤ p ≤ Nrows `min` (2 * i + batch_size) →
  view_agrees (foods d) rows p (w_temp st) (w_fn st) →
  body i st = Done st' →
  view_agrees (foods d) rows (i + length (batch_at i))
              (w_temp st') (w_fn st').
Proof.
  intros Hi Hp Hv. unfold import_batch.
  destruct (batch_values _) as [vs|] eqn:Hvs; [|done].
  pose proof (stage_view i st vs p Hp Hvs Hv) as Hv'.
  destruct (_ <? _).
  - destruct (flush _ _ _ _) as [fn'|] eqn:Hfl; [|done].
    intros [= <-]. simpl. by eapply flush_view.
  - by intros [= <-].
Qed.

(** *** What is on disk *)

Lemma latest_checkpoint_snoc log c :
  is_resume_point c → latest_checkpoint (log ++ [c]) = Some c.
Proof.
  intros Hc. unfold latest_checkpoint.
  rewrite filter_app, filter_cons_True, filter_nil by done.
  apply last_snoc.
Qed.

Lemma import_batch_disk i st st' p :
  i < Nrows → i ≤ p ≤ Nrows `min` (2 * i + batch_size) →
  view_agrees (foods d) rows p (w_temp st) (w_fn st) ∧ disk_inv d rows st →
  body i st = Done st' →
  view_agrees (foods d) rows (i + length (batch_at i))
              (w_temp st') (w_fn st') ∧ disk_inv d rows st'.
Proof.
  intros Hi Hp [Hv Hd] Hbody.
  pose proof (import_batch_view i st st' p Hi Hp Hv Hbody) as Hv'.
  split; [done|]. revert Hbody Hv'. unfold import_batch.
  destruct (batch_values _) as [vs|] eqn:Hvs; [|done].
  destruct (_ <? _).
  - destruct (flush _ _ _ _) as [fn'|] eqn:Hfl; [|done].
    intros [= <-]; simpl. intros Hv'. right. split; [done|].
    eexists. split; [by apply latest_checkpoint_snoc|]. simpl.
    pose proof (batch_at_length i Hi). unfold total_rows in *.
    split; [lia|done].
  - intros [= <-] _; simpl.
    destruct Hd as [[? ?]|(Hdisk & c & ? & ? & ?)]; [by left|right].
    split; [done|]. by exists c.
Qed.

(** *** Which files load *)

Lemma last_amount_is_Some r l q :
  r ∈ l → fr_amount r = Numeric q → is_Some (last_amount (row_key r) l).
Proof.
  induction l as [|r' l IH]; intros Hin Hq; [by apply elem_of_nil in Hin|].
  simpl. apply elem_of_cons in Hin as [<-|Hin].
  - destruct (last_amount _ l); simpl; [eauto|].
    rewrite decide_True by done. rewrite Hq. simpl. eauto.
  - destruct (IH Hin Hq) as [a ->]. simpl. eauto.
Qed.

Lemma reaches_table_numeric fs r :
  numeric_or_null (fr_amount r) → reaches_table fs r →
  ∃ q, fr_amount r = Numeric q.
Proof. intros Hn [Hnull _]. destruct (fr_amount r); simpl in *; eauto; done. Qed.

Lemma import_batch_checked i st st' p :
  i < Nrows → i ≤ p ≤ Nrows `min` (2 * i + batch_size) →
  staged_or_valid (foods d) (nutrients d) rows p (w_temp st) →
  body i st = Done st' →
  staged_or_valid (foods d) (nutrients d) rows (i + length (batch_at i))
                  (w_temp st').
Proof.
  intros Hi Hp Hs. unfold import_batch.
  destruct (batch_values _) as [vs|] eqn:Hvs; [|done].
  assert (staged_or_valid (foods d) (nutrients d) rows
            (i + length (batch_at i)) (stage vs (w_temp st))) as Hs'.
  { intros r. rewrite take_slice, elem_of_app. intros [Hr|Hr].
    - destruct (Hs r) as [Hnum Hval].
      { replace p with (i + (p - i)) by lia.
        rewrite take_add_drop, elem_of_app. by left. }
      split; [done|]. intros Hreach.
      destruct (Hval Hreach) as [?|[a Ha]]; [by left|right].
      rewrite (stage_lookup _ _ _ _ Hvs), Ha.
      destruct (last_amount _ _); simpl; eauto.
    - pose proof (batch_values_Some _ _ Hvs r Hr) as Hnum.
      split; [done|]. intros Hreach. right.
      destruct (reaches_table_numeric _ _ Hnum Hreach) as [q Hq].
      rewrite (stage_lookup _ _ _ _ Hvs).
      destruct (last_amount_is_Some r _ q Hr Hq) as [a ->]. simpl. eauto. }
  destruct (_ <? _).
  - destruct (flush _ _ _ _) as [fn'|] eqn:Hfl; [|done].
    intros [= <-]; simpl.
    assert (temp_valid (foods d) (nutrients d) (stage vs (w_temp st)))
      as Htv by (eapply flush_is_Some; eauto).
    intros r Hr. destruct (Hs' r Hr) as [Hnum Hval]. split; [done|].
    intros Hreach. left.
    destruct (Hval Hreach) as [?|Hst]; [done|].
    destruct r as [fdc nid c]; unfold row_key in Hst; simpl in *.
    eapply Htv; [done|]. by destruct Hreach.
  - by intros [= <-].
Qed.

(** A step cannot raise on a loadable file. *)
Lemma stage_valid batch vs temp :
  (∀ r, r ∈ batch → r ∈ rows) →
  loadable (foods d) (nutrients d) rows →
  batch_values batch = Some vs →
  temp_valid (foods d) (nutrients d) temp →
  temp_valid (foods d) (nutrients d) (stage vs temp).
Proof.
  intros Hsub Hload Hvs Htv fdc nid [a Ha] Hfdc.
  rewrite (stage_lookup _ _ _ _ Hvs) in Ha.
  destruct (last_amount (fdc, nid) batch) as [a'|] eqn:E; simpl in Ha.
  - apply last_amount_Some_elem in E as (r & Hr & Hk & Hq).
    destruct (Hload r (Hsub r Hr)) as [_ Hval].
    injection Hk as <- <-. apply Hval. split; [by rewrite Hq|done].
  - eapply Htv; [by rewrite Ha|done].
Qed.

Lemma import_batch_total i st :
  loadable (foods d) (nutrients d) rows →
  temp_valid (foods d) (nutrients d) (w_temp st) →
  ∃ st', body i st = Done st' ∧
         temp_valid (foods d) (nutrients d) (w_temp st').
Proof.
  intros Hload Htv. unfold import_batch.
  assert (∀ r, r ∈ batch_at i → r ∈ rows) as Hsub.
  { intros r Hr. unfold slice in Hr.
    eapply elem_of_sublist; [|apply (sublist_drop rows i)].
    eapply elem_of_sublist; [done|apply sublist_take]. }
  destruct (batch_values_total (batch_at i)) as [vs Hvs].
  { intros r Hr. by apply (Hload r), Hsub. }
  rewrite Hvs.
  pose proof (stage_valid _ _ _ Hsub Hload Hvs Htv) as Htv'.
  destruct (_ <? _).
  - destruct (proj1 (flush_is_Some _ _ _ (w_fn st)) Htv') as [fn' ->].
    eexists. split; [done|]. simpl.
    intros fdc nid [a Ha]. by rewrite lookup_empty in Ha.
  - eexists. by split.
Qed.

Lemma for_each_total xs st :
  loadable (foods d) (nutrients d) rows →
  temp_valid (foods d) (nutrients d) (w_temp st) →
  ∃ st', for_each body xs st = Done st' ∧
         temp_valid (foods d) (nutrients d) (w_temp st').
Proof.
  intros Hload. revert st; induction xs as [|i xs IH]; intros st Htv; simpl.
  - eauto.
  - destruct (import_batch_total i st Hload Htv) as (st1 & -> & Htv1). simpl.
    by apply IH.
Qed.
End Importer_proofs.

(** ** Whole runs of the importer *)

Lemma no_in_progress_start log :
  no_in_progress log → latest_checkpoint log = None.
Proof.
  intros Hno. unfold latest_checkpoint.
  assert (filter is_resume_point log = []) as ->; [|done].
  induction log as [|c log IH]; [done|].
  rewrite filter_cons_False by (apply Hno; left).
  apply IH. intros c' Hc'. apply Hno. by right.
Qed.

Lemma view_agrees_initial fs rows :
  view_agrees fs rows 0 ∅ ∅.
Proof.
  split.
  - intros f nid _. by rewrite !lookup_empty.
  - intros. apply lookup_empty.
Qed.

Section Runs.
Variables (batch_size checkpoint_interval : nat).
Variable rows : list fact_row.
Hypothesis batch_size_pos : 0 < batch_size.

Local Abbreviation Nrows := (total_rows rows).
Local Abbreviation body d :=
  (import_batch batch_size checkpoint_interval rows d).
Local Abbreviation run := 
  (import_nutrient_data_with batch_size checkpoint_interval rows).

(** The loop, run to its end from offset [s] with [s] rows staged or
    flushed, leaves all [Nrows] rows staged or flushed. *)
Lemma loop_view d s st0 st :
  NoDup (f_id <$> foods d) → s ≤ Nrows →
  view_agrees (foods d) rows s (w_temp st0) (w_fn st0) →
  for_each (body d) (py_range s Nrows batch_size) st0 = Done st →
  view_agrees (foods d) rows Nrows (w_temp st) (w_fn st).
Proof.
  intros Hpk Hs Hv Hrun. unfold py_range in Hrun.
  rewrite <- (take_ge (range_aux _ _ _ _) (Nrows - s)) in Hrun
    by apply range_aux_length_le.
  destruct (batch_loop_rule batch_size checkpoint_interval rows d
              batch_size_pos
              (λ p st, view_agrees (foods d) rows p (w_temp st) (w_fn st))
              (import_batch_view _ _ _ _ batch_size_pos Hpk)
              (Nrows - s) (Nrows - s) s st0 st s) as (p' & _ & Hv' & Hfull);
    [lia|lia|done|done|].
  rewrite <- Hfull; [done|]. apply range_aux_length_le.
Qed.

Lemma loop_checked d s st0 st :
  s ≤ Nrows →
  staged_or_valid (foods d) (nutrients d) rows s (w_temp st0) →
  for_each (body d) (py_range s Nrows batch_size) st0 = Done st →
  staged_or_valid (foods d) (nutrients d) rows Nrows (w_temp st).
Proof.
  intros Hs Hv Hrun. unfold py_range in Hrun.
  rewrite <- (take_ge (range_aux _ _ _ _) (Nrows - s)) in Hrun
    by apply range_aux_length_le.
  destruct (batch_loop_rule batch_size checkpoint_interval rows d
              batch_size_pos
              (λ p st, staged_or_valid (foods d) (nutrients d) rows p
                                       (w_temp st))
              (import_batch_checked _ _ _ _ batch_size_pos)
              (Nrows - s) (Nrows - s) s st0 st s) as (p' & _ & Hv' & Hfull);
    [lia|lia|done|done|].
  rewrite <- Hfull; [done|]. apply range_aux_length_le.
Qed.

Lemma loop_disk d s j st0 st :
  NoDup (f_id <$> foods d) → s ≤ Nrows →
  view_agrees (foods d) rows s (w_temp st0) (w_fn st0) →
  disk_inv d rows st0 →
  for_each (body d) (take j (py_range s Nrows batch_size)) st0 = Done st →
  disk_inv d rows st.
Proof.
  intros Hpk Hs Hv Hd Hrun. unfold py_range in Hrun.
  destruct (batch_loop_rule batch_size checkpoint_interval rows d
              batch_size_pos
              (λ p st, view_agrees (foods d) rows p (w_temp st) (w_fn st)
                       ∧ disk_inv d rows st)
              (import_batch_disk _ _ _ _ batch_size_pos Hpk)
              (Nrows - s) j s st0 st s) as (p' & _ & [_ Hd'] & _);
    [lia|lia|done|done|done].
Qed.

(** A run that returns has loaded a loadable file. *)
Lemma finish_import_Done d st d' :
  NoDup (f_id <$> foods d) →
  view_agrees (foods d) rows Nrows (w_temp st) (w_fn st) →
  finish_import rows d st = Done d' →
  view_agrees (foods d) rows Nrows ∅ (food_nutrients d')
  ∧ temp_valid (foods d) (nutrients d) (w_temp st)
  ∧ foods d' = foods d ∧ nutrients d' = nutrients d
  ∧ import_checkpoint d'
    = w_log st ++ [mk_checkpoint fact_table Nrows Nrows completed].
Proof.
  intros Hpk Hv. unfold finish_import.
  destruct (flush _ _ _ _) as [fn'|] eqn:Hfl; [|done].
  intros [= <-]. simpl. split; [by eapply flush_view|].
  split; [|done]. eapply flush_is_Some. by rewrite Hfl.
Qed.

Lemma fresh_begin d :
  no_in_progress (import_checkpoint d) →
  start_position (import_checkpoint d) = 0 ∧
  begin_import d = Some (mk_run ∅ (import_checkpoint d) ∅ d).
Proof.
  intros Hno. unfold begin_import, start_position.
  by rewrite (no_in_progress_start _ Hno).
Qed.

Lemma fresh_run_Done d d' :
  NoDup (f_id <$> foods d) →
  no_in_progress (import_checkpoint d) →
  run d = Done d' →
  view_agrees (foods d) rows Nrows ∅ (food_nutrients d')
  ∧ loadable (foods d) (nutrients d) rows.
Proof.
  intros Hpk Hno. unfold import_nutrient_data_with, batch_offsets.
  destruct (fresh_begin d Hno) as [-> ->].
  destruct (for_each _ _ _) as [st|st] eqn:Hloop; [|done].
  intros Hfin.
  pose proof (loop_view d 0 (mk_run ∅ (import_checkpoint d) ∅ d) st Hpk
                (Nat.le_0_l _) (view_agrees_initial _ _) Hloop) as Hv.
  destruct (finish_import_Done d st d' Hpk Hv Hfin) as (Hv' & Htv & _).
  split; [done|].
  assert (staged_or_valid (foods d) (nutrients d) rows Nrows (w_temp st)) as Hs.
  { eapply (loop_checked d 0); [lia| |done].
    intros r Hr. by apply elem_of_nil in Hr. }
  intros r Hr. destruct (Hs r) as [Hnum Hval].
  { unfold total_rows. by rewrite take_ge. }
  split; [done|]. intros Hreach.
  destruct (Hval Hreach) as [?|Hst]; [done|].
  destruct r as [fdc nid c]; unfold row_key in Hst; simpl in *.
  eapply Htv; [done|]. by destruct Hreach.
Qed.

(** A run on a loadable file returns, from any state whose temporary
    table can be flushed. *)
Lemma run_from_total d st0 :
  loadable (foods d) (nutrients d) rows →
  temp_valid (foods d) (nutrients d) (w_temp st0) →
  begin_import d = Some st0 →
  ∃ st d', for_each (body d) (batch_offsets batch_size rows d) st0 = Done st
           ∧ run d = Done d' ∧ finish_import rows d st = Done d'.
Proof.
  intros Hload Htv Hbegin. unfold import_nutrient_data_with. rewrite Hbegin.
  destruct (for_each_total batch_size checkpoint_interval rows d
              (batch_offsets batch_size rows d) st0 Hload Htv)
    as (st & Hloop & Htv').
  rewrite Hloop. exists st. unfold finish_import.
  destruct (proj1 (flush_is_Some _ _ _ (w_fn st)) Htv') as [fn' ->].
  eauto.
Qed.

Lemma temp_valid_empty fs ns : temp_valid fs ns ∅.
Proof. intros fdc nid [a Ha]. by rewrite lookup_empty in Ha. Qed.

Lemma fresh_run_total d :
  no_in_progress (import_checkpoint d) →
  loadable (foods d) (nutrients d) rows →
  ∃ d', run d = Done d'.
Proof.
  intros Hno Hload. destruct (fresh_begin d Hno) as [_ Hb].
  destruct (run_from_total d (mk_run ∅ (import_checkpoint d) ∅ d) Hload
              (temp_valid_empty _ _) Hb) as (st & d' & _ & Hrun & _).
  eauto.
Qed.
End Runs.

(** ** The importer's contract *)

(** C2. Importer postcondition, for every batch size and checkpoint
    interval, those of the method included.  A run of
    [import_nutrient_data] started with no in-progress checkpoint
    returns on every loadable file; when it returns, [food_nutrients]
    holds, for every pair
    (fdc_id, nutrient_id) of the file that has a numeric amount and
    whose fdc_id is the one of a food, exactly the row of that food and
    nutrient with the last such amount of the file and confidence 1.0,
    and it holds no other row: rows of unknown foods and rows with a
    null amount leave no trace. *)
Theorem import_postcondition (batch_size checkpoint_interval : nat)
    (rows : list fact_row) (d : db) :
  0 < batch_size → 0 < checkpoint_interval →
  foods_wf (foods d) →
  no_in_progress (import_checkpoint d) →
  (loadable (foods d) (nutrients d) rows →
   ∃ d', import_nutrient_data_with batch_size checkpoint_interval rows d
         = Done d') ∧
  ∀ d', import_nutrient_data_with batch_size checkpoint_interval rows d
        = Done d' →
    (∀ fid nid v,
       food_nutrients d' !! (fid, nid) = Some v ↔
       ∃ f a, f ∈ foods d ∧ f_id f = fid
              ∧ last_amount (f_fdc_id f, nid) rows = Some a
              ∧ v = mk_fact a 1) ∧
    (∀ r f, r ∈ rows → is_null (fr_amount r) = false →
       f ∈ foods d → f_fdc_id f = fr_fdc_id r →
       ∃ a, last_amount (row_key r) rows = Some a
            ∧ food_nutrients d' !! (f_id f, fr_nutrient_id r)
              = Some (mk_fact a 1)).
Proof.
  intros HB _ [Hpk _] Hno. split.
  - intros Hload. by eapply fresh_run_total.
  - intros d' Hrun.
    destruct (fresh_run_Done _ _ rows HB d d' Hpk Hno Hrun) as [Hv Hload].
    assert (∀ fid nid v,
              food_nutrients d' !! (fid, nid) = Some v ↔
              ∃ f a, f ∈ foods d ∧ f_id f = fid
                     ∧ last_amount (f_fdc_id f, nid) rows = Some a
                     ∧ v = mk_fact a 1) as Hchar.
    { intros fid nid v.
      rewrite (view_agrees_lookup _ _ _ _ fid nid v Hv).
      unfold total_rows. by rewrite take_ge. }
    split; [done|].
    intros r f Hr Hnull Hf Hfdc.
    destruct (Hload r Hr) as [Hnum _].
    destruct (fr_amount r) as [|q|s] eqn:Hq; try done.
    destruct (last_amount_is_Some r rows q Hr Hq) as [a Ha].
    exists a. split; [done|]. apply Hchar. exists f, a.
    unfold row_key in Ha. by rewrite Hfdc.
Qed.

(** Resuming after a crash at any point of the batch loop. *)
Lemma resume_any_point (batch_size checkpoint_interval : nat)
    (rows : list fact_row) (d d3 : db) (j : nat) :
  0 < batch_size →
  foods_wf (foods d) →
  no_in_progress (import_checkpoint d) →
  import_nutrient_data_with batch_size checkpoint_interval rows d = Done d3 →
  let d1 := interrupted_after batch_size checkpoint_interval rows j d in
  (d1 = d ∨
   ∃ c, latest_checkpoint (import_checkpoint d1) = Some c
        ∧ 0 < last_processed c ≤ length rows) ∧
  ∃ d2, import_nutrient_data_with batch_size checkpoint_interval rows d1
        = Done d2
        ∧ food_nutrients d2 = food_nutrients d3.
Proof.
  intros HB Hwf Hno Hrun d1. pose proof Hwf as [Hpk Hfdc].
  destruct (fresh_run_Done _ _ rows HB d d3 Hpk Hno Hrun) as [Hv3 Hload].
  assert (disk_inv d rows
            (mk_run ∅ (import_checkpoint d) ∅ d)) as Hd0 by by left.
  (* the interrupted run *)
  assert (∃ stj, for_each (import_batch batch_size checkpoint_interval rows d)
                   (take j (batch_offsets batch_size rows d))
                   (mk_run ∅ (import_checkpoint d) ∅ d) = Done stj
                 ∧ d1 = on_disk stj) as (stj & Hj & Hd1).
  { subst d1. unfold interrupted_after.
    revert Hrun. unfold import_nutrient_data_with.
    destruct (fresh_begin d Hno) as [_ ->].
    destruct (for_each _ (batch_offsets _ _ _) _) as [st|st] eqn:Hloop;
      [|done].
    intros _.
    destruct (for_each_take_Done _ _ j _ _ Hloop) as [stj Hj].
    rewrite Hj. eauto. }
  pose proof Hj as Hdisk. unfold batch_offsets in Hdisk.
  destruct (fresh_begin d Hno) as [Hstart _]. rewrite Hstart in Hdisk.
  apply (loop_disk _ _ rows HB d 0 j) in Hdisk;
    [|done|apply Nat.le_0_l|apply view_agrees_initial|done].
  destruct Hdisk as [[Hsame _]|(Hcommit & c & Hc & Hk & Hvk)].
  { (* nothing was committed: the second run starts afresh *)
    rewrite Hd1, Hsame. split; [by left|]. by exists d3. }
  (* a checkpoint was committed: the second run resumes from it *)
  assert (foods d1 = foods d ∧ nutrients d1 = nutrients d
          ∧ food_nutrients d1 = w_fn stj
          ∧ import_checkpoint d1 = w_log stj) as (Hf1 & Hn1 & Hfn1 & Hlog1).
  { by rewrite Hd1, Hcommit. }
  split.
  { right. exists c. by rewrite Hlog1. }
  destruct (reload_lookup (foods d) (w_fn stj) Hwf) as (temp0 & Hre & Ht0).
  assert (begin_import d1
          = Some (mk_run (w_fn stj) (w_log stj) temp0 d1)) as Hbegin.
  { unfold begin_import, start_position. rewrite Hlog1, Hc.
    destruct (Nat.ltb_spec 0 (last_processed c)) as [_|?]; [|lia].
    by rewrite Hf1, Hfn1, Hre. }
  assert (view_agrees (foods d) rows (last_processed c) temp0 (w_fn stj))
    as Hv0.
  { destruct Hvk as [Hvk Hok]. split; [|done].
    intros f nid Hf. rewrite <- (Hvk f nid Hf), lookup_empty. simpl.
    destruct (temp0 !! (f_fdc_id f, nid)) as [a|] eqn:Ha; simpl.
    - apply Ht0 in Ha as (f' & r & Hf' & Hfdc' & Hr & ->).
      assert (f' = f) as -> by by eapply food_by_fdc_unique.
      rewrite Hr. specialize (Hvk f nid Hf).
      rewrite lookup_empty, Hr in Hvk. simpl in Hvk.
      destruct (last_amount _ _); simpl in Hvk; [|done].
      by injection Hvk as ->.
    - done. }
  assert (temp_valid (foods d) (nutrients d) temp0) as Htv0.
  { intros fdc nid [a Ha] Hin.
    apply Ht0 in Ha as (f & r & Hf & <- & Hr & ->).
    destruct (proj1 (view_agrees_lookup _ _ _ _ (f_id f) nid r Hvk) Hr)
      as (f' & a & Hf' & Hid & Hl & _).
    assert (f' = f) as -> by by eapply food_by_id_unique.
    apply last_amount_Some_elem in Hl as (r' & Hr' & Hkey & Hq).
    apply (elem_of_sublist _ rows) in Hr'; [|apply sublist_take].
    destruct (Hload r' Hr') as [_ Hval]. injection Hkey as Hk1 <-.
    apply Hval. split; [by rewrite Hq|]. by rewrite Hk1. }
  rewrite <- Hf1, <- Hn1 in Hload, Htv0.
  destruct (run_from_total batch_size checkpoint_interval rows d1
              (mk_run (w_fn stj) (w_log stj) temp0 d1)
              Hload Htv0 Hbegin) as (st2 & d2 & Hloop2 & Hrun2 & Hfin2).
  exists d2. split; [done|].
  unfold batch_offsets, start_position in Hloop2. rewrite Hlog1, Hc in Hloop2.
  rewrite <- Hf1 in Hpk, Hv0.
  apply (loop_view _ _ rows HB d1 (last_processed c)
           (mk_run (w_fn stj) (w_log stj) temp0 d1) st2 Hpk) in Hloop2;
    [|unfold total_rows; lia|done].
  destruct (finish_import_Done rows d1 st2 d2 Hpk Hloop2 Hfin2) as (Hv2 & _).
  rewrite Hf1 in Hv2. by eapply view_agrees_unique.
Qed.

(** C1. Resume correctness, for every batch size and checkpoint
    interval, those of the method included.  Take a run of
    [import_nutrient_data] that started afresh and was killed after a
    number of batches, the last thing it committed being a checkpoint
    flush at offset [k < N].
    Invoking the importer again resumes from [k], the offset of that
    checkpoint, and returns with the same [food_nutrients] table as a
    single uninterrupted run over all [N] rows. *)
Theorem resume_correct (batch_size checkpoint_interval : nat)
    (rows : list fact_row) (d d3 : db) (j k : nat) :
  0 < batch_size → 0 < checkpoint_interval →
  foods_wf (foods d) →
  no_in_progress (import_checkpoint d) →
  import_nutrient_data_with batch_size checkpoint_interval rows d = Done d3 →
  let d1 := interrupted_after batch_size checkpoint_interval rows j d in
  last (import_checkpoint d1)
  = Some (mk_checkpoint fact_table k (length rows) in_progress) →
  k < length rows →
  start_position (import_checkpoint d1) = k
  ∧ head (batch_offsets batch_size rows d1) = Some k
  ∧ clears_existing d1 = false
  ∧ ∃ d2, import_nutrient_data_with batch_size checkpoint_interval rows d1
          = Done d2
          ∧ food_nutrients d2 = food_nutrients d3.
Proof.
  intros HB _ Hwf Hno Hrun d1 Hlast Hk.
  destruct (resume_any_point batch_size checkpoint_interval rows d d3 j
              HB Hwf Hno Hrun) as [Hstate Hres].
  fold d1 in Hstate, Hres.
  assert (start_position (import_checkpoint d1) = k) as Hstart.
  { apply last_Some in Hlast as [log' Hlog]. unfold start_position.
    rewrite Hlog, latest_checkpoint_snoc; [done|]. by split. }
  assert (0 < k) as Hpos.
  { destruct Hstate as [Hsame|(c & Hc & Hc')].
    - rewrite Hsame in Hlast. apply last_Some in Hlast as [log' Hlog].
      destruct (Hno (mk_checkpoint fact_table k (length rows) in_progress)).
      + rewrite Hlog, elem_of_app, list_elem_of_singleton. by right.
      + by split.
    - unfold start_position in Hstart. rewrite Hc in Hstart. lia. }
  split; [done|]. split; [|split; [|done]].
  - unfold batch_offsets, py_range. rewrite Hstart.
    destruct (total_rows rows - k) as [|n] eqn:E;
      [unfold total_rows in E; lia|].
    simpl. destruct (Nat.ltb_spec k (total_rows rows)) as [|?]; [done|].
    unfold total_rows in *. lia.
  - unfold clears_existing. rewrite Hstart.
    by destruct (Nat.ltb_spec 0 k) as [|?]; [|lia].
Qed.

(** ** The checkpoint log *)

Lemma latest_checkpoint_Some log c :
  latest_checkpoint log = Some c → c ∈ log ∧ is_resume_point c.
Proof.
  unfold latest_checkpoint. intros Hl.
  apply last_Some in Hl as [l' Hl].
  assert (c ∈ filter is_resume_point log) as Hin.
  { rewrite Hl, elem_of_app, list_elem_of_singleton. by right. }
  apply list_elem_of_filter in Hin. tauto.
Qed.

Lemma latest_checkpoint_None log :
  latest_checkpoint log = None → no_in_progress log.
Proof.
  unfold latest_checkpoint. intros Hl%last_None c Hc Hr.
  assert (c ∈ filter is_resume_point log) as Hin
    by by apply list_elem_of_filter.
  rewrite Hl in Hin. by apply elem_of_nil in Hin.
Qed.

Lemma latest_checkpoint_app_completed log c :
  status c = completed →
  latest_checkpoint (log ++ [c]) = latest_checkpoint log.
Proof.
  intros Hc. unfold latest_checkpoint.
  rewrite filter_app, filter_cons_False, filter_nil, app_nil_r; [done|].
  intros [_ ?]. congruence.
Qed.


Section Log.
Variables (batch_size checkpoint_interval : nat).
Variable rows : list fact_row.
Hypothesis batch_size_pos : 0 < batch_size.

Local Abbreviation Nrows := (total_rows rows).

Lemma import_batch_log d log0 i st st' (p : nat) :
  i < Nrows → i ≤ p ≤ Nrows `min` (2 * i + batch_size) →
  (∃ new, w_log st = log0 ++ new ∧ Forall progress_row new) →
  import_batch batch_size checkpoint_interval rows d i st = Done st' →
  ∃ new, w_log st' = log0 ++ new ∧ Forall progress_row new.
Proof.
  intros Hi _ (new & Hlog & Hnew). unfold import_batch.
  destruct (batch_values _); [|done].
  destruct (_ <? _).
  - destruct (flush _ _ _ _); [|done]. intros [= <-]; simpl.
    eexists (new ++ [_]). rewrite Hlog, app_assoc. split; [done|].
    apply Forall_app. split; [done|]. apply Forall_singleton.
    split; [done|]. simpl.
    pose proof (batch_at_length batch_size rows batch_size_pos i Hi). lia.
  - intros [= <-]; simpl. eauto.
Qed.

(** A run that returns has appended to the log its progress rows and
    the terminal row, and changed nothing before them. *)
Lemma run_log d d' :
  import_nutrient_data_with batch_size checkpoint_interval rows d = Done d' →
  ∃ new, import_checkpoint d'
         = import_checkpoint d ++ new
             ++ [mk_checkpoint fact_table Nrows Nrows completed]
         ∧ Forall progress_row new.
Proof.
  unfold import_nutrient_data_with.
  destruct (begin_import d) as [st0|] eqn:Hb; [|done].
  assert (w_log st0 = import_checkpoint d) as Hlog0.
  { revert Hb. unfold begin_import. destruct (_ <? _).
    - destruct (reload _ _); [|done]. by intros [= <-].
    - by intros [= <-]. }
  destruct (for_each _ _ _) as [st|st] eqn:Hloop; [|done].
  unfold batch_offsets, py_range in Hloop.
  set (s := start_position (import_checkpoint d)) in *.
  rewrite <- (take_ge (range_aux _ _ _ _) (Nrows - s)) in Hloop
    by apply range_aux_length_le.
  destruct (batch_loop_rule batch_size checkpoint_interval rows d
              batch_size_pos
              (λ _ st, ∃ new, w_log st = import_checkpoint d ++ new
                              ∧ Forall progress_row new)
              (import_batch_log d (import_checkpoint d))
              (Nrows - s) (Nrows - s) s st0 st (s `min` Nrows))
    as (_ & _ & (new & Hlog & Hnew) & _); [lia|lia| |done|].
  { exists []. by rewrite app_nil_r. }
  unfold finish_import. destruct (flush _ _ _ _); [|done].
  intros [= <-]; simpl. exists new. by rewrite Hlog, app_assoc.
Qed.

Lemma import_batch_log_any d log0 i st :
  i < Nrows → log_extends log0 st →
  match import_batch batch_size checkpoint_interval rows d i st with
  | Done st' | Raised st' => log_extends log0 st'
  end.
Proof.
  intros Hi [(new & Hlog & Hnew) Hdisk]. unfold import_batch.
  destruct (batch_values _); [|by split; eauto].
  assert (Forall progress_row
            (new ++ [mk_checkpoint fact_table
                       (i + length (slice rows i ((i + batch_size) `min` Nrows)))
                       Nrows in_progress])) as Hnew'.
  { apply Forall_app. split; [done|]. apply Forall_singleton.
    split; [done|]. simpl.
    pose proof (batch_at_length batch_size rows batch_size_pos i Hi). lia. }
  destruct (_ <? _); [|by split; eauto].
  destruct (flush _ _ _ _); simpl.
  - split; simpl; eexists; rewrite Hlog, <- app_assoc; eauto.
  - split; simpl; [|done]. eexists. rewrite Hlog, <- app_assoc. eauto.
Qed.

Lemma loop_log_any d log0 fuel j i st :
  log_extends log0 st →
  match for_each (import_batch batch_size checkpoint_interval rows d)
          (take j (range_aux fuel i Nrows batch_size)) st with
  | Done st' | Raised st' => log_extends log0 st'
  end.
Proof.
  revert j i st. induction fuel as [|fuel IH]; intros j i st Hst; simpl.
  - by rewrite take_nil.
  - destruct (Nat.ltb_spec i Nrows) as [Hi|_]; [|by rewrite take_nil].
    destruct j as [|j]; simpl; [done|].
    pose proof (import_batch_log_any d log0 i st Hi Hst) as Hstep.
    destruct (import_batch _ _ _ _ _ _) as [st1|st1]; simpl; [|done].
    by apply IH.
Qed.

End Log.


(** ** Rows that cannot be imported *)

Lemma last_amount_skip_null k l1 r l2 :
  fr_amount r = Null →
  last_amount k (l1 ++ r :: l2) = last_amount k (l1 ++ l2).
Proof.
  intros Hr. rewrite !last_amount_app. simpl. rewrite Hr.
  case_decide; simpl; by rewrite or_else_None_r.
Qed.

Lemma loadable_skip_null fs ns l1 r l2 :
  fr_amount r = Null →
  loadable fs ns (l1 ++ r :: l2) ↔ loadable fs ns (l1 ++ l2).
Proof.
  intros Hr. unfold loadable. split.
  - intros H r' Hr'. apply H. rewrite elem_of_app, elem_of_cons.
    apply elem_of_app in Hr'. tauto.
  - intros H r' Hr'. apply elem_of_app in Hr' as [?|Hr'].
    + apply H. rewrite elem_of_app. tauto.
    + apply elem_of_cons in Hr' as [->|?].
      * rewrite Hr. split; [done|]. unfold reaches_table. rewrite Hr.
        by intros [? _].
      * apply H. rewrite elem_of_app. tauto.
Qed.

(** The loop over the food file stops at the first row that fails. *)
Lemma import_food_rows_fail self d0 rows st :
  Exists row_must_fail rows →
  ∃ st', for_each (import_food_row self d0) rows st = Raised st'.
Proof.
  intros Hex. revert st.
  induction rows as [|r rows IH]; intros st; [by apply Exists_nil in Hex|].
  simpl. destruct (import_food_row self d0 r st) as [st1|st1] eqn:E; simpl.
  - apply IH. apply Exists_cons in Hex as [Hbad|?]; [|done].
    exfalso. revert E. unfold import_food_row.
    destruct Hbad as [Hbad|[Hbad|Hbad]]; rewrite ?Hbad.
    + by destruct (category_label _).
    + destruct (category_label _); [|done]. unfold insert_food.
      by destruct (fc_fdc_id r).
    + done.
  - eauto.
Qed.

(** The rollback of a failed food import of less than one commit
    interval leaves the food table as the opening DELETE left it. *)
Lemma import_food_rows_disk self d0 rows st :
  fs_disk st = d0 →
  imported_count st + length rows < foods_commit_every →
  match for_each (import_food_row self d0) rows st with
  | Done st' | Raised st' => fs_disk st' = d0
  end.
Proof.
  revert st. induction rows as [|r rows IH]; intros st Hd Hlen; [done|].
  simpl in *. unfold import_food_row at 1.
  destruct (category_label _); [|done].
  destruct (insert_food _ _ _ _ _ _) as [[fs seq]|]; [|done].
  destruct (Nat.eqb_spec (S (imported_count st) mod foods_commit_every) 0)
    as [Hz|_]; simpl.
  - rewrite Nat.mod_small in Hz by lia. done.
  - apply IH; simpl; [done|lia].
Qed.


(** ** Per-nutrient ranking *)

Lemma Qltb_lt x y : Qltb x y = true ↔ (x < y)%Q.
Proof.
  unfold Qltb. rewrite negb_true_iff, <- not_true_iff_false, Qle_bool_iff.
  split; [apply Qnot_le_lt | apply Qlt_not_le].
Qed.

Lemma Qltb_ge x y : Qltb x y = false ↔ (y <= x)%Q.
Proof.
  unfold Qltb. by rewrite negb_false_iff, Qle_bool_iff.
Qed.











Lemma Qmax_list_spec a l : is_max (Qmax_list a l) (a :: l).
Proof.
  unfold Qmax_list. revert a. induction l as [|x l IH]; intros a; simpl.
  - split.
    + exists a. split; [by left|reflexivity].
    + intros y ->%list_elem_of_singleton. apply Qle_refl.
  - destruct (Qltb a x) eqn:E.
    + destruct (IH x) as [(m & Hm & Hmeq) Hle]. split.
      * exists m. split; [|done]. right. done.
      * intros y [->|Hy]%elem_of_cons.
        -- apply Qle_trans with x; [|apply Hle; by left].
           apply Qlt_le_weak. by apply Qltb_lt.
        -- apply Hle. apply elem_of_cons in Hy as [->|Hy];
             [by left|by right].
    + destruct (IH a) as [(m & Hm & Hmeq) Hle]. split.
      * exists m. split; [|done].
        apply elem_of_cons in Hm as [->|Hm]; [by left|]. right. by right.
      * intros y [->|Hy]%elem_of_cons; [apply Hle; by left|].
        apply elem_of_cons in Hy as [->|Hy].
        -- apply Qle_trans with a; [|apply Hle; by left]. by apply Qltb_ge.
        -- apply Hle. by right.
Qed.









(** ** Denormalised rows and density scores *)

(** The view has one row per food. *)
Lemma mv_lookup d f :
  NoDup (f_id <$> foods d) → f ∈ foods d →
  common_nutrients_mv (update_common_nutrients_mv d) !! f_id f
  = Some (mv_row_of (nutrients d) (food_nutrients d) f).
Proof.
  intros Hpk Hf. unfold update_common_nutrients_mv. simpl.
  apply elem_of_list_to_map.
  - by rewrite <- list_fmap_compose.
  - apply list_elem_of_fmap. by exists f.
Qed.

Lemma mv_lookup_None d fid :
  fid ∉ f_id <$> foods d →
  common_nutrients_mv (update_common_nutrients_mv d) !! fid = None.
Proof.
  intros Hno. unfold update_common_nutrients_mv. simpl.
  apply not_elem_of_list_to_map. by rewrite <- list_fmap_compose.
Qed.

(** A food without facts keeps the one all-NULL row of the LEFT JOIN,
    which [COUNT( * )] counts. *)
Lemma food_group_no_facts ns fn f :
  (∀ nid, fn !! (f_id f, nid) = None) →
  food_group ns fn f = [(None, None)].
Proof.
  intros Hno. unfold food_group.
  destruct (filter _ (map_to_list fn)) as [|[[fid nid] x] rest] eqn:E;
    [done|].
  assert (((fid, nid), x) ∈ filter (λ kv : Z * Z * fact, kv.1.1 = f_id f)
                              (map_to_list fn)) as Hin
    by (rewrite E; left).
  apply list_elem_of_filter in Hin as [Hid Hin]. simpl in Hid. subst fid.
  apply elem_of_map_to_list in Hin. by rewrite Hno in Hin.
Qed.

(** What the denormalisation writes for a food without facts. *)
Lemma mv_no_facts d f :
  NoDup (f_id <$> foods d) → f ∈ foods d →
  (∀ nid, food_nutrients d !! (f_id f, nid) = None) →
  ∃ row, common_nutrients_mv (update_common_nutrients_mv d) !! f_id f
         = Some row
         ∧ data_completeness row = Some (Qnat 1 / 10)%Q.
Proof.
  intros Hpk Hf Hno. eexists. split; [by apply mv_lookup|].
  unfold mv_row_of. simpl. by rewrite food_group_no_facts.
Qed.

(** With facts, [COUNT( * )] is the number of facts of the food: each
    joins at most one nutrient. *)
Lemma filter_by_id_length ns k :
  NoDup (n_id <$> ns) → length (filter (λ n, n_id n = k) ns) ≤ 1.
Proof.
  induction ns as [|n ns IH]; simpl; intros Hnd; [lia|].
  apply NoDup_cons in Hnd as [Hn Hnd]. rewrite filter_cons.
  destruct (decide (n_id n = k)) as [Hk|_]; [|by apply IH].
  assert (filter (λ n0, n_id n0 = k) ns = []) as ->; [|simpl; lia].
  destruct (filter _ ns) as [|n' rest] eqn:E; [done|].
  assert (n' ∈ filter (λ n0, n_id n0 = k) ns) as Hin by (rewrite E; left).
  apply list_elem_of_filter in Hin as [Hk' Hin].
  destruct Hn. rewrite Hk, <- Hk'. by apply list_elem_of_fmap_2.
Qed.

Lemma food_group_length ns fn f :
  NoDup (n_id <$> ns) →
  length (food_group ns fn f)
  = 1 `max` length (filter (λ kv : Z * Z * fact, kv.1.1 = f_id f)
                           (map_to_list fn)).
Proof.
  intros Hnd. unfold food_group.
  destruct (filter _ (map_to_list fn)) as [|kv0 rest]; [done|].
  assert (∀ facts : list (Z * Z * fact),
          length (facts ≫= λ kv : Z * Z * fact,
            match filter (λ n, n_id n = kv.1.2) ns with
            | [] => [(Some kv.2, None)]
            | n :: ms => (λ n0, (Some kv.2, Some n0)) <$> n :: ms
            end) = length facts) as Hlen.
  { intros facts. induction facts as [|kv facts IH]; [done|].
    rewrite bind_cons, length_app, IH. simpl. f_equal.
    pose proof (filter_by_id_length ns kv.1.2 Hnd) as Hle.
    destruct (filter _ ns) as [|n ms]; [done|].
    simpl in *. rewrite length_fmap. lia. }
  rewrite Hlen. simpl. lia.
Qed.

Lemma mv_completeness d f :
  NoDup (f_id <$> foods d) → NoDup (n_id <$> nutrients d) → f ∈ foods d →
  ∃ row, common_nutrients_mv (update_common_nutrients_mv d) !! f_id f
         = Some row
         ∧ data_completeness row
           = Some (completeness_of_count
                     (1 `max` length
                        (filter (λ kv : Z * Z * fact, kv.1.1 = f_id f)
                                (map_to_list (food_nutrients d))))).
Proof.
  intros Hpk Hnk Hf. eexists. split; [by apply mv_lookup|].
  unfold mv_row_of. simpl. by rewrite food_group_length.
Qed.

(** *** The order of the passes *)

(** Rankings and the denormalised view depend on the fact and
    dimension tables only, so a second run rewrites them unchanged. *)
Lemma engine_rankings_idempotent d :
  nutrient_rankings (update_rankings_and_scores (update_rankings_and_scores d))
  = nutrient_rankings (update_rankings_and_scores d).
Proof. reflexivity. Qed.

Lemma engine_mv_idempotent d :
  common_nutrients_mv
    (update_rankings_and_scores (update_rankings_and_scores d))
  = common_nutrients_mv (update_rankings_and_scores d).
Proof. reflexivity. Qed.

(** The density pass runs before the denormalisation of the same call,
    so the scores are those of the view the call found. *)
Lemma engine_scores_from_previous_view d :
  food_density_scores (update_rankings_and_scores d)
  = density_of <$> common_nutrients_mv d.
Proof. reflexivity. Qed.

Lemma engine_scores_stable_from_second_run d :
  let d2 := update_rankings_and_scores (update_rankings_and_scores d) in
  food_density_scores (update_rankings_and_scores d2)
  = food_density_scores d2.
Proof. reflexivity. Qed.

(** ** The category classifier *)

Lemma dict_get_set {V} k k' (v : V) m :
  dict_get k (dict_set k' v m)
  = if decide (k' = k) then Some v else dict_get k m.
Proof.
  induction m as [|[k0 v0] m IH]; simpl.
  - done.
  - destruct (decide (k0 = k')) as [->|Hne]; simpl.
    + by destruct (decide (k' = k)).
    + rewrite IH. destruct (decide (k0 = k)) as [->|?]; [|done].
      by rewrite decide_False by done.
Qed.

Lemma dict_set_Forall {V} (Q : string * V → Prop) k v m :
  Forall Q m → Q (k, v) → Forall Q (dict_set k v m).
Proof.
  intros Hm Hkv. induction Hm as [|[k0 v0] m H0 Hm IH]; simpl.
  - by apply Forall_singleton.
  - destruct (decide (k0 = k)); by constructor.
Qed.

Lemma dict_set_elem_new {V} k (v : V) m : (k, v) ∈ dict_set k v m.
Proof.
  induction m as [|[k0 v0] m IH]; simpl; [by left|].
  destruct (decide (k0 = k)); [by left|by right].
Qed.

Lemma dict_set_elem_old {V} k (v : V) k0 v0 m :
  (k0, v0) ∈ m → (k = k0 → v = v0) → (k0, v0) ∈ dict_set k v m.
Proof.
  intros Hin Hsame. induction m as [|[k1 v1] m IH]; simpl;
    [by apply elem_of_nil in Hin|].
  apply elem_of_cons in Hin as [[= <- <-]|Hin].
  - destruct (decide (k0 = k)) as [->|?]; [|by left].
    rewrite Hsame by done. by left.
  - destruct (decide (k1 = k)); right; [done|by apply IH].
Qed.

(** The first loop of [find_category_id] when every key that occurs in
    the food name is the same entry. *)
Lemma name_match_unique food k0 v0 m :
  Forall (λ kv, contains kv.1 food = true → kv = (k0, v0)) m →
  (k0, v0) ∈ m → contains k0 food = true →
  name_match food m = Some (v0, "name_match:" +:+ k0).
Proof.
  intros Hall Hin Hk0. induction m as [|[k v] m IH]; simpl;
    [by apply elem_of_nil in Hin|].
  apply Forall_cons in Hall as [Hkv Hall].
  destruct (contains k food) eqn:E.
  - by injection (Hkv E) as -> ->.
  - apply IH; [done|]. apply elem_of_cons in Hin as [[= -> ->]|?]; [|done].
    simpl in E. congruence.
Qed.

Lemma config_variations_ok :
  Forall (λ entry, Forall (variation_ok entry.1) entry.2) category_variations.
Proof. compute_done. Qed.

Section Cheddar.
Variable dairy_id : Z.
Hypothesis dairy_id_nonzero : dairy_id ≠ 0%Z.

Lemma set_variations_inv base_id base vars m :
  Forall (variation_ok base) vars →
  (standardize_category_name base = dairy → base_id = dairy_id) →
  map_inv dairy_id m →
  map_inv dairy_id
    (foldl (λ m' variation,
              dict_set (standardize_category_name variation) base_id m')
           m vars).
Proof.
  intros Hvars Hbase. revert m.
  induction Hvars as [|v vars (Hne & Hnd & Hsub) _ IH]; intros m Hm; [done|].
  simpl. apply IH. destruct Hm as (HJ & HK & HL). split; [|split].
  - apply dict_set_Forall; [done|]. simpl. intros Hc.
    destruct (Hsub Hc) as [-> Hb]. by rewrite (Hbase Hb).
  - rewrite dict_get_set. by rewrite decide_False.
  - rewrite dict_get_set. by rewrite decide_False.
Qed.

Lemma add_variations_inv entry m :
  Forall (variation_ok entry.1) entry.2 →
  map_inv dairy_id m → map_inv dairy_id (add_variations m entry).
Proof.
  intros Hok Hm. unfold add_variations.
  destruct (dict_get (standardize_category_name entry.1) m) as [id|] eqn:E;
    simpl; [|done].
  destruct (decide (id = 0%Z)); [done|].
  apply (set_variations_inv id entry.1); [done| |done].
  intros Hb. rewrite Hb in E. destruct Hm as (_ & HK & _). congruence.
Qed.

Lemma set_variations_keep base_id vars m k0 :
  (k0, dairy_id) ∈ m →
  (∀ v, v ∈ vars → standardize_category_name v = k0 → base_id = dairy_id) →
  (k0, dairy_id)
  ∈ foldl (λ m' variation,
             dict_set (standardize_category_name variation) base_id m')
          m vars.
Proof.
  revert m. induction vars as [|v vars IH]; intros m Hin Hsame; [done|].
  simpl. apply IH.
  - apply dict_set_elem_old; [done|]. intros Hk. apply (Hsame v); [by left|done].
  - intros v' Hv'. apply Hsame. by right.
Qed.

Lemma set_variations_new base_id vars m v0 :
  v0 ∈ vars → base_id = dairy_id →
  (standardize_category_name v0, dairy_id)
  ∈ foldl (λ m' variation,
             dict_set (standardize_category_name variation) base_id m')
          m vars.
Proof.
  intros Hin ->. revert m. induction vars as [|v vars IH]; intros m;
    [by apply elem_of_nil in Hin|].
  simpl. apply elem_of_cons in Hin as [<-|Hin].
  - apply set_variations_keep; [apply dict_set_elem_new|done].
  - by apply IH.
Qed.

(** After the dairy entry is processed, "cheese" maps to the dairy id,
    and it still does at the end. *)
Lemma cheese_in_map entries m :
  Forall (λ entry, Forall (variation_ok entry.1) entry.2) entries →
  map_inv dairy_id m →
  (("cheese", dairy_id) ∈ m ∨
   ∃ vars, (dairy, vars) ∈ entries ∧ "cheese" ∈ vars) →
  ("cheese", dairy_id) ∈ foldl add_variations m entries
  ∧ map_inv dairy_id (foldl add_variations m entries).
Proof.
  intros Hok. revert m.
  induction Hok as [|[base vars] entries Hentry _ IH]; intros m Hm Hsrc.
  - split; [|done]. destruct Hsrc as [?|(vars & Hin & _)]; [done|].
    by apply elem_of_nil in Hin.
  - simpl. apply IH; [by apply add_variations_inv|].
    pose proof Hm as (_ & HK & _).
    unfold add_variations. simpl in *.
    destruct (dict_get (standardize_category_name base) m) as [id|] eqn:E;
      simpl.
    + destruct (decide (id = 0%Z)) as [->|Hid].
      * destruct Hsrc as [?|(vars0 & Hin & Hch)]; [by left|].
        apply elem_of_cons in Hin as [[= <- <-]|Hin]; [|right; eauto].
        change (standardize_category_name dairy) with dairy in E. congruence.
      * destruct Hsrc as [Hin|(vars0 & Hin & Hch)].
        -- left. apply set_variations_keep; [done|]. intros v Hv Hstd.
           rewrite Forall_forall in Hentry.
           destruct (Hentry v Hv) as (_ & _ & Hsub).
           destruct Hsub as [_ Hb]; [by rewrite Hstd|].
           rewrite Hb in E. congruence.
        -- apply elem_of_cons in Hin as [[= <- <-]|Hin]; [|right; eauto].
           left.
           change (standardize_category_name dairy) with dairy in E.
           apply (set_variations_new id vars0 m "cheese"); [done|congruence].
    + destruct Hsrc as [?|(vars0 & Hin & Hch)]; [by left|].
      apply elem_of_cons in Hin as [[= <- <-]|Hin]; [|right; eauto].
      change (standardize_category_name dairy) with dairy in E. congruence.
Qed.
End Cheddar.

(** C9. Classifier example.  With the built-in synonym table, which
    lists "cheese" under "dairy and egg products", on a category table
    that knows the dairy category (with a non-zero id) and has no
    standardized category name occurring in "cheddar cheese",
    [find_category_id('Cheddar Cheese', '')] returns the dairy category
    id with the method [name_match:cheese]: the label is not a numeric
    id, its standardized form is not a key of the map, and "cheese" is
    the first key of the map, in iteration order, that is a substring
    of the standardized food name. *)
Theorem cheddar_cheese_is_dairy (cats : list (Z * string)) (dairy_id : Z) :
  let self := build_category_mappings cats in
  dict_get dairy (base_name_map self) = Some dairy_id →
  dairy_id ≠ 0%Z →
  Forall (λ kv, contains kv.1 cheddar = false) (base_name_map self) →
  (∃ variations, dict_get dairy category_variations = Some variations
                 ∧ "cheese" ∈ variations)
  ∧ find_category_id self "Cheddar Cheese" ""
    = (dairy_id, "name_match:cheese")
  ∧ name_match (standardize_category_name "Cheddar Cheese")
               (category_name_map self)
    = Some (dairy_id, "name_match:cheese").
Proof.
  intros self Hdairy Hnz Hnone.
  split; [eexists; split; [vm_compute; reflexivity|compute_done]|].
  assert (map_inv dairy_id (base_name_map self)) as Hinv.
  { split; [|split; [done|]].
    - eapply Forall_impl; [exact Hnone|]. intros kv Hf Ht. congruence.
    - destruct (dict_get EmptyString (base_name_map self)) as [id|] eqn:E;
        [|done].
      exfalso. clear -E Hnone.
      induction Hnone as [|[k v] m Hk _ IH]; simpl in E; [done|].
      destruct (decide (k = EmptyString)) as [->|?]; [|auto].
      simpl in Hk. done. }
  assert (("cheese", dairy_id) ∈ category_name_map self
          ∧ map_inv dairy_id (category_name_map self))
    as [Hcheese (HJ & _ & HL)].
  { unfold category_name_map.
    apply (cheese_in_map dairy_id Hnz); [apply config_variations_ok|done|].
    right. eexists. split; [right; left|]. compute_done. }
  assert (name_match cheddar (category_name_map self)
          = Some (dairy_id, "name_match:cheese")) as Hmatch.
  { by apply (name_match_unique cheddar "cheese" dairy_id). }
  split; [|exact Hmatch].
  unfold find_category_id. simpl isdigit. simpl andb. cbv iota.
  change (standardize_category_name "") with EmptyString.
  change (standardize_category_name "Cheddar Cheese") with cheddar.
  by rewrite HL, Hmatch.
Qed.

(** ** Concrete runs *)

Lemma sample_foods_wf : foods_wf (foods sample_db).
Proof. split; compute_done. Defined.

Lemma sample_log_fresh : no_in_progress (import_checkpoint sample_db).
Proof. intros c Hc. by apply elem_of_nil in Hc. Defined.


(** The sample file, imported in batches of 2 with a checkpoint
    interval of 3: the last value of each pair is kept. *)
Lemma import_postcondition_witness :
  (0 < 2 ∧ 0 < 3 ∧ foods_wf (foods sample_db)
   ∧ no_in_progress (import_checkpoint sample_db)) ∧
  ∀ fid nid v,
    food_nutrients
      (outcome_db (import_nutrient_data_with 2 3 sample_rows sample_db))
      !! (fid, nid) = Some v ↔
    ∃ f a, f ∈ foods sample_db ∧ f_id f = fid
           ∧ last_amount (f_fdc_id f, nid) sample_rows = Some a
           ∧ v = mk_fact a 1.
Proof.
  split.
  - refine (conj _ (conj _ (conj sample_foods_wf sample_log_fresh))); lia.
  - apply (proj2 (import_postcondition 2 3 sample_rows sample_db
                    (Nat.lt_0_succ _) (Nat.lt_0_succ _)
                    sample_foods_wf sample_log_fresh)).
    vm_compute. reflexivity.
Defined.

(** The same run killed after two batches has committed the checkpoint
    at offset 6 of 7; the next run resumes there. *)
Lemma resume_correct_witness :
  (0 < 2 ∧ 0 < 3 ∧ foods_wf (foods sample_db)
   ∧ no_in_progress (import_checkpoint sample_db)
   ∧ last (import_checkpoint (interrupted_after 2 3 sample_rows 2 sample_db))
     = Some (mk_checkpoint fact_table 6 (length sample_rows) in_progress)
   ∧ 6 < length sample_rows) ∧
  ∃ d2, import_nutrient_data_with 2 3 sample_rows
          (interrupted_after 2 3 sample_rows 2 sample_db) = Done d2
        ∧ food_nutrients d2
          = food_nutrients
              (outcome_db
                 (import_nutrient_data_with 2 3 sample_rows sample_db)).
Proof.
  split.
  - refine (conj _ (conj _
              (conj sample_foods_wf (conj sample_log_fresh (conj _ _))))).
    + lia.
    + lia.
    + vm_compute. reflexivity.
    + simpl. lia.
  - refine (proj2 (proj2 (proj2
      (resume_correct 2 3 sample_rows sample_db
         (outcome_db (import_nutrient_data_with 2 3 sample_rows sample_db))
         2 6 (Nat.lt_0_succ _) (Nat.lt_0_succ _) sample_foods_wf sample_log_fresh
         _ _ _)))).
    + vm_compute. reflexivity.
    + vm_compute. reflexivity.
    + simpl. lia.
Defined.

(** The sample file imported with the constants of the method. *)
Example sample_import_table :
  map_to_list
    (food_nutrients (outcome_db (import_nutrient_data sample_rows sample_db)))
  = [((1%Z, 1003%Z), mk_fact (51 # 2) 1);
     ((2%Z, 1079%Z), mk_fact 5 1);
     ((2%Z, 1003%Z), mk_fact 7 1)].
Proof. vm_compute. reflexivity. Qed.

(** With the constants of the method the first batch of a short file
    already satisfies the checkpoint test, so a completed import leaves
    an in-progress row behind and the next run resumes at the end of
    the file without deleting. *)
Example completed_run_leaves_resume_point :
  let d' := outcome_db (import_nutrient_data sample_rows sample_db) in
  import_checkpoint d'
  = [mk_checkpoint fact_table 7 7 in_progress;
     mk_checkpoint fact_table 7 7 completed]
  ∧ clears_existing d' = false
  ∧ batch_offsets batch_size sample_rows d' = [].
Proof. vm_compute. done. Qed.

Lemma batch_size_positive : 0 < batch_size.
Proof. unfold batch_size. lia. Defined.

Lemma checkpoint_interval_positive : 0 < checkpoint_interval.
Proof. unfold checkpoint_interval. lia. Defined.

(** C8, as stated, fails: the non-numeric amount in the second row of
    the file makes the run raise, after the handler has committed the
    deletion of the fact table; no row of the file is imported. *)
Lemma bad_row_aborts_import :
  import_nutrient_data sample_bad_rows sample_db = Raised sample_db.
Proof. vm_compute. reflexivity. Qed.

Example loaded_db_is_an_import :
  import_nutrient_data density_rows sample_db = Done loaded_db
  ∧ map_to_list (common_nutrients_mv loaded_db) = []
  ∧ map_to_list (food_density_scores loaded_db) = [].
Proof. vm_compute. done. Qed.

(** C3, failing input.  On a database whose facts are loaded and whose
    derived tables are empty, one call of the engine leaves
    [food_density_scores] empty, although the facts of food 1 give it
    the score 44 once the view is fresh. *)
Lemma density_pass_reads_stale_view :
  food_density_scores (update_rankings_and_scores loaded_db) = ∅ ∧
  ∃ s, food_density_scores
         (calculate_density_scores (update_common_nutrients_mv loaded_db))
       !! 1%Z = Some s
       ∧ (total_score s == 44)%Q.
Proof.
  split; [reflexivity|].
  eexists. split; [vm_compute; reflexivity|]. reflexivity.
Qed.

(** C4, failing input.  On the same database the second of two
    consecutive calls writes density scores the first did not. *)
Lemma engine_second_run_differs :
  food_density_scores
    (update_rankings_and_scores (update_rankings_and_scores loaded_db))
  ≠ food_density_scores (update_rankings_and_scores loaded_db).
Proof.
  intros Heq.
  assert (is_Some (food_density_scores
                     (update_rankings_and_scores
                        (update_rankings_and_scores loaded_db)) !! 1%Z)) as Hs.
  { vm_compute. eauto. }
  rewrite Heq in Hs. destruct Hs as [s Hs]. vm_compute in Hs. done.
Qed.

(** C7, failing input.  Food 2 has no fact, yet its denormalised row
    has data_completeness 1/10, not 0. *)
Lemma no_facts_completeness_is_one_tenth :
  (∀ nid, food_nutrients loaded_db !! (2%Z, nid) = None) ∧
  ∃ row, common_nutrients_mv (update_common_nutrients_mv loaded_db) !! 2%Z
         = Some row
         ∧ data_completeness row = Some (1 # 10)%Q
         ∧ ¬ (1 # 10 == 0)%Q.
Proof.
  split.
  - intros nid.
    destruct (food_nutrients loaded_db !! (2%Z, nid)) as [v|] eqn:E; [|done].
    apply elem_of_map_to_list in E. vm_compute in E.
    repeat (apply elem_of_cons in E as [[=]|E]). by apply elem_of_nil in E.
  - eexists. split; [vm_compute; reflexivity|]. split; [reflexivity|].
    intros H. discriminate H.
Qed.

(** The example on a three-row category table. *)
Lemma cheddar_cheese_is_dairy_witness :
  (dict_get dairy (base_name_map (build_category_mappings sample_categories))
   = Some 1%Z
   ∧ 1%Z ≠ 0%Z
   ∧ Forall (λ kv, contains kv.1 cheddar = false)
            (base_name_map (build_category_mappings sample_categories))) ∧
  find_category_id (build_category_mappings sample_categories)
    "Cheddar Cheese" "" = (1%Z, "name_match:cheese").
Proof.
  assert (dict_get dairy
            (base_name_map (build_category_mappings sample_categories))
          = Some 1%Z) as H1 by (vm_compute; reflexivity).
  assert (1%Z ≠ 0%Z) as H2 by (intros [=]).
  assert (Forall (λ kv, contains kv.1 cheddar = false)
            (base_name_map (build_category_mappings sample_categories)))
    as H3 by (vm_compute; repeat constructor).
  split; [exact (conj H1 (conj H2 H3))|].
  exact (proj1 (proj2 (cheddar_cheese_is_dairy sample_categories 1
                         H1 H2 H3))).
Defined.

(** ** Normalisation of names *)

Lemma string_app_cons c (s t : string) :
  String c s +:+ t = String c (s +:+ t).
Proof. done. Qed.

Lemma string_app_nil_r (s : string) : s +:+ EmptyString = s.
Proof.
  induction s as [|c s IH]; [done|]. by rewrite string_app_cons, IH.
Qed.

Lemma string_app_assoc (s1 s2 s3 : string) :
  (s1 +:+ s2) +:+ s3 = s1 +:+ (s2 +:+ s3).
Proof.
  induction s1 as [|c s1 IH]; [done|]. by rewrite !string_app_cons, IH.
Qed.

Lemma all_chars_app p s1 s2 :
  all_chars p (s1 +:+ s2) = all_chars p s1 && all_chars p s2.
Proof.
  induction s1 as [|c s1 IH]; [done|].
  rewrite string_app_cons. simpl. by rewrite IH, andb_assoc.
Qed.

Lemma all_chars_impl (p q : ascii → bool) s :
  (∀ c, p c = true → q c = true) →
  all_chars p s = true → all_chars q s = true.
Proof.
  intros Hpq. induction s as [|c s IH]; simpl; [done|].
  intros [Hc Hs]%andb_true_iff. apply andb_true_iff. auto.
Qed.

Lemma all_chars_map p f s :
  (∀ c, p (f c) = true) → all_chars p (map_string f s) = true.
Proof.
  intros Hf. induction s as [|c s IH]; simpl; [done|].
  by rewrite Hf, IH.
Qed.

Lemma map_string_fixed (p : ascii → bool) f s :
  (∀ c, p c = true → f c = c) → all_chars p s = true → map_string f s = s.
Proof.
  intros Hf. induction s as [|c s IH]; simpl; [done|].
  intros [Hc Hs]%andb_true_iff. by rewrite Hf, IH.
Qed.

Lemma kept_char_not_upper c : is_kept_char c = true → is_upper c = false.
Proof. by destruct c as [[] [] [] [] [] [] [] []]. Qed.

Lemma word_char_not_space c : is_word_char c = true → is_space c = false.
Proof. by destruct c as [[] [] [] [] [] [] [] []]. Qed.

Lemma word_char_kept c : is_word_char c = true → is_kept_char c = true.
Proof. unfold is_kept_char, is_word_char. by intros ->. Qed.

Lemma kept_not_space_word c :
  is_kept_char c && negb (is_space c) = true → is_word_char c = true.
Proof.
  unfold is_kept_char, is_word_char.
  destruct (is_space c); [by rewrite andb_false_r|].
  by rewrite orb_false_r, andb_true_r.
Qed.

(** [str.split]: the words are the maximal runs of non-space
    characters. *)
Lemma split_aux_words (p : ascii → bool) cur s :
  all_chars (λ c, p c && negb (is_space c)) cur = true →
  all_chars p s = true →
  Forall (λ w, w ≠ EmptyString
               ∧ all_chars (λ c, p c && negb (is_space c)) w = true)
         (split_aux cur s).
Proof.
  revert cur; induction s as [|c s IH]; intros cur Hcur; simpl.
  - intros _. destruct (decide (cur = EmptyString)); [done|].
    by apply Forall_singleton.
  - intros [Hc Hs]%andb_true_iff.
    destruct (is_space c) eqn:Hsp.
    + destruct (decide (cur = EmptyString)); [by apply IH|].
      constructor; [done|by apply IH].
    + apply IH; [|done]. rewrite all_chars_app, Hcur. simpl.
      by rewrite Hc, Hsp.
Qed.

Lemma split_aux_word cur w rest :
  all_chars (λ c, negb (is_space c)) w = true →
  split_aux cur (w +:+ rest) = split_aux (cur +:+ w) rest.
Proof.
  revert cur; induction w as [|c w IH]; intros cur.
  - change (EmptyString +:+ rest) with rest. by rewrite string_app_nil_r.
  - rewrite string_app_cons. simpl.
    intros [Hc Hw]%andb_true_iff. apply negb_true_iff in Hc.
    rewrite Hc, IH by done. by rewrite string_app_assoc.
Qed.

Lemma split_join ws :
  Forall (λ w, w ≠ EmptyString
               ∧ all_chars (λ c, negb (is_space c)) w = true) ws →
  split (join " " ws) = ws.
Proof.
  unfold split. induction 1 as [|w ws [Hne Hw] Hws IH]; [done|].
  destruct ws as [|w2 ws].
  - simpl. rewrite <- (string_app_nil_r w) at 1.
    rewrite split_aux_word by done. simpl.
    by rewrite decide_False.
  - change (join " " (w :: w2 :: ws))
      with (w +:+ String " " (join " " (w2 :: ws))).
    rewrite split_aux_word by done.
    change (EmptyString +:+ w) with w.
    change (split_aux w (String " " (join " " (w2 :: ws))))
      with (if decide (w = EmptyString)
            then split_aux EmptyString (join " " (w2 :: ws))
            else w :: split_aux EmptyString (join " " (w2 :: ws))).
    by rewrite decide_False, IH.
Qed.

Lemma is_word_no_space ws :
  Forall is_word ws →
  Forall (λ w, w ≠ EmptyString
               ∧ all_chars (λ c, negb (is_space c)) w = true) ws.
Proof.
  intros Hws. eapply Forall_impl; [exact Hws|].
  intros w [Hne Hw]. split; [done|].
  eapply all_chars_impl; [|done].
  intros c Hc. by rewrite (word_char_not_space c Hc).
Qed.

Lemma join_kept ws :
  Forall is_word ws → all_chars is_kept_char (join " " ws) = true.
Proof.
  induction 1 as [|w ws [Hne Hw] Hws IH]; [done|].
  assert (all_chars is_kept_char w = true) as Hk
    by (eapply all_chars_impl; [apply word_char_kept|done]).
  destruct ws as [|w2 ws]; [done|].
  change (join " " (w :: w2 :: ws))
    with (w +:+ String " " (join " " (w2 :: ws))).
  rewrite all_chars_app, Hk. simpl in *. by rewrite IH.
Qed.

Lemma sub_special_kept s : all_chars is_kept_char (sub_special s) = true.
Proof.
  apply all_chars_map. intros c. fold (is_kept_char c).
  by destruct (is_kept_char c) eqn:E.
Qed.

Lemma standardize_words s : Forall is_word (split (sub_special (lower s))).
Proof.
  eapply Forall_impl.
  - apply (split_aux_words is_kept_char); [done|apply sub_special_kept].
  - intros w [Hne Hw]. split; [done|].
    eapply all_chars_impl; [apply kept_not_space_word|done].
Qed.

(** A name that is already a list of words joined by single spaces is
    left as it is. *)
Lemma standardize_fixed ws :
  Forall is_word ws →
  standardize_category_name (join " " ws) = join " " ws.
Proof.
  intros Hws. unfold standardize_category_name.
  destruct (decide (join " " ws = EmptyString)) as [->|_]; [done|].
  pose proof (join_kept ws Hws) as Hk.
  unfold lower.
  rewrite (map_string_fixed is_kept_char lower_char) by
    (try done; intros c Hc; unfold lower_char;
     by rewrite (kept_char_not_upper c Hc)).
  unfold sub_special.
  rewrite (map_string_fixed is_kept_char) by
    (try done; intros c Hc; fold (is_kept_char c); by rewrite Hc).
  by rewrite split_join by by apply is_word_no_space.
Qed.

(** X1. [_standardize_category_name] returns words of lowercase
    letters and digits, separated by single spaces, with no space at
    either end: splitting the result at whitespace gives non-empty
    words over [a-z0-9], and joining them with one space gives the
    result back. *)
Theorem standardize_category_name_words (s : string) :
  Forall is_word (split (standardize_category_name s)) ∧
  standardize_category_name s
  = join " " (split (standardize_category_name s)).
Proof.
  unfold standardize_category_name.
  destruct (decide (s = EmptyString)) as [->|_]; [by split|].
  pose proof (standardize_words s) as Hws.
  rewrite split_join by by apply is_word_no_space.
  done.
Qed.

(** X2. [_standardize_category_name] is idempotent: a standardized
    name is its own standard form, so the keys of the classifier's map
    are found again by the lookups, which standardize their argument. *)
Theorem standardize_category_name_idempotent (s : string) :
  standardize_category_name (standardize_category_name s)
  = standardize_category_name s.
Proof.
  unfold standardize_category_name at 2 3.
  destruct (decide (s = EmptyString)) as [->|_]; [done|].
  apply standardize_fixed, standardize_words.
Qed.

(** ** The range of the classifier *)

Lemma dict_get_elem {V} k (v : V) m : dict_get k m = Some v → (k, v) ∈ m.
Proof.
  induction m as [|[k0 v0] m IH]; simpl; [done|].
  destruct (decide (k0 = k)) as [->|?].
  - intros [= ->]. by left.
  - intros H. right. by apply IH.
Qed.

Lemma truthy_id_Some o id : truthy_id o = Some id → o = Some id.
Proof.
  destruct o as [z|]; simpl; [|done].
  by destruct (decide (z = 0%Z)); intros [= ->].
Qed.

Lemma foldl_dict_set_values {A V} (P : V → Prop)
    (key : A → string) (val : A → V) l m :
  Forall (λ kv, P kv.2) m → Forall (λ a, P (val a)) l →
  Forall (λ kv, P kv.2) (foldl (λ m a, dict_set (key a) (val a) m) m l).
Proof.
  intros Hm Hl. revert m Hm.
  induction Hl as [|a l Ha Hl IH]; intros m Hm; simpl; [done|].
  apply IH. by apply dict_set_Forall.
Qed.

Lemma add_variations_values (P : Z → Prop) m entry :
  Forall (λ kv, P kv.2) m → Forall (λ kv, P kv.2) (add_variations m entry).
Proof.
  intros Hm. unfold add_variations.
  destruct (truthy_id _) as [base_id|] eqn:E; [|done].
  apply truthy_id_Some, dict_get_elem in E.
  assert (P base_id) as Hb
    by (rewrite Forall_forall in Hm; apply (Hm _ E)).
  apply (foldl_dict_set_values P standardize_category_name (λ _, base_id));
    [done|]. by apply Forall_forall.
Qed.

Lemma category_name_map_values (P : Z → Prop) cats :
  Forall (λ row, P row.1) cats →
  Forall (λ kv, P kv.2) (category_name_map (build_category_mappings cats)).
Proof.
  intros Hcats. unfold category_name_map.
  assert (Forall (λ kv : string * Z, P kv.2)
            (base_name_map (build_category_mappings cats))) as Hbase.
  { unfold base_name_map.
    apply (foldl_dict_set_values P (λ kv, standardize_category_name kv.1)
             (λ kv, kv.2)); [done|].
    simpl.
    by apply (foldl_dict_set_values P (λ row : Z * string, lower row.2)
                (λ row, row.1)). }
  revert Hbase. generalize (base_name_map (build_category_mappings cats)).
  induction category_variations as [|entry cv IH]; intros m Hm; simpl;
    [done|].
  by apply IH, add_variations_values.
Qed.

Lemma name_match_elem food m r :
  name_match food m = Some r → ∃ k, (k, r.1) ∈ m.
Proof.
  induction m as [|[k v] m IH]; simpl; [done|].
  destruct (contains k food).
  - intros [= <-]. exists k. by left.
  - intros [k' Hk']%IH. exists k'. by right.
Qed.

Lemma first_variation_id ws id vs r :
  first_variation ws id vs = Some r → r.1 = id.
Proof.
  induction vs as [|v vs IH]; simpl; [done|].
  destruct (all_words_in ws v); [by intros [= <-]|done].
Qed.

Lemma multi_word_match_elem m ws cv r :
  multi_word_match m ws cv = Some r → ∃ k, (k, r.1) ∈ m.
Proof.
  induction cv as [|[base vs] cv IH]; simpl; [done|].
  destruct (truthy_id _) as [base_id|] eqn:E; [|done].
  destruct (first_variation ws base_id vs) as [r'|] eqn:E'; [|done].
  intros [= <-]. apply first_variation_id in E' as ->.
  apply truthy_id_Some, dict_get_elem in E. eauto.
Qed.


(** The id the classifier returns is the default or an id of the map. *)
Lemma find_category_id_cases self food label :
  (find_category_id self food label).1 = default_category_id
  ∨ (find_category_id self food label).1 ∈ valid_category_ids self
  ∨ ∃ k, (k, (find_category_id self food label).1) ∈ category_name_map self.
Proof.
  unfold find_category_id.
  destruct (isdigit label && _) eqn:Hd.
  - apply andb_true_iff in Hd as [_ Hd]. apply bool_decide_eq_true in Hd.
    right; left. done.
  - destruct (dict_get _ _) as [id|] eqn:Hg.
    { right; right. apply dict_get_elem in Hg. eauto. }
    destruct (name_match _ _) as [r|] eqn:Hn.
    { right; right. by eapply name_match_elem. }
    destruct (multi_word_match _ _ _) as [r|] eqn:Hm.
    { right; right. by eapply multi_word_match_elem. }
    by left.
Qed.

Lemma find_category_id_valid (cats : list (Z * string))
    (food_name category_name : string) :
  let r := find_category_id (build_category_mappings cats)
             food_name category_name in
  r.1 = default_category_id ∨ r.1 ∈ cats.*1.
Proof.
  intros r. subst r.
  destruct (find_category_id_cases (build_category_mappings cats)
              food_name category_name) as [H|[H|[k H]]]; [by left|by right|].
  right.
  assert (Forall (λ row : Z * string, row.1 ∈ cats.*1) cats) as Hcats
    by (apply Forall_forall; intros row Hrow;
        by apply (list_elem_of_fmap_2 fst)).
  pose proof (category_name_map_values (λ id, id ∈ cats.*1) cats Hcats) as Hv.
  rewrite Forall_forall in Hv. apply (Hv _ H).
Qed.

(** X3. Whatever the food name and the category label,
    [find_category_id] returns the default category id (1) or the id
    of a row of [food_categories]: the synonym table and the brand
    table never introduce an id of their own. *)
Theorem find_category_id_range (cats : list (Z * string))
    (food_name category_name : string) :
  let r := find_category_id (build_category_mappings cats)
             food_name category_name in
  r.1 = default_category_id ∨ r.1 ∈ cats.*1.
Proof. apply find_category_id_valid. Qed.


(** ** The food import *)

Lemma for_each_app {I A} (body : I → A → outcome A) xs ys a :
  for_each body (xs ++ ys) a = obind (for_each body xs a) (for_each body ys).
Proof.
  revert a; induction xs as [|x xs IH]; intros a; simpl; [done|].
  destruct (body x a); simpl; [apply IH|done].
Qed.

(** A property kept by every iteration, however it ends, holds
    however the loop ends. *)
Lemma for_each_inv {I A} (P : A → Prop) (body : I → A → outcome A) xs a :
  (∀ x a, P a → match body x a with Done a' | Raised a' => P a' end) →
  P a → match for_each body xs a with Done a' | Raised a' => P a' end.
Proof.
  intros Hstep. revert a; induction xs as [|x xs IH]; intros a Ha; simpl;
    [done|].
  specialize (Hstep x a Ha). destruct (body x a); simpl; [by apply IH|done].
Qed.

Lemma insert_food_ok cats seq0 fdc name cid fs seq fs' seq' :
  insert_food cats fdc name cid fs seq = Some (fs', seq') →
  foods_table_ok cats seq0 fs seq → foods_table_ok cats seq0 fs' seq'.
Proof.
  unfold insert_food. destruct fdc as [z|], name as [nm|]; try done.
  destruct (bool_decide_reflect (cid ∈ cats.*1)) as [Hc|]; [|done].
  intros [= <- <-] (Hseq & Hid & Hfdc & Hall).
  assert (filter (λ f, f_fdc_id f ≠ z) fs `sublist_of` fs) as Hsub
    by apply sublist_filter.
  rewrite Forall_forall in Hall.
  refine (conj _ (conj _ (conj _ _))).
  - lia.
  - rewrite fmap_app. apply NoDup_app. split; [|split].
    + eapply sublist_NoDup; [exact Hid|by apply fmap_sublist].
    + intros x [f [Hx Hf]]%list_elem_of_fmap Hx'.
      apply list_elem_of_singleton in Hx'. simpl in Hx'.
      apply list_elem_of_filter in Hf as [_ Hf]. apply Hall in Hf. lia.
    + apply NoDup_singleton.
  - rewrite fmap_app. apply NoDup_app. split; [|split].
    + eapply sublist_NoDup; [exact Hfdc|by apply fmap_sublist].
    + intros x [f [Hx Hf]]%list_elem_of_fmap Hx'.
      apply list_elem_of_singleton in Hx'. simpl in Hx'.
      apply list_elem_of_filter in Hf as [Hf _]. congruence.
    + apply NoDup_singleton.
  - apply Forall_app. split.
    + apply Forall_forall. intros f [_ Hf]%list_elem_of_filter.
      apply Hall in Hf as [? ?]. split; [lia|done].
    + apply Forall_singleton. simpl. split; [lia|done].
Qed.

(** What the import leaves on disk, however it ends: the tables the
    opening DELETE statements emptied, and a food table that satisfies
    the schema. *)
Lemma import_foundation_foods_disk self rows d :
  ∃ fs seq,
    outcome_db (import_foundation_foods self rows d)
    = set_foods fs seq (clear_for_foods d)
    ∧ foods_table_ok (food_categories d) (foods_seq d) fs seq.
Proof.
  unfold import_foundation_foods.
  set (d0 := clear_for_foods d).
  set (P := λ st : foods_state,
         foods_table_ok (food_categories d) (foods_seq d)
                        (fs_foods st) (fs_seq st)
         ∧ ∃ fs seq, fs_disk st = set_foods fs seq d0
                     ∧ foods_table_ok (food_categories d) (foods_seq d)
                                      fs seq).
  assert (foods_table_ok (food_categories d) (foods_seq d) [] (foods_seq d))
    as Hnil.
  { refine (conj _ (conj _ (conj _ _))); [lia|constructor|constructor|done]. }
  pose proof (for_each_inv P (import_food_row self d0) rows
                (mk_foods_state [] (foods_seq d0) 0 d0)) as Hloop.
  destruct (for_each _ rows _) as [st|st]; simpl.
  - destruct Hloop as [Hok _]; [| |by eauto].
    2:{ split; [done|]. by exists [], (foods_seq d). }
    clear. intros r st [Hok Hdisk]. unfold import_food_row.
    destruct (category_label _); [|done].
    destruct (insert_food _ _ _ _ _ _) as [[fs seq]|] eqn:E; [|done].
    apply (insert_food_ok _ (foods_seq d)) in E; [|done].
    destruct (_ =? 0); (split; [done|]); [by exists fs, seq|done].
  - destruct Hloop as [_ Hdisk]; [| |done].
    2:{ split; [done|]. by exists [], (foods_seq d). }
    clear. intros r st [Hok Hdisk]. unfold import_food_row.
    destruct (category_label _); [|done].
    destruct (insert_food _ _ _ _ _ _) as [[fs seq]|] eqn:E; [|done].
    apply (insert_food_ok _ (foods_seq d)) in E; [|done].
    destruct (_ =? 0); (split; [done|]); [by exists fs, seq|done].
Qed.

(** *** Which files are imported *)

Lemma import_food_rows_total cats0 d0 rows st :
  cats0.*1 ⊆ (food_categories d0).*1 →
  default_category_id ∈ (food_categories d0).*1 →
  Forall (λ r, ¬ row_must_fail r) rows →
  ∃ st', for_each (import_food_row (build_category_mappings cats0) d0)
           rows st = Done st'.
Proof.
  intros Hsub Hdef Hrows. revert st.
  induction Hrows as [|r rows Hr Hrows IH]; intros st; simpl; [eauto|].
  unfold import_food_row at 1.
  destruct (category_label _) as [label|] eqn:El;
    [|destruct Hr; unfold row_must_fail; auto].
  unfold insert_food.
  destruct (fc_fdc_id r) as [fdc|] eqn:Ef;
    [|destruct Hr; unfold row_must_fail; auto].
  destruct (fc_description r) as [name|] eqn:En;
    [|destruct Hr; unfold row_must_fail; auto].
  rewrite bool_decide_eq_true_2.
  - destruct (_ =? 0); simpl; apply IH.
  - destruct (find_category_id_valid cats0 (default EmptyString (Some name))
                label) as [->|Hin]; [done|by apply Hsub].
Qed.

(** *** What the table holds *)

Lemma food_of_row_fdc self seq0 i r f :
  food_of_row self seq0 i r = Some f → fc_fdc_id r = Some (f_fdc_id f).
Proof.
  unfold food_of_row.
  destruct (fc_fdc_id r), (fc_description r),
    (category_label (fc_food_category_id r)); try done.
  by intros [= <-].
Qed.

Lemma import_food_rows_table self d0 seq0 rows st :
  for_each (import_food_row self d0) rows (mk_foods_state [] seq0 0 d0)
  = Done st →
  fs_seq st = (seq0 + Z.of_nat (length rows))%Z ∧
  ∀ f, f ∈ fs_foods st ↔
       ∃ i r, last_of_fdc rows i r ∧ food_of_row self seq0 i r = Some f.
Proof.
  revert st. induction rows as [|r pre IH] using rev_ind; intros st.
  - intros [= <-]. simpl. split; [lia|]. intros f. split.
    + by intros ?%elem_of_nil.
    + by intros (i & r & [? _] & _).
  - rewrite for_each_app.
    destruct (for_each _ pre _) as [st1|] eqn:Hpre; [|done].
    destruct (IH st1 eq_refl) as [Hseq Hmem]. clear IH Hpre.
    simpl. unfold import_food_row.
    destruct (category_label _) as [label|] eqn:El; [|done].
    unfold insert_food.
    destruct (fc_fdc_id r) as [fdc|] eqn:Ef; [|done].
    destruct (fc_description r) as [name|] eqn:En; [|done].
    destruct (bool_decide _); [|done].
    set (new := mk_food (fs_seq st1 + 1) fdc name _ 100 "g" 1).
    assert (food_of_row self seq0 (length pre) r = Some new) as Hnew.
    { unfold food_of_row. rewrite Ef, En, El. subst new. by rewrite Hseq. }
    intros Hst.
    assert (fs_seq st = (fs_seq st1 + 1)%Z
            ∧ fs_foods st
              = filter (λ f, f_fdc_id f ≠ fdc) (fs_foods st1) ++ [new])
      as [Hseq' Hfs] by (revert Hst; destruct (_ =? 0); by intros [= <-]).
    clear Hst. rewrite Hseq', Hfs, length_app. simpl.
    split; [lia|]. intros f.
    rewrite elem_of_app, list_elem_of_filter, list_elem_of_singleton, Hmem.
    split.
    + intros [[Hne (i & r' & [Hi Hlast] & Hf)]| ->].
      * exists i, r'. split; [|done].
        assert (i < length pre) by by eapply lookup_lt_Some.
        split; [by apply lookup_app_l_Some|].
        intros j r'' Hij [[_ Hj]|[_ <-]]%lookup_snoc_Some; [by eauto|].
        rewrite Ef, (food_of_row_fdc _ _ _ _ _ Hf). intros [= Heq].
        by apply Hne.
      * exists (length pre), r. split; [|done].
        split; [by apply list_lookup_middle|].
        intros j r' Hj Hr'. apply lookup_lt_Some in Hr'.
        rewrite length_app in Hr'. simpl in Hr'. lia.
    + intros (i & r' & [Hi Hlast] & Hf).
      apply lookup_snoc_Some in Hi as [[Hlt Hi]|[-> <-]].
      * left. split.
        -- specialize (Hlast (length pre) r Hlt
                         (list_lookup_middle _ _ _ _ eq_refl)).
           rewrite Ef, (food_of_row_fdc _ _ _ _ _ Hf) in Hlast.
           intros Heq. apply Hlast. by rewrite Heq.
        -- exists i, r'. split; [|done]. split; [done|].
           intros j r'' Hij Hj. apply (Hlast j r'' Hij).
           by apply lookup_app_l_Some.
      * right. rewrite Hnew in Hf. by injection Hf.
Qed.

(** X8. When [import_foundation_foods] returns, [foods] holds one food
    per fdc_id of the file, taken from the last row with that fdc_id:
    its name is the description of that row, its category the one the
    classifier gives for that row, its serving 100 g and its quality
    score 1.  Its id is the sequence value the import found plus the
    position (from 1) of that row in the file: an earlier row with the
    same fdc_id is replaced and its id is not used again, so the
    sequence advances by the number of rows of the file. *)
Theorem import_foundation_foods_table (self : mappings)
    (rows : list food_csv_row) (d d' : db) :
  import_foundation_foods self rows d = Done d' →
  foods_seq d' = (foods_seq d + Z.of_nat (length rows))%Z ∧
  ∀ f, f ∈ foods d' ↔
       ∃ i r, last_of_fdc rows i r
              ∧ food_of_row self (foods_seq d) i r = Some f.
Proof.
  unfold import_foundation_foods.
  destruct (for_each _ rows _) as [st|] eqn:Hrun; [|done].
  intros [= <-]. simpl.
  by apply (import_food_rows_table self (clear_for_foods d)).
Qed.

(** The sample food file on the sample database: ids 3 and 5, the
    second row for fdc_id 101 replacing the first. *)
Lemma import_foundation_foods_table_witness :
  import_foundation_foods (build_category_mappings sample_categories)
    sample_food_rows sample_db
  = Done (outcome_db
            (import_foundation_foods
               (build_category_mappings sample_categories)
               sample_food_rows sample_db))
  ∧ foods_seq (outcome_db
                 (import_foundation_foods
                    (build_category_mappings sample_categories)
                    sample_food_rows sample_db)) = 5%Z.
Proof.
  assert (import_foundation_foods
            (build_category_mappings sample_categories)
            sample_food_rows sample_db
          = Done (outcome_db
                    (import_foundation_foods
                       (build_category_mappings sample_categories)
                       sample_food_rows sample_db))) as Hrun
    by (vm_compute; reflexivity).
  split; [exact Hrun|].
  by rewrite (proj1 (import_foundation_foods_table _ _ _ _ Hrun)).
Defined.


(** ** Resumed runs *)

Lemma holds_facts_of_view fs file fn :
  view_agrees fs file (length file) ∅ fn → holds_facts_of fs file fn.
Proof.
  intros Hv fid nid v.
  rewrite (view_agrees_lookup _ _ _ _ fid nid v Hv).
  by rewrite take_ge.
Qed.

Lemma view_of_holds_facts fs file fn :
  NoDup (f_id <$> fs) →
  holds_facts_of fs file fn → view_agrees fs file (length file) ∅ fn.
Proof.
  intros Hpk Hfn. split.
  - intros f nid Hf. rewrite lookup_empty, take_ge by done. simpl.
    destruct (fn !! (f_id f, nid)) as [v|] eqn:E.
    + apply Hfn in E as (f' & a & Hf' & Hid & Hl & ->).
      assert (f' = f) as -> by by eapply food_by_id_unique.
      by rewrite Hl.
    + destruct (last_amount _ file) as [a|] eqn:El; [|done].
      assert (fn !! (f_id f, nid) = Some (mk_fact a 1)) as E'
        by (apply Hfn; by exists f, a).
      by rewrite E in E'.
  - intros fid nid Hno. destruct (fn !! (fid, nid)) as [v|] eqn:E; [|done].
    apply Hfn in E as (f & a & Hf & Hid & _). by destruct (Hno f Hf).
Qed.

(** The rows [a..b) of a list. *)
Lemma take_drop_segment {A} (l : list A) (a b c : nat) :
  a ≤ b ≤ c →
  take (c - a) (drop a l) = take (b - a) (drop a l) ++ take (c - b) (drop b l).
Proof.
  intros H. replace (c - a) with ((b - a) + (c - b)) by lia.
  rewrite take_add_drop, drop_drop. do 3 f_equal. lia.
Qed.

Section Resumed.
Variables (batch_size checkpoint_interval : nat).
Variable rows : list fact_row.
Variable d : db.
Hypothesis batch_size_pos : 0 < batch_size.
Hypothesis foods_pk : NoDup (f_id <$> foods d).
(** The facts the table held when the run began, as a file, and the
    offset at which the run began. *)
Variable hist : list fact_row.
Variable s : nat.

Local Abbreviation Nrows := (total_rows rows).
Local Abbreviation body :=
  (import_batch batch_size checkpoint_interval rows d).
Local Abbreviation batch_at i := (slice rows i (min (i + batch_size) Nrows)).
(** The file whose facts the tables hold once the rows before [p] are
    staged. *)
Local Abbreviation seen := (hist ++ drop s rows).
Local Abbreviation upto p := (length hist + (p - s)).

(** The loop from offset [s] on: the invariant is only asked to be
    kept by batches that start at [s] or later. *)
Lemma batch_loop_rule_from (Inv : nat → run_state → Prop) :
  (∀ i st st' p, s ≤ i → i < Nrows →
     i ≤ p ≤ Nrows `min` (2 * i + batch_size) →
     Inv p st → body i st = Done st' →
     Inv (i + length (batch_at i)) st') →
  ∀ fuel i st st' p,
    s ≤ i → Nrows - i ≤ fuel →
    i `min` Nrows ≤ p ≤ Nrows `min` (2 * i + batch_size) →
    Inv p st →
    for_each body (range_aux fuel i Nrows batch_size) st = Done st' →
    Inv Nrows st'.
Proof.
  intros Hstep. induction fuel as [|fuel IH]; intros i st st' p Hs Hf Hp HI.
  - simpl. intros [= <-]. by replace Nrows with p by lia.
  - simpl. destruct (Nat.ltb_spec i Nrows) as [Hlt|Hge].
    + simpl. destruct (body i st) as [st1|st1] eqn:E; simpl; [|done].
      pose proof (batch_at_length batch_size rows batch_size_pos i Hlt)
        as (Hpos & Hle & Hmin).
      pose proof (batch_at_length_le batch_size rows batch_size_pos i)
        as Hle2.
      apply (IH (i + batch_size) st1 st' (i + length (batch_at i)));
        [lia|lia|lia|].
      eapply Hstep; [done|done| |done|done]. lia.
    + intros [= <-]. by replace Nrows with p by lia.
Qed.

Lemma stage_view_from i st vs p :
  s ≤ i → i ≤ p ≤ Nrows `min` (2 * i + batch_size) →
  batch_values (batch_at i) = Some vs →
  view_agrees (foods d) seen (upto p) (w_temp st) (w_fn st) →
  view_agrees (foods d) seen (upto (i + length (batch_at i)))
              (stage vs (w_temp st)) (w_fn st).
Proof.
  intros Hs Hp Hvs [Hv Ho]. split; [|done].
  intros f nid Hf. specialize (Hv f nid Hf).
  rewrite take_app_add in *. rewrite last_amount_app in *.
  assert (take (i + length (batch_at i) - s) (drop s rows)
          = take (i - s) (drop s rows) ++ batch_at i) as ->.
  { rewrite (take_drop_segment rows s i) by lia. f_equal.
    replace (i + length (batch_at i) - i) with (length (batch_at i)) by lia.
    unfold slice. apply take_length_take. }
  rewrite (take_drop_segment rows s i p) in Hv by lia.
  rewrite last_amount_app in *.
  rewrite (stage_lookup _ _ _ _ Hvs).
  destruct (last_amount _ (batch_at i)) as [a|] eqn:E; simpl; [done|].
  rewrite Hv.
  assert (last_amount (f_fdc_id f, nid) (take (p - i) (drop i rows)) = None)
    as ->; [|done].
  unfold slice in E.
  rewrite <- (take_drop (p - i) (take _ (drop i rows))) in E.
  apply last_amount_app_None in E as [E _].
  rewrite take_take in E.
  by rewrite (Nat.min_l (p - i) ((i + batch_size) `min` Nrows)) in E by
    (unfold total_rows in *; lia).
Qed.

Lemma import_batch_view_from i st st' p :
  s ≤ i → i < Nrows → i ≤ p ≤ Nrows `min` (2 * i + batch_size) →
  view_agrees (foods d) seen (upto p) (w_temp st) (w_fn st) →
  body i st = Done st' →
  view_agrees (foods d) seen (upto (i + length (batch_at i)))
              (w_temp st') (w_fn st').
Proof.
  intros Hs Hi Hp Hv. unfold import_batch.
  destruct (batch_values _) as [vs|] eqn:Hvs; [|done].
  pose proof (stage_view_from i st vs p Hs Hp Hvs Hv) as Hv'.
  destruct (_ <? _).
  - destruct (flush _ _ _ _) as [fn'|] eqn:Hfl; [|done].
    intros [= <-]. simpl. by eapply (flush_view seen d foods_pk st).
  - by intros [= <-].
Qed.

(** The loop, started at offset [s] on tables that hold the facts of
    [hist], ends with tables that hold the facts of [hist] followed by
    the rows of the file from [s] on. *)
Lemma loop_view_from st0 st :
  view_agrees (foods d) hist (length hist) (w_temp st0) (w_fn st0) →
  for_each body (py_range s Nrows batch_size) st0 = Done st →
  view_agrees (foods d) seen (length seen) (w_temp st) (w_fn st).
Proof.
  intros Hv0 Hrun. unfold py_range in Hrun.
  assert (view_agrees (foods d) seen (upto (s `min` Nrows))
            (w_temp st0) (w_fn st0)) as Hv.
  { destruct Hv0 as [Hv0 Ho]. split; [|done]. intros f nid Hf.
    rewrite (Hv0 f nid Hf). do 2 f_equal.
    replace (s `min` Nrows - s) with 0 by lia.
    rewrite Nat.add_0_r, take_app_length. by rewrite take_ge by lia. }
  pose proof (batch_loop_rule_from
                (λ p st,
                   view_agrees (foods d) seen (upto p) (w_temp st) (w_fn st))
                import_batch_view_from (Nrows - s) s st0 st (s `min` Nrows))
    as Hend.
  destruct Hend as [Hend Ho]; [lia|lia|lia|done|done|].
  split; [|done]. intros f nid Hf. rewrite (Hend f nid Hf). do 2 f_equal.
  by rewrite !take_ge by
    (rewrite !length_app, !length_drop; unfold total_rows; lia).
Qed.
End Resumed.

(** The temporary table a resumed run starts from holds what the fact
    table holds. *)
Lemma reload_view fs ns hist fn :
  foods_wf fs → holds_facts_of fs hist fn → loadable fs ns hist →
  ∃ temp, reload fs fn = Some temp
          ∧ view_agrees fs hist (length hist) temp fn
          ∧ temp_valid fs ns temp.
Proof.
  intros [Hpk Hfdc] Hfn Hload.
  destruct (reload_lookup fs fn (conj Hpk Hfdc)) as (temp & Hre & Ht).
  exists temp. split; [done|].
  pose proof (view_of_holds_facts fs hist fn Hpk Hfn) as [Hv Ho].
  split; [split; [|done]|].
  - intros f nid Hf. rewrite <- (Hv f nid Hf), lookup_empty. simpl.
    destruct (temp !! (f_fdc_id f, nid)) as [a|] eqn:Ha; simpl; [|done].
    apply Ht in Ha as (f' & r & Hf' & Hfdc' & Hr & ->).
    assert (f' = f) as -> by by eapply food_by_fdc_unique.
    rewrite Hr. apply Hfn in Hr as (f' & a & _ & _ & _ & ->). done.
  - intros fdc nid [a Ha] Hin.
    apply Ht in Ha as (f & r & Hf & <- & Hr & ->).
    apply Hfn in Hr as (f' & a & Hf' & Hid & Hl & _).
    assert (f' = f) as -> by by eapply food_by_id_unique.
    apply last_amount_Some_elem in Hl as (r' & Hr' & Hkey & Hq).
    destruct (Hload r' Hr') as [_ Hval]. injection Hkey as Hk1 <-.
    apply Hval. split; [by rewrite Hq|]. by rewrite Hk1.
Qed.

(** A run that resumes at offset [s] on tables holding the facts of
    [hist] returns on a loadable file and then holds the facts of
    [hist] followed by the rows from [s] on. *)
Lemma resumed_run_view (batch_size checkpoint_interval : nat)
    (rows hist : list fact_row) (d : db) temp0 :
  0 < batch_size → NoDup (f_id <$> foods d) →
  0 < start_position (import_checkpoint d) →
  reload (foods d) (food_nutrients d) = Some temp0 →
  view_agrees (foods d) hist (length hist) temp0 (food_nutrients d) →
  temp_valid (foods d) (nutrients d) temp0 →
  loadable (foods d) (nutrients d) rows →
  ∃ d', import_nutrient_data_with batch_size checkpoint_interval rows d
        = Done d'
        ∧ view_agrees (foods d)
            (hist ++ drop (start_position (import_checkpoint d)) rows)
            (length
               (hist ++ drop (start_position (import_checkpoint d)) rows))
            ∅ (food_nutrients d').
Proof.
  intros HB Hpk Hs Hre Hv0 Htv0 Hload.
  assert (begin_import d
          = Some (mk_run (food_nutrients d) (import_checkpoint d) temp0 d))
    as Hbegin.
  { unfold begin_import.
    destruct (Nat.ltb_spec 0 (start_position (import_checkpoint d)));
      [|lia]. by rewrite Hre. }
  destruct (run_from_total batch_size checkpoint_interval rows d
              (mk_run (food_nutrients d) (import_checkpoint d) temp0 d)
              Hload Htv0 Hbegin) as (st & d' & Hloop & Hrun & Hfin).
  exists d'. split; [done|].
  apply (loop_view_from batch_size checkpoint_interval rows d HB
           Hpk hist) in Hloop; [|done].
  revert Hfin. unfold finish_import.
  destruct (flush _ _ _ _) as [fn'|] eqn:Hfl; [|done].
  intros [= <-]. simpl.
  by eapply (flush_view _ d Hpk st).
Qed.


Lemma reload_empty fs : reload fs ∅ = Some ∅.
Proof. unfold reload, reload_join. by rewrite map_to_list_empty. Qed.



Lemma run_Done_frame batch_size checkpoint_interval rows d d' :
  import_nutrient_data_with batch_size checkpoint_interval rows d = Done d' →
  foods d' = foods d ∧ nutrients d' = nutrients d.
Proof.
  unfold import_nutrient_data_with.
  destruct (begin_import d) as [st0|]; [|done].
  destruct (for_each _ _ _) as [st|]; [|done].
  unfold finish_import. destruct (flush _ _ _ _); [|done].
  by intros [= <-].
Qed.

(** X11. Importing the same file again changes nothing.  After a run
    of [import_nutrient_data] that started afresh and returned, a
    second run on the same file returns with the same [food_nutrients]
    table, whether it starts afresh (no in-progress row was logged) or
    resumes from the last in-progress row the first run left in the
    log. *)
Theorem import_twice_same_table (batch_size checkpoint_interval : nat)
    (rows : list fact_row) (d d1 : db) :
  0 < batch_size →
  foods_wf (foods d) →
  no_in_progress (import_checkpoint d) →
  import_nutrient_data_with batch_size checkpoint_interval rows d = Done d1 →
  ∃ d2, import_nutrient_data_with batch_size checkpoint_interval rows d1
        = Done d2
        ∧ food_nutrients d2 = food_nutrients d1.
Proof.
  intros HB Hwf Hno Hrun.
  destruct (fresh_run_Done batch_size checkpoint_interval rows HB d d1
              (proj1 Hwf) Hno Hrun) as [Hv1 Hload].
  destruct (run_Done_frame _ _ _ _ _ Hrun) as [Hf1 Hn1].
  rewrite <- Hf1 in Hwf, Hv1. rewrite <- Hf1, <- Hn1 in Hload.
  destruct (Nat.eq_dec (start_position (import_checkpoint d1)) 0) as [Hz|Hnz].
  - (* the second run starts afresh *)
    assert (begin_import d1 = Some (mk_run ∅ (import_checkpoint d1) ∅ d1))
      as Hbegin by (unfold begin_import; by rewrite Hz).
    destruct (run_from_total batch_size checkpoint_interval rows d1
                (mk_run ∅ (import_checkpoint d1) ∅ d1) Hload
                (temp_valid_empty _ _) Hbegin)
      as (st & d2 & Hloop & Hrun2 & Hfin).
    exists d2. split; [done|].
    unfold batch_offsets in Hloop. rewrite Hz in Hloop.
    apply (loop_view batch_size checkpoint_interval rows HB d1 0) in Hloop;
      [|apply Hwf|lia|apply view_agrees_initial].
    apply finish_import_Done in Hfin as [Hv2 _]; [|apply Hwf|done].
    by eapply view_agrees_unique.
  - (* the second run resumes *)
    pose proof (holds_facts_of_view _ _ _ Hv1) as Hfn1.
    destruct (reload_view _ _ _ _ Hwf Hfn1 Hload)
      as (temp0 & Hre & Hv0 & Htv0).
    destruct (resumed_run_view batch_size checkpoint_interval rows rows d1
                temp0 HB (proj1 Hwf) ltac:(lia) Hre Hv0 Htv0 Hload)
      as (d2 & Hrun2 & Hv2).
    exists d2. split; [done|].
    eapply view_agrees_ext; [|exact Hv2|exact Hv1].
    intros k. unfold total_rows. rewrite !take_ge by done.
    rewrite last_amount_app.
    assert (last_amount k rows
            = or_else
                (last_amount k
                   (drop (start_position (import_checkpoint d1)) rows))
                (last_amount k
                   (take (start_position (import_checkpoint d1)) rows)))
      as -> by (rewrite <- last_amount_app; by rewrite take_drop).
    by destruct (last_amount k (drop _ rows)).
Qed.

(** ** Runs that do not return *)

Lemma for_each_Raised {I A} (body : I → A → outcome A) xs a a' :
  for_each body xs a = Raised a' →
  ∃ j x a'', xs !! j = Some x
             ∧ for_each body (take j xs) a = Done a''
             ∧ body x a'' = Raised a'.
Proof.
  revert a; induction xs as [|x xs IH]; intros a; simpl; [done|].
  destruct (body x a) as [a1|a1] eqn:E; simpl.
  - intros (j & y & a'' & Hj & Hpre & Hy)%IH.
    exists (S j), y, a''. simpl. by rewrite E.
  - intros [= <-]. by exists 0, x, a.
Qed.

(** X13. A run that raises never marks the import completed: the log
    on disk is the log the run found followed by in-progress rows with
    positive offsets only, and the dimension tables are untouched. *)
Theorem failed_import_log (batch_size checkpoint_interval : nat)
    (rows : list fact_row) (d d' : db) :
  0 < batch_size →
  import_nutrient_data_with batch_size checkpoint_interval rows d
  = Raised d' →
  (∃ new, import_checkpoint d' = import_checkpoint d ++ new
          ∧ Forall progress_row new)
  ∧ foods d' = foods d ∧ nutrients d' = nutrients d
  ∧ food_categories d' = food_categories d.
Proof.
  intros HB. unfold import_nutrient_data_with.
  destruct (begin_import d) as [st0|] eqn:Hbegin.
  2:{ intros [= <-]. split; [|done]. exists []. by rewrite app_nil_r. }
  assert (w_log st0 = import_checkpoint d ∧ on_disk st0 = d) as [Hlog0 Hdisk0].
  { revert Hbegin. unfold begin_import.
    destruct (if 0 <? _ then _ else _); [|done]. by intros [= <-]. }
  assert (log_extends (import_checkpoint d) st0) as Hext0.
  { split; exists []; rewrite app_nil_r; [done|by rewrite Hdisk0]. }
  pose proof (loop_log_any batch_size checkpoint_interval rows HB d
                (import_checkpoint d)
                (total_rows rows - start_position (import_checkpoint d))
                (total_rows rows - start_position (import_checkpoint d))
                (start_position (import_checkpoint d)) st0 Hext0) as Hloop.
  rewrite take_ge in Hloop by apply range_aux_length_le.
  unfold batch_offsets, py_range.
  destruct (for_each _ _ _) as [st|st].
  - unfold finish_import. destruct (flush _ _ _ _); [done|].
    intros [= <-]. by destruct Hloop as [Hw _].
  - intros [= <-]. by destruct Hloop as [Hw _].
Qed.

(** ** Concrete runs of the extended contract *)

Lemma sample_rows_loadable :
  loadable (foods sample_db) (nutrients sample_db) sample_rows.
Proof.
  intros r Hr. unfold sample_rows in Hr.
  repeat (apply elem_of_cons in Hr as [->|Hr]); try by apply elem_of_nil in Hr.
  all: split; [exact I|intros _; compute_done].
Defined.






(** The sample file imported twice in batches of 2 with a checkpoint
    interval of 3: the second run resumes at offset 6. *)
Lemma import_twice_same_table_witness :
  (0 < 2 ∧ foods_wf (foods sample_db)
   ∧ no_in_progress (import_checkpoint sample_db)
   ∧ import_nutrient_data_with 2 3 sample_rows sample_db
     = Done (outcome_db (import_nutrient_data_with 2 3 sample_rows
                           sample_db))) ∧
  ∃ d2, import_nutrient_data_with 2 3 sample_rows
          (outcome_db (import_nutrient_data_with 2 3 sample_rows sample_db))
        = Done d2
        ∧ food_nutrients d2
          = food_nutrients
              (outcome_db
                 (import_nutrient_data_with 2 3 sample_rows sample_db)).
Proof.
  assert (import_nutrient_data_with 2 3 sample_rows sample_db
          = Done (outcome_db (import_nutrient_data_with 2 3 sample_rows
                                sample_db))) as Hrun
    by (vm_compute; reflexivity).
  split.
  - exact (conj (Nat.lt_0_succ _)
             (conj sample_foods_wf (conj sample_log_fresh Hrun))).
  - exact (import_twice_same_table 2 3 sample_rows sample_db _
             (Nat.lt_0_succ _) sample_foods_wf sample_log_fresh Hrun).
Defined.

(** The file with a malformed amount in its second row. *)
Lemma failed_import_log_witness :
  (0 < 2
   ∧ import_nutrient_data_with 2 3 sample_bad_rows sample_db
     = Raised (outcome_db (import_nutrient_data_with 2 3 sample_bad_rows
                             sample_db))) ∧
  ∃ new, import_checkpoint
           (outcome_db (import_nutrient_data_with 2 3 sample_bad_rows
                          sample_db))
         = import_checkpoint sample_db ++ new
         ∧ Forall progress_row new.
Proof.
  assert (import_nutrient_data_with 2 3 sample_bad_rows sample_db
          = Raised (outcome_db (import_nutrient_data_with 2 3 sample_bad_rows
                                  sample_db))) as Hrun
    by (vm_compute; reflexivity).
  split; [exact (conj (Nat.lt_0_succ _) Hrun)|].
  exact (proj1 (failed_import_log 2 3 sample_bad_rows sample_db _
                  (Nat.lt_0_succ _) Hrun)).
Defined.

(** ** The integrity report *)

Lemma filter_ext_in {A} (P1 P2 : A → Prop)
    `{∀ x, Decision (P1 x)} `{∀ x, Decision (P2 x)} (l : list A) :
  (∀ x, x ∈ l → P1 x ↔ P2 x) → filter P1 l = filter P2 l.
Proof.
  induction l as [|x l IH]; intros Heq; [done|].
  rewrite !filter_cons.
  assert (filter P1 l = filter P2 l) as ->
    by (apply IH; intros y Hy; apply Heq; by right).
  destruct (decide (P1 x)) as [H1|H1], (decide (P2 x)) as [H2|H2]; try done.
  - destruct H2. apply Heq; [by left|done].
  - destruct H1. apply Heq; [by left|done].
Qed.

Lemma filter_none {A} (P : A → Prop) `{∀ x, Decision (P x)} (l : list A) :
  (∀ x, x ∈ l → ¬ P x) → filter P l = [].
Proof.
  induction l as [|x l IH]; intros Hno; [done|].
  rewrite filter_cons, decide_False by (apply Hno; by left).
  apply IH. intros y Hy. apply Hno. by right.
Qed.

Lemma verify_missing d :
  dict_get "foods missing density scores" (verify_data_integrity d)
  = Some (missing_scores d).
Proof. unfold verify_data_integrity. by rewrite dict_get_set. Qed.

Lemma verify_orphaned d :
  dict_get "orphaned records" (verify_data_integrity d)
  = Some (orphaned_records d).
Proof. unfold verify_data_integrity. by rewrite !dict_get_set. Qed.

Lemma engine_foods d : foods (update_rankings_and_scores d) = foods d.
Proof. done. Qed.

(** X14. The report at the end of [update_rankings_and_scores].  The
    foods that [verify_data_integrity] counts as missing a density
    score after a call are the foods that had no row in
    [common_nutrients_mv] before it: the scores are computed before
    the view is refreshed.  After a second call in a row no food is
    missing. *)
Theorem verify_after_engine (d : db) :
  dict_get "foods missing density scores"
    (verify_data_integrity (update_rankings_and_scores d))
  = Some (length (filter (λ f, common_nutrients_mv d !! f_id f = None)
                         (foods d)))
  ∧ dict_get "foods missing density scores"
      (verify_data_integrity
         (update_rankings_and_scores (update_rankings_and_scores d)))
    = Some 0.
Proof.
  assert (∀ d0,
    missing_scores (update_rankings_and_scores d0)
    = length (filter (λ f, common_nutrients_mv d0 !! f_id f = None)
                     (foods d0))) as Hone.
  { intros d0. unfold missing_scores.
    rewrite engine_scores_from_previous_view, engine_foods.
    f_equal. apply filter_ext_in. intros f _.
    rewrite lookup_fmap. by destruct (common_nutrients_mv d0 !! f_id f). }
  rewrite !verify_missing, !Hone. split; [done|].
  rewrite engine_foods. f_equal.
  rewrite filter_none; [done|].
  intros f Hf Hnone.
  apply not_elem_of_list_to_map_2 in Hnone. apply Hnone.
  rewrite <- list_fmap_compose.
  by apply (list_elem_of_fmap_2 (f_id : food → Z)).
Qed.

(** *** Orphaned facts *)

Lemma orphaned_records_zero d :
  orphaned_records d = 0 ↔ no_orphans (foods d) (food_nutrients d).
Proof.
  unfold orphaned_records, no_orphans. split.
  - intros Hlen fid nid [v Hv].
    apply length_zero_iff_nil in Hlen.
    destruct (decide (fid ∈ f_id <$> foods d)) as [|Hout]; [done|].
    apply elem_of_map_to_list in Hv.
    by destruct (filter_nil_not_elem_of _ _ ((fid, nid), v) Hlen Hout).
  - intros Hno. rewrite filter_none; [done|].
    intros [[fid nid] v] Hv%elem_of_map_to_list Hout. apply Hout.
    simpl. by eapply Hno.
Qed.

Lemma flush_no_orphans fs ns temp fn fn' :
  flush fs ns temp fn = Some fn' → no_orphans fs fn → no_orphans fs fn'.
Proof.
  intros Hfl Hno fid nid Hsome.
  destruct (decide (fid ∈ f_id <$> fs)) as [|Hout]; [done|].
  rewrite (flush_lookup_other fs ns temp fn fn' fid nid) in Hsome;
    [by eapply Hno| |done].
  intros f Hf <-. apply Hout. by apply list_elem_of_fmap_2.
Qed.

Lemma import_keeps_no_orphans batch_size checkpoint_interval rows d j :
  no_orphans (foods d) (food_nutrients d) →
  let keeps d' :=
    foods d' = foods d ∧ no_orphans (foods d) (food_nutrients d') in
  keeps (outcome_db
           (import_nutrient_data_with batch_size checkpoint_interval rows d))
  ∧ keeps (interrupted_after batch_size checkpoint_interval rows j d).
Proof.
  intros Hd keeps.
  set (P := λ st : run_state,
         no_orphans (foods d) (w_fn st) ∧ keeps (on_disk st)).
  assert (∀ st, P st → keeps (commit_run d st)) as Hcommit
    by (by intros st [? _]).
  assert (∀ xs st0, P st0 →
            match for_each (import_batch batch_size checkpoint_interval
                              rows d) xs st0 with
            | Done st | Raised st => P st
            end) as Hloop.
  { intros xs st0. apply for_each_inv. clear. intros i st [Hfn Hdisk].
    unfold import_batch. destruct (batch_values _); [|done].
    destruct (_ <? _); [|done].
    destruct (flush _ _ _ _) as [fn'|] eqn:Hfl; [|done].
    apply flush_no_orphans in Hfl; [|done]. done. }
  assert (∀ st0, begin_import d = Some st0 → P st0) as Hbegin.
  { intros st0. unfold begin_import.
    destruct (0 <? _).
    - destruct (reload _ _); [|done]. by intros [= <-].
    - intros [= <-]. split; [|done]. intros fid nid [v Hv].
      simpl in Hv. by rewrite lookup_empty in Hv. }
  split.
  - unfold import_nutrient_data_with.
    destruct (begin_import d) as [st0|]; [|done].
    specialize (Hloop (batch_offsets batch_size rows d) st0 (Hbegin _ eq_refl)).
    destruct (for_each _ _ _) as [st|st]; simpl; [|by apply Hcommit].
    unfold finish_import.
    destruct (flush _ _ _ _) as [fn'|] eqn:Hfl; simpl; [|by apply Hcommit].
    split; [done|]. eapply flush_no_orphans; [done|apply Hloop].
  - unfold interrupted_after.
    destruct (begin_import d) as [st0|]; [|done].
    specialize (Hloop (take j (batch_offsets batch_size rows d)) st0
                  (Hbegin _ eq_refl)).
    destruct (for_each _ _ _) as [st|st]; [apply Hloop|by apply Hcommit].
Qed.

(** X15. [import_nutrient_data] never creates an orphaned fact: if
    [verify_data_integrity] reports no orphaned record before the
    import, it reports none after it, whether the run returns, raises
    or is killed after any number of batches. *)
Theorem import_leaves_no_orphans (batch_size checkpoint_interval : nat)
    (rows : list fact_row) (d : db) (j : nat) :
  dict_get "orphaned records" (verify_data_integrity d) = Some 0 →
  dict_get "orphaned records"
    (verify_data_integrity
       (outcome_db
          (import_nutrient_data_with batch_size checkpoint_interval rows d)))
  = Some 0
  ∧ dict_get "orphaned records"
      (verify_data_integrity
         (interrupted_after batch_size checkpoint_interval rows j d))
    = Some 0.
Proof.
  rewrite !verify_orphaned. intros [= Hd%orphaned_records_zero].
  destruct (import_keeps_no_orphans batch_size checkpoint_interval rows d j Hd)
    as [[Hf1 H1] [Hf2 H2]].
  rewrite <- Hf1 in H1. rewrite <- Hf2 in H2.
  apply orphaned_records_zero in H1, H2. by rewrite H1, H2.
Qed.

Lemma import_leaves_no_orphans_witness :
  dict_get "orphaned records" (verify_data_integrity sample_db) = Some 0
  ∧ dict_get "orphaned records"
      (verify_data_integrity
         (outcome_db (import_nutrient_data_with 2 3 sample_rows sample_db)))
    = Some 0.
Proof.
  assert (dict_get "orphaned records" (verify_data_integrity sample_db)
          = Some 0) as H0 by (vm_compute; reflexivity).
  exact (conj H0 (proj1 (import_leaves_no_orphans 2 3 sample_rows sample_db
                           0 H0))).
Defined.

(** ** The columns of the denormalised view *)

Lemma elem_of_food_group ns fn f fa n :
  (Some fa, Some n) ∈ food_group ns fn f ↔
  ∃ nid, fn !! (f_id f, nid) = Some fa ∧ n ∈ ns ∧ n_id n = nid.
Proof.
  unfold food_group.
  assert (∀ kv : (Z * Z) * fact,
            kv ∈ filter (λ kv : (Z * Z) * fact, kv.1.1 = f_id f)
                        (map_to_list fn)
            ↔ kv.1.1 = f_id f ∧ fn !! kv.1 = Some kv.2) as Hfacts.
  { intros [k v]. rewrite list_elem_of_filter, elem_of_map_to_list. done. }
  destruct (filter _ (map_to_list fn)) as [|kv0 rest] eqn:E.
  - split.
    + by intros [=]%list_elem_of_singleton.
    + intros (nid & Hfa & _).
      assert (((f_id f, nid), fa) ∈ @nil ((Z * Z) * fact)) as Hin
        by by apply Hfacts.
      by apply elem_of_nil in Hin.
  - rewrite list_elem_of_bind. split.
    + intros (kv & Hrow & Hkv). apply Hfacts in Hkv as [Hid Hkv].
      exists kv.1.2. destruct kv as [[fid nid] v]. simpl in *. subst fid.
      destruct (filter _ ns) as [|n0 matches] eqn:En.
      { by apply list_elem_of_singleton in Hrow. }
      assert (n ∈ n0 :: matches ∧ v = fa) as [Hn' ->].
      { apply elem_of_cons in Hrow as [[= -> ->]|Hrow];
          [split; [by left|done]|].
        apply list_elem_of_fmap in Hrow as (n' & [= -> ->] & Hn').
        split; [by right|done]. }
      rewrite <- En in Hn'. by apply list_elem_of_filter in Hn' as [? ?].
    + intros (nid & Hfa & Hn & Hnid).
      exists ((f_id f, nid), fa). split; [|by apply Hfacts].
      simpl.
      assert (n ∈ filter (λ n, n_id n = nid) ns) as Hin
        by by apply list_elem_of_filter.
      destruct (filter _ ns) as [|n0 matches]; [by apply elem_of_nil in Hin|].
      by apply (list_elem_of_fmap_2 (λ n, (Some fa, Some n)) (n0 :: matches)).
Qed.

(** Each headline column is the largest amount among the facts of the
    food whose nutrient name contains the pattern, and 0 when there is
    none. *)
Lemma headline_is_max pat ns fn f :
  ∃ v, headline pat (food_group ns fn f) = Some v ∧
    (∀ a, matches_column pat ns fn f a → (a <= v)%Q) ∧
    ((∃ a, matches_column pat ns fn f a ∧ (a == v)%Q)
     ∨ ((∀ a, ¬ matches_column pat ns fn f a) ∧ v = 0%Q)).
Proof.
  unfold headline.
  set (sel := λ row : option fact * option nutrient,
         match row with
         | (Some fa, Some n) =>
             if like_contains pat (n_name n) then Some (amount fa) else None
         | _ => None
         end).
  assert (∀ a, a ∈ omap sel (food_group ns fn f)
               ↔ matches_column pat ns fn f a) as Hsel.
  { intros a. rewrite list_elem_of_omap. split.
    - intros ([[fa|] [n|]] & Hrow & Ha); simpl in Ha; try done.
      destruct (like_contains pat (n_name n)) eqn:El; [|done].
      injection Ha as <-.
      apply elem_of_food_group in Hrow as (nid & ? & ? & ?).
      by exists nid, fa, n.
    - intros (nid & fa & n & Hfa & Hn & Hnid & Hl & ->).
      exists (Some fa, Some n). split.
      + apply elem_of_food_group. by exists nid.
      + simpl. by rewrite Hl. }
  destruct (omap sel (food_group ns fn f)) as [|a0 l] eqn:E; simpl.
  - exists 0%Q. split; [done|]. split.
    + intros a Ha%Hsel. by apply elem_of_nil in Ha.
    + right. split; [|done]. intros a Ha%Hsel. by apply elem_of_nil in Ha.
  - exists (Qmax_list a0 l). split; [done|].
    destruct (Qmax_list_spec a0 l) as [(x & Hx & Hxv) Hmax]. split.
    + intros a Ha%Hsel. by apply Hmax.
    + left. exists x. split; [by apply Hsel|done].
Qed.

(** X16. The headline columns of [common_nutrients_mv].  After
    [update_common_nutrients_mv] the row of a food holds, in each of
    the eleven nutrient columns, the largest amount among the facts of
    the food whose nutrient name contains the column's pattern
    (ignoring case), and 0 when the food has no such fact; the column
    is never NULL.  Two nutrients matching one pattern, such as two
    energy rows, are not added up: the larger one wins. *)
Theorem mv_columns (d : db) (f : food) :
  NoDup (f_id <$> foods d) → f ∈ foods d →
  ∃ row, common_nutrients_mv (update_common_nutrients_mv d) !! f_id f
         = Some row
    ∧ ∀ pat col,
        (pat, col) ∈ [("Energy", calories row); ("Protein", protein row);
                      ("Total lipid", fat row);
                      ("Carbohydrate", carbohydrates row);
                      ("Fiber", fiber row); ("Sugars", sugar row);
                      ("Calcium", calcium row); ("Iron", iron row);
                      ("Vitamin C", vitamin_c row);
                      ("Vitamin D", vitamin_d row);
                      ("Vitamin B-12", vitamin_b12 row)] →
        ∃ v, col = Some v ∧
          (∀ a, matches_column pat (nutrients d) (food_nutrients d) f a →
                (a <= v)%Q) ∧
          ((∃ a, matches_column pat (nutrients d) (food_nutrients d) f a
                 ∧ (a == v)%Q)
           ∨ ((∀ a, ¬ matches_column pat (nutrients d) (food_nutrients d)
                        f a)
              ∧ v = 0%Q)).
Proof.
  intros Hpk Hf. eexists. split; [by apply mv_lookup|].
  intros pat col Hin. unfold mv_row_of in Hin. simpl in Hin.
  repeat (apply elem_of_cons in Hin as [[= -> ->]|Hin];
          [apply headline_is_max|]).
  by apply elem_of_nil in Hin.
Qed.

Lemma mv_columns_witness :
  (NoDup (f_id <$> foods loaded_db)
   ∧ mk_food 1 101 "Cheddar Cheese" 1 100 "g" 1 ∈ foods loaded_db) ∧
  ∃ row, common_nutrients_mv (update_common_nutrients_mv loaded_db) !! 1%Z
         = Some row.
Proof.
  assert (NoDup (f_id <$> foods loaded_db)) as H1 by compute_done.
  assert (mk_food 1 101 "Cheddar Cheese" 1 100 "g" 1 ∈ foods loaded_db)
    as H2 by (by left).
  split; [exact (conj H1 H2)|].
  destruct (mv_columns loaded_db _ H1 H2) as (row & Hrow & _).
  exists row. exact Hrow.
Defined.


(** ** Portions *)

Lemma food_map_lookup fs fdc id :
  food_map fs !! fdc = Some id → ∃ f, f ∈ fs ∧ f_fdc_id f = fdc ∧ f_id f = id.
Proof.
  unfold food_map.
  assert (∀ m : gmap Z Z,
    (∀ fdc id, m !! fdc = Some id →
       ∃ f, f ∈ fs ∧ f_fdc_id f = fdc ∧ f_id f = id) →
    ∀ l, (∀ f, f ∈ l → f ∈ fs) →
    foldl (λ m f, <[f_fdc_id f := f_id f]> m) m l !! fdc = Some id →
    ∃ f, f ∈ fs ∧ f_fdc_id f = fdc ∧ f_id f = id) as Hgen.
  { intros m Hm l. revert m Hm.
    induction l as [|f l IH]; intros m Hm Hl; simpl; [by apply Hm|].
    apply IH; [|intros g Hg; apply Hl; by right].
    intros fdc' id'. destruct (decide (f_fdc_id f = fdc')) as [<-|Hne].
    - rewrite lookup_insert_eq. intros [= <-]. exists f.
      split; [apply Hl; by left|done].
    - rewrite lookup_insert_ne by done. apply Hm. }
  apply (Hgen ∅); [|done]. intros ? ?. by rewrite lookup_empty.
Qed.

Lemma food_map_is_Some fs fdc :
  is_Some (food_map fs !! fdc) ↔ fdc ∈ f_fdc_id <$> fs.
Proof.
  unfold food_map.
  assert (∀ l (m : gmap Z Z),
    is_Some (foldl (λ m f, <[f_fdc_id f := f_id f]> m) m l !! fdc)
    ↔ is_Some (m !! fdc) ∨ fdc ∈ f_fdc_id <$> l) as Hgen.
  { induction l as [|f l IH]; intros m; simpl.
    - rewrite elem_of_nil. tauto.
    - rewrite IH, elem_of_cons.
      destruct (decide (f_fdc_id f = fdc)) as [<-|Hne].
      + rewrite lookup_insert_eq. split; [by auto|]. intros _. by left; eexists.
      + rewrite lookup_insert_ne by done. split.
        * intros [?|?]; auto.
        * intros [?|[?|?]]; auto. by destruct Hne. }
  rewrite Hgen, lookup_empty. split; [by intros [[? [=]]|?]|by right].
Qed.

Lemma float_or_None c dflt : float_or c dflt = None ↔ bad_number c.
Proof.
  unfold float_or, bad_number. destruct c as [|q|s]; simpl.
  - done.
  - by destruct (negb (Qeq_bool q 0)).
  - by destruct (bool_decide_reflect (s = EmptyString)) as [->|Hne].
Qed.

Lemma float_or_weight c w :
  float_or c 0 = Some w → (w == weight_of c)%Q.
Proof.
  unfold float_or. destruct c as [|q|s]; simpl.
  - by intros [= <-].
  - destruct (Qeq_bool q 0) eqn:E; simpl; intros [= <-]; [|done].
    symmetry. by apply Qeq_bool_iff.
  - destruct (negb _); [done|by intros [= <-]].
Qed.

(** One iteration either appends the tuple of an importable row or
    counts a row that is not. *)
Lemma import_portion_row_cases fs row acc :
  (portion_importable fs row ∧
   ∃ v, import_portion_row (food_map fs) row acc = (acc.1 ++ [v], acc.2)
        ∧ (∃ f, f ∈ fs ∧ pr_fdc_id row = Some (f_fdc_id f)
                ∧ pv_food_id v = f_id f)
        ∧ pv_description v = pr_portion_description row
        ∧ (pv_gram_weight v == weight_of (pr_gram_weight row))%Q
        ∧ pv_modifier v = pr_modifier row)
  ∨ (¬ portion_importable fs row ∧
     import_portion_row (food_map fs) row acc = (acc.1, S acc.2)).
Proof.
  unfold import_portion_row, portion_importable.
  destruct (pr_fdc_id row) as [fdc|] eqn:Ef; simpl.
  2:{ right. split; [|done]. by intros [[] _]. }
  destruct (food_map fs !! fdc) as [id|] eqn:Em.
  2:{ right. split; [|done]. intros [Hin _].
      apply food_map_is_Some in Hin as [? Hs]. by rewrite Em in Hs. }
  assert (fdc ∈ f_fdc_id <$> fs) as Hknown
    by (apply food_map_is_Some; by eexists).
  apply food_map_lookup in Em as (f & Hf & <- & <-).
  destruct (float_or (pr_amount row) 100) as [a|] eqn:Ea.
  2:{ right. split; [|done]. intros (_ & Hbad & _). apply Hbad.
      by eapply float_or_None. }
  destruct (float_or (pr_gram_weight row) 0) as [w|] eqn:Ew.
  2:{ right. split; [|done]. intros (_ & _ & Hbad). apply Hbad.
      by eapply float_or_None. }
  left. split.
  - split; [done|].
    split; intros Hbad; eapply float_or_None in Hbad; by erewrite Hbad in *.
  - eexists. split; [done|]. simpl.
    split; [by exists f|]. split; [done|]. split; [|done].
    by apply float_or_weight.
Qed.

Lemma scan_portions_spec fs rows :
  let r := scan_portions (food_map fs) rows in
  Forall2 (tuple_of_row fs) (filter (portion_importable fs) rows) r.1
  ∧ length r.1 + r.2 = length rows.
Proof.
  unfold scan_portions.
  assert (∀ acc pre,
    Forall2 (tuple_of_row fs) (filter (portion_importable fs) pre) acc.1 →
    length acc.1 + acc.2 = length pre →
    let r := foldl (λ acc row, import_portion_row (food_map fs) row acc)
                   acc rows in
    Forall2 (tuple_of_row fs)
            (filter (portion_importable fs) (pre ++ rows)) r.1
    ∧ length r.1 + r.2 = length (pre ++ rows)) as Hgen.
  { induction rows as [|row rows IH]; intros acc pre H1 H2; simpl.
    - by rewrite app_nil_r.
    - rewrite (cons_middle row pre rows), app_assoc. apply IH.
      + rewrite filter_app.
        destruct (import_portion_row_cases fs row acc)
          as [[Himp (v & -> & Hv)]|[Hno ->]]; simpl.
        * rewrite filter_cons_True, filter_nil by done.
          apply Forall2_app; [done|]. by apply Forall2_cons.
        * rewrite filter_cons_False, filter_nil, app_nil_r by done. done.
      + rewrite length_app. simpl.
        destruct (import_portion_row_cases fs row acc)
          as [[Himp (v & -> & Hv)]|[Hno ->]]; simpl.
        * rewrite length_app. simpl. lia.
        * lia. }
  apply (Hgen ([], 0) []); [by rewrite filter_nil|done].
Qed.

Lemma forallb_elem {A} (f : A → bool) (l : list A) :
  (∀ x, x ∈ l → f x = true) → forallb f l = true.
Proof.
  induction l as [|x l IH]; intros Hl; simpl; [done|].
  rewrite Hl by (by left). apply IH. intros y Hy. apply Hl. by right.
Qed.

(** What [import_portions] does, in one statement. *)
Lemma import_portions_Done rows s :
  let fs := foods (tables s) in
  ∃ ps, import_portions rows s
        = Done (mk_store (tables s) ps
                  (portions_seq s + Z.of_nat (length ps)))
    ∧ Forall2 (portion_of_row fs) (filter (portion_importable fs) rows) ps
    ∧ length ps + (portions_logged rows s).2 = length rows
    ∧ (portions_logged rows s).1 = length ps
    ∧ ∀ i p, ps !! i = Some p →
        p_id p = (portions_seq s + Z.of_nat i + 1)%Z.
Proof.
  intros fs. unfold import_portions, portions_logged. fold fs.
  destruct (scan_portions_spec fs rows) as [Hvals Hlen].
  set (r := scan_portions (food_map fs) rows) in *.
  unfold insert_portions.
  assert (forallb (λ v, bool_decide (pv_food_id v ∈ f_id <$> fs)) r.1 = true)
    as ->.
  { apply forallb_elem. intros v Hv.
    apply bool_decide_eq_true_2.
    apply list_elem_of_lookup in Hv as [i Hv].
    destruct (Forall2_lookup_r _ _ _ _ _ Hvals Hv)
      as (row & _ & (f & Hf & _ & ->) & _).
    by apply list_elem_of_fmap_2. }
  exists (imap (λ i v, mk_portion (portions_seq s + Z.of_nat i + 1)
                         (pv_food_id v) (pv_description v)
                         (pv_gram_weight v) (pv_modifier v)) r.1).
  split; [by rewrite length_imap|].
  rewrite !length_imap. simpl. split; [|split; [done|split; [done|]]].
  - apply Forall2_same_length_lookup. split.
    + rewrite length_imap. by eapply Forall2_length.
    + intros i row p Hrow (v & Hv & ->)%list_lookup_imap_Some.
      apply (Forall2_lookup_lr _ _ _ _ _ _ Hvals Hrow Hv).
  - by intros i p (v & Hv & ->)%list_lookup_imap_Some.
Qed.

(** X19. [import_portions] never raises on the content of the file
    and never stores a portion of a food that [foods] does not have.
    Whatever the rows hold, the method returns; the other tables are
    untouched; [common_portions] is replaced, the portions it held
    before are gone and the new ones take the next ids of the
    AUTOINCREMENT sequence, in file order; every row of the file is
    either stored or counted as skipped, so that the two numbers the
    method logs add up to the number of rows. *)
Theorem import_portions_total (rows : list portion_row) (s : store) :
  ∃ s', import_portions rows s = Done s'
    ∧ tables s' = tables s
    ∧ portions_seq s'
      = (portions_seq s + Z.of_nat (length (common_portions s')))%Z
    ∧ portions_logged rows s
      = (length (common_portions s'),
         length rows - length (common_portions s'))
    ∧ length (common_portions s') ≤ length rows
    ∧ ∀ i p, common_portions s' !! i = Some p →
        p_id p = (portions_seq s + Z.of_nat i + 1)%Z
        ∧ p_food_id p ∈ f_id <$> foods (tables s).
Proof.
  destruct (import_portions_Done rows s) as (ps & Hrun & Hrows & Hlen & Hn & Hid).
  eexists. split; [exact Hrun|]. simpl.
  split; [done|]. split; [done|]. split; [|split; [lia|]].
  - destruct (portions_logged rows s) as [n k]. simpl in *. f_equal; lia.
  - intros i p Hp. split; [by apply Hid|].
    destruct (Forall2_lookup_r _ _ _ _ _ Hrows Hp)
      as (row & _ & (f & Hf & _ & Hpf) & _).
    simpl in Hpf. rewrite Hpf. by apply list_elem_of_fmap_2.
Qed.

(** X20. Which portions are stored.  [import_portions] stores, in
    file order, one portion for every row whose fdc_id is the one of
    a food and whose amount and gram_weight are not a text that
    [float] rejects, and nothing else: a row of an unknown food or
    with a malformed number is skipped without stopping the import.
    The portion refers to the id of that food and carries the
    description and modifier of the row; its gram_weight is the
    number of the row, and 0 when the cell is empty. *)
Theorem import_portions_table (rows : list portion_row) (s : store) :
  ∃ s', import_portions rows s = Done s'
    ∧ Forall2 (portion_of_row (foods (tables s)))
              (filter (portion_importable (foods (tables s))) rows)
              (common_portions s').
Proof.
  destruct (import_portions_Done rows s) as (ps & Hrun & Hrows & _).
  eexists. split; [exact Hrun|done].
Qed.

(** X21. Once portions are stored, the foods cannot be imported again:
    after an [import_portions] that stored at least one portion,
    [import_foundation_foods] raises on its DELETE of [foods], which
    the foreign key of [common_portions] forbids, and the rollback
    leaves the database as it was. *)
Theorem foods_import_blocked_by_portions (self : mappings)
    (food_rows : list food_csv_row) (rows : list portion_row)
    (s s' : store) :
  import_portions rows s = Done s' →
  common_portions s' ≠ [] →
  import_foundation_foods_store self food_rows s' = Raised s'.
Proof.
  destruct (import_portions_Done rows s) as (ps & -> & Hrows & _).
  intros [= <-]. simpl. intros Hne.
  unfold import_foundation_foods_store. simpl.
  destruct ps as [|p ps]; [done|]. simpl.
  destruct (Forall2_lookup_r _ _ _ 0 p Hrows eq_refl)
    as (row & _ & (f & Hf & _ & Hpf) & _).
  simpl in Hpf.
  rewrite (bool_decide_eq_true_2 (p_food_id p ∈ f_id <$> foods (tables s)));
    [done|].
  rewrite Hpf. by apply list_elem_of_fmap_2.
Qed.

(** The sample portion file: rows 1 and 4 are stored, with ids 1 and
    2; after that the foods import is refused. *)
Lemma foods_import_blocked_by_portions_witness :
  (import_portions sample_portion_rows sample_store
   = Done (mk_store sample_db
             [mk_portion 1 1 (Some "slice") 28 None;
              mk_portion 2 2 (Some "cup") 0 (Some "whole")] 2)
   ∧ [mk_portion 1 1 (Some "slice") 28 None;
      mk_portion 2 2 (Some "cup") 0 (Some "whole")] ≠ []) ∧
  import_foundation_foods_store (build_category_mappings sample_categories)
    sample_food_rows
    (mk_store sample_db
       [mk_portion 1 1 (Some "slice") 28 None;
        mk_portion 2 2 (Some "cup") 0 (Some "whole")] 2)
  = Raised (mk_store sample_db
              [mk_portion 1 1 (Some "slice") 28 None;
               mk_portion 2 2 (Some "cup") 0 (Some "whole")] 2).
Proof.
  assert (import_portions sample_portion_rows sample_store
          = Done (mk_store sample_db
                    [mk_portion 1 1 (Some "slice") 28 None;
                     mk_portion 2 2 (Some "cup") 0 (Some "whole")] 2))
    as Hrun by (vm_compute; reflexivity).
  assert ([mk_portion 1 1 (Some "slice") 28 None;
           mk_portion 2 2 (Some "cup") 0 (Some "whole")] ≠ []) as Hne
    by discriminate.
  split; [exact (conj Hrun Hne)|].
  exact (foods_import_blocked_by_portions _ sample_food_rows
           sample_portion_rows sample_store _ Hrun Hne).
Defined.

(** ** The nutrient table *)

Lemma nutrient_of_row_id row n :
  nutrient_of_row row = Some n → nc_id row = Some (n_id n).
Proof.
  unfold nutrient_of_row.
  destruct (nc_id row), (rank_value (nc_rank row)), (nc_name row),
    (nc_unit_name row); try done.
  by intros [= <-].
Qed.

Lemma populate_rows_spec rows :
  let ns := foldl populate_row [] rows in
  NoDup (n_id <$> ns)
  ∧ (∀ j row n, rows !! j = Some row → nutrient_of_row row = Some n →
       n_id n ∈ n_id <$> ns)
  ∧ ∀ n, n ∈ ns ↔
      ∃ i row, rows !! i = Some row ∧ nutrient_of_row row = Some n
               ∧ first_of_id rows i row.
Proof.
  induction rows as [|row pre IH] using rev_ind; simpl.
  - split; [constructor|]. split; [done|]. intros n. split.
    + by intros ?%elem_of_nil.
    + by intros (i & row & ? & _).
  - rewrite foldl_app. simpl.
    destruct IH as (Hnd & Hcov & Hmem).
    set (ns := foldl populate_row [] pre) in *.
    assert (∀ i r, i < length pre → pre !! i = Some r →
              first_of_id (pre ++ [row]) i r ↔ first_of_id pre i r) as Hfirst.
    { intros i r Hi Hr. split; intros H j r' Hj Hr' Hok.
      - apply (H j r' Hj); [|done]. by apply lookup_app_l_Some.
      - rewrite lookup_app_l in Hr' by lia. by apply (H j r'). }
    unfold populate_row, insert_nutrient.
    destruct (nutrient_of_row row) as [n0|] eqn:Hrow; simpl.
    2:{ (* the row cannot be bound: skipped *)
      split; [done|]. split.
      - intros j r n [[_ Hj]|[_ <-]]%lookup_snoc_Some Hn; [by eauto|].
        by rewrite Hrow in Hn.
      - intros n. rewrite Hmem. split.
        + intros (i & r & Hi & Hn & Hf). exists i, r.
          split; [by apply lookup_app_l_Some|]. split; [done|].
          apply Hfirst; [by eapply lookup_lt_Some|done|done].
        + intros (i & r & [[Hlt Hi]|[_ <-]]%lookup_snoc_Some & Hn & Hf).
          * exists i, r. split; [done|]. split; [done|by apply Hfirst].
          * by rewrite Hrow in Hn. }
    pose proof (nutrient_of_row_id _ _ Hrow) as Hid0.
    destruct (bool_decide_reflect (n_id n0 ∈ n_id <$> ns)) as [Hin|Hout];
      simpl.
    + (* the id is taken: the INSERT fails, skipped *)
      split; [done|]. split.
      * intros j r n [[_ Hj]|[_ <-]]%lookup_snoc_Some Hn; [by eauto|].
        rewrite Hrow in Hn. by injection Hn as <-.
      * intros n. rewrite Hmem. split.
        -- intros (i & r & Hi & Hn & Hf). exists i, r.
           split; [by apply lookup_app_l_Some|]. split; [done|].
           apply Hfirst; [by eapply lookup_lt_Some|done|done].
        -- intros (i & r & [[Hlt Hi]|[-> <-]]%lookup_snoc_Some & Hn & Hf).
           ++ exists i, r. split; [done|]. split; [done|by apply Hfirst].
           ++ exfalso. apply list_elem_of_fmap in Hin as (n1 & Hid1 & Hn1).
              apply Hmem in Hn1 as (i & r & Hi & Hr & _).
              apply (Hf i r); [by eapply lookup_lt_Some
                              |by apply lookup_app_l_Some|by eexists|].
              rewrite (nutrient_of_row_id _ _ Hr), Hid0. by rewrite Hid1.
    + (* the row is inserted *)
      split; [|split].
      * rewrite fmap_app. apply NoDup_app. split; [done|]. split.
        -- intros x Hx ->%list_elem_of_singleton. done.
        -- apply NoDup_singleton.
      * intros j r n Hj Hn. rewrite fmap_app, elem_of_app.
        apply lookup_snoc_Some in Hj as [[_ Hj]|[_ <-]]; [left; by eauto|].
        right. rewrite Hrow in Hn. injection Hn as <-. by left.
      * intros n. rewrite elem_of_app, list_elem_of_singleton, Hmem. split.
        -- intros [(i & r & Hi & Hn & Hf)| ->].
           ++ exists i, r. split; [by apply lookup_app_l_Some|].
              split; [done|].
              apply Hfirst; [by eapply lookup_lt_Some|done|done].
           ++ exists (length pre), row.
              split; [by apply list_lookup_middle|]. split; [done|].
              intros j r Hj Hr [n1 Hn1]. rewrite lookup_app_l in Hr by done.
              intros Heq. apply Hout.
              rewrite Hid0, (nutrient_of_row_id _ _ Hn1) in Heq.
              injection Heq as <-. by eapply Hcov.
        -- intros (i & r & [[Hlt Hi]|[-> <-]]%lookup_snoc_Some & Hn & Hf).
           ++ left. exists i, r. split; [done|]. split; [done|].
              by apply Hfirst.
           ++ right. rewrite Hrow in Hn. by injection Hn.
Qed.

(** X22. The nutrient table after [populate_nutrients].  When the
    method returns, [nutrients] has distinct ids and holds, for every
    id, the first row of the file with that id that can be inserted
    (its id converts, its rank is empty or a number, its name and unit
    are present): a row that fails is skipped with a warning, and so
    is every later row that repeats an id already inserted. *)
Theorem populate_nutrients_table (rows : list nutrient_csv_row) (d d' : db) :
  populate_nutrients rows d = Done d' →
  NoDup (n_id <$> nutrients d')
  ∧ ∀ n, n ∈ nutrients d' ↔
      ∃ i row, rows !! i = Some row ∧ nutrient_of_row row = Some n
               ∧ first_of_id rows i row.
Proof.
  unfold populate_nutrients. destruct (nutrients_referenced d); [done|].
  intros [= <-]. simpl.
  destruct (populate_rows_spec rows) as (Hnd & _ & Hmem). done.
Qed.

Lemma populate_nutrients_table_witness :
  populate_nutrients sample_nutrient_rows
    (mk_db sample_categories [] [] 0 ∅ ∅ ∅ ∅ [])
  = Done (mk_db sample_categories
            [mk_nutrient 1003 "Protein" "G";
             mk_nutrient 1079 "Fiber, total dietary" "G"] [] 0 ∅ ∅ ∅ ∅ [])
  ∧ NoDup (n_id <$> [mk_nutrient 1003 "Protein" "G";
                      mk_nutrient 1079 "Fiber, total dietary" "G"]).
Proof.
  assert (populate_nutrients sample_nutrient_rows
            (mk_db sample_categories [] [] 0 ∅ ∅ ∅ ∅ [])
          = Done (mk_db sample_categories
                    [mk_nutrient 1003 "Protein" "G";
                     mk_nutrient 1079 "Fiber, total dietary" "G"]
                    [] 0 ∅ ∅ ∅ ∅ [])) as Hrun
    by (vm_compute; reflexivity).
  exact (conj Hrun (proj1 (populate_nutrients_table _ _ _ Hrun))).
Defined.

(** X23. Once facts are loaded, the nutrient table cannot be
    repopulated: after an [import_nutrient_data] that started afresh
    and returned with at least one fact, [populate_nutrients] raises
    on its opening DELETE, which the foreign key of [food_nutrients]
    forbids, and the rollback leaves the database as it was. *)
Theorem populate_blocked_by_facts (batch_size checkpoint_interval : nat)
    (rows : list fact_row) (nutrient_rows : list nutrient_csv_row)
    (d d' : db) :
  0 < batch_size →
  NoDup (f_id <$> foods d) →
  no_in_progress (import_checkpoint d) →
  import_nutrient_data_with batch_size checkpoint_interval rows d = Done d' →
  food_nutrients d' ≠ ∅ →
  populate_nutrients nutrient_rows d' = Raised d'.
Proof.
  intros HB Hpk Hno Hrun Hne.
  destruct (fresh_run_Done batch_size checkpoint_interval rows HB d d'
              Hpk Hno Hrun) as [Hv Hload].
  destruct (run_Done_frame _ _ _ _ _ Hrun) as [Hf Hn].
  apply map_choose in Hne as ([fid nid] & v & Hkv).
  pose proof Hkv as Hin.
  apply (view_agrees_lookup _ _ _ _ fid nid v Hv) in Hkv
    as (f & a & Hfood & _ & Hl & _).
  apply last_amount_Some_elem in Hl as (r & Hr & Hkey & Hq).
  apply (elem_of_sublist _ rows) in Hr; [|apply sublist_take].
  destruct (Hload r Hr) as [_ Hval]. injection Hkey as Hk1 Hk2.
  assert (nid ∈ n_id <$> nutrients d') as Hnid.
  { rewrite Hn, <- Hk2. apply Hval. split; [by rewrite Hq|].
    rewrite Hk1. by apply list_elem_of_fmap_2. }
  unfold populate_nutrients, nutrients_referenced.
  assert (existsb (λ kv : (Z * Z) * fact,
                     bool_decide (kv.1.2 ∈ n_id <$> nutrients d'))
                  (map_to_list (food_nutrients d')) = true) as ->; [|done].
  apply existsb_exists. exists ((fid, nid), v). split.
  - apply list_elem_of_In. by apply elem_of_map_to_list.
  - by apply bool_decide_eq_true_2.
Qed.

Lemma populate_blocked_by_facts_witness :
  (0 < 2 ∧ NoDup (f_id <$> foods sample_db)
   ∧ no_in_progress (import_checkpoint sample_db)
   ∧ import_nutrient_data_with 2 3 sample_rows sample_db
     = Done (outcome_db (import_nutrient_data_with 2 3 sample_rows
                           sample_db))
   ∧ food_nutrients
       (outcome_db (import_nutrient_data_with 2 3 sample_rows sample_db))
     ≠ ∅) ∧
  populate_nutrients sample_nutrient_rows
    (outcome_db (import_nutrient_data_with 2 3 sample_rows sample_db))
  = Raised (outcome_db (import_nutrient_data_with 2 3 sample_rows sample_db)).
Proof.
  assert (import_nutrient_data_with 2 3 sample_rows sample_db
          = Done (outcome_db (import_nutrient_data_with 2 3 sample_rows
                                sample_db))) as Hrun
    by (vm_compute; reflexivity).
  assert (food_nutrients
            (outcome_db (import_nutrient_data_with 2 3 sample_rows sample_db))
          ≠ ∅) as Hne.
  { intros Heq.
    assert (food_nutrients
              (outcome_db (import_nutrient_data_with 2 3 sample_rows
                             sample_db)) !! (2%Z, 1079%Z)
            = Some (mk_fact 5 1)) as Hrow by (vm_compute; reflexivity).
    rewrite Heq in Hrow. by rewrite lookup_empty in Hrow. }
  split.
  - exact (conj (Nat.lt_0_succ _)
             (conj (proj1 sample_foods_wf)
                (conj sample_log_fresh (conj Hrun Hne)))).
  - exact (populate_blocked_by_facts 2 3 sample_rows sample_nutrient_rows
             sample_db _ (Nat.lt_0_succ _) (proj1 sample_foods_wf)
             sample_log_fresh Hrun Hne).
Defined.

(** ** The category table *)

Lemma insert_by_id_perm c cats : insert_by_id c cats ≡ₚ cats ++ [c].
Proof.
  induction cats as [|x cats IH]; simpl; [done|].
  destruct (_ <? _)%Z.
  - by rewrite (Permutation_app_comm (x :: cats) [c]).
  - by rewrite IH.
Qed.

Lemma insert_by_id_sorted c cats :
  sorted_by_id cats → (∀ x, x ∈ cats → x.1 ≠ c.1) →
  sorted_by_id (insert_by_id c cats).
Proof.
  induction cats as [|x cats IH]; simpl; [done|].
  intros [Hx Hs] Hne. destruct (Z.ltb_spec c.1 x.1) as [Hlt|Hge]; simpl.
  - split; [|done]. constructor; [done|].
    eapply Forall_impl; [exact Hx|]. simpl. lia.
  - split.
    + rewrite insert_by_id_perm. apply Forall_app. split; [done|].
      apply Forall_singleton.
      assert (x.1 ≠ c.1) by (apply Hne; by left). lia.
    + apply IH; [done|]. intros y Hy. apply Hne. by right.
Qed.

Lemma filter_sorted (P : Z * string → Prop) `{∀ x, Decision (P x)} cats :
  sorted_by_id cats → sorted_by_id (filter P cats).
Proof.
  induction cats as [|x cats IH]; simpl; [done|].
  intros [Hx Hs]. rewrite filter_cons. destruct (decide (P x)); simpl.
  - split; [|by apply IH]. rewrite Forall_forall in Hx.
    apply Forall_forall. intros y [_ Hy]%list_elem_of_filter. by apply Hx.
  - by apply IH.
Qed.

Lemma replace_category_Some fs row cats cats' :
  replace_category fs row cats = Some cats' →
  ∃ id name,
    category_of_row row = Some (id, name)
    ∧ cats' = insert_by_id (id, name)
                (filter (λ c : Z * string, c.1 ≠ id ∧ c.2 ≠ name) cats)
    ∧ ∀ c, c ∈ cats → c.2 = name → c.1 ≠ id →
           c.1 ∉ f_category_id <$> fs.
Proof.
  unfold replace_category, category_of_row.
  destruct (cc_id row) as [id|]; [|done].
  destruct (cc_description row) as [name|]; [|done].
  destruct (existsb _ cats) eqn:Hex; [done|].
  intros [= <-]. exists id, name. split; [done|]. split; [done|].
  intros c Hc Hname Hid Hin.
  assert (existsb (λ c : Z * string,
                     bool_decide (c.2 = name ∧ c.1 ≠ id
                                  ∧ c.1 ∈ f_category_id <$> fs)) cats
          = true) as Htrue; [|by rewrite Hex in Htrue].
  apply existsb_exists. exists c. split; [by apply list_elem_of_In|].
  by apply bool_decide_eq_true_2.
Qed.

Lemma replace_category_ok fs row cats cats' :
  categories_ok fs cats →
  replace_category fs row cats = Some cats' →
  categories_ok fs cats'.
Proof.
  intros (Hid & Hname & Hfk)
         (id & name & _ & -> & Hfree)%replace_category_Some.
  set (kept := filter (λ c : Z * string, c.1 ≠ id ∧ c.2 ≠ name) cats).
  assert (kept `sublist_of` cats) as Hsub by apply sublist_filter.
  unfold categories_ok. rewrite !insert_by_id_perm.
  split; [|split].
  - rewrite fmap_app. apply NoDup_app. split; [|split].
    + eapply sublist_NoDup; [|apply fmap_sublist, Hsub]; done.
    + intros x (c & -> & Hc)%list_elem_of_fmap Hx.
      apply list_elem_of_filter in Hc as [[Hne _] _].
      apply list_elem_of_singleton in Hx. done.
    + apply NoDup_singleton.
  - rewrite fmap_app. apply NoDup_app. split; [|split].
    + eapply sublist_NoDup; [|apply fmap_sublist, Hsub]; done.
    + intros x (c & -> & Hc)%list_elem_of_fmap Hx.
      apply list_elem_of_filter in Hc as [[_ Hne] _].
      apply list_elem_of_singleton in Hx. done.
    + apply NoDup_singleton.
  - intros f Hf. rewrite insert_by_id_perm, fmap_app, elem_of_app.
    destruct (decide (f_category_id f = id)) as [->|Hne].
    { right. by left. }
    left. destruct (proj1 (list_elem_of_fmap _ _ _) (Hfk f Hf))
      as (c & Hc1 & Hc).
    rewrite Hc1. apply list_elem_of_fmap_2.
    apply list_elem_of_filter. split; [|done].
    split; [by rewrite <- Hc1|].
    intros Heq. apply (Hfree c Hc Heq); [by rewrite <- Hc1|].
    rewrite <- Hc1. by apply list_elem_of_fmap_2.
Qed.

Lemma create_food_categories_tables rows d :
  let d' := (create_food_categories rows d).1 in
  foods d' = foods d ∧ nutrients d' = nutrients d
  ∧ food_nutrients d' = food_nutrients d
  ∧ import_checkpoint d' = import_checkpoint d.
Proof. done. Qed.

(** X24. [create_food_categories] keeps the constraints of the schema
    whatever the file holds.  When the ids and the names of
    [food_categories] are distinct and every food has its category in
    the table, the same holds afterwards: a row that would take the
    category of a food away (its name is that of a category with
    another id that a food uses) is refused by the foreign key and
    skipped.  The category ids the object then accepts are the ids of
    the table, and the foods and facts are untouched. *)
Theorem create_food_categories_schema (rows : list category_csv_row)
    (d : db) :
  categories_ok (foods d) (food_categories d) →
  let d' := (create_food_categories rows d).1 in
  let self := (create_food_categories rows d).2 in
  categories_ok (foods d') (food_categories d')
  ∧ valid_category_ids self = (food_categories d').*1
  ∧ foods d' = foods d ∧ food_nutrients d' = food_nutrients d.
Proof.
  intros Hok. simpl. split; [|done].
  revert Hok. generalize (food_categories d). generalize (foods d).
  intros fs cats. revert cats.
  induction rows as [|row rows IH]; intros cats Hok; simpl; [done|].
  apply IH. destruct (replace_category fs row cats) as [cats'|] eqn:Hrow;
    simpl; [|done].
  by eapply replace_category_ok.
Qed.

Lemma sample_categories_ok :
  categories_ok (foods sample_db) (food_categories sample_db).
Proof.
  split; [compute_done|]. split; [compute_done|].
  apply Forall_forall. compute_done.
Defined.

Lemma create_food_categories_schema_witness :
  categories_ok (foods sample_db) (food_categories sample_db) ∧
  categories_ok (foods (create_food_categories sample_category_rows
                          sample_db).1)
    (food_categories (create_food_categories sample_category_rows
                        sample_db).1).
Proof.
  split; [exact sample_categories_ok|].
  exact (proj1 (create_food_categories_schema sample_category_rows
                  sample_db sample_categories_ok)).
Defined.

Lemma filter_all {A} (P : A → Prop) `{∀ x, Decision (P x)} (l : list A) :
  (∀ x, x ∈ l → P x) → filter P l = l.
Proof.
  induction l as [|x l IH]; intros Hall; [done|].
  rewrite filter_cons_True by (apply Hall; by left).
  f_equal. apply IH. intros y Hy. apply Hall. by right.
Qed.

Lemma replace_category_alt fs row cats :
  replace_category fs row cats
  = match category_of_row row with
    | Some c0 =>
        if existsb (λ c : Z * string,
                      bool_decide (c.2 = c0.2 ∧ c.1 ≠ c0.1
                                   ∧ c.1 ∈ f_category_id <$> fs)) cats
        then None
        else Some (insert_by_id c0
                     (filter (λ c : Z * string, c.1 ≠ c0.1 ∧ c.2 ≠ c0.2)
                             cats))
    | None => None
    end.
Proof.
  unfold replace_category, category_of_row.
  by destruct (cc_id row), (cc_description row).
Qed.

Lemma load_categories_from fs rows cats :
  NoDup (cats ++ omap category_of_row rows).*1 →
  NoDup (cats ++ omap category_of_row rows).*2 →
  sorted_by_id cats →
  let cats' :=
    foldl (λ cats row, default cats (replace_category fs row cats))
          cats rows in
  cats' ≡ₚ cats ++ omap category_of_row rows ∧ sorted_by_id cats'.
Proof.
  revert cats. induction rows as [|row rows IH]; intros cats Hid Hname Hs.
  { simpl. by rewrite app_nil_r. }
  assert (omap category_of_row (row :: rows)
          = match category_of_row row with
            | Some c0 => c0 :: omap category_of_row rows
            | None => omap category_of_row rows
            end) as Hom by done.
  rewrite Hom in *. clear Hom.
  change (foldl ?f cats (row :: rows)) with (foldl f (f cats row) rows).
  cbv beta. rewrite replace_category_alt.
  destruct (category_of_row row) as [c0|]; [|by apply IH].
  rewrite fmap_app, fmap_cons in Hid. rewrite fmap_app, fmap_cons in Hname.
  apply NoDup_app in Hid as Hid'. destruct Hid' as (_ & Hid1 & _).
  apply NoDup_app in Hname as Hname'. destruct Hname' as (_ & Hname1 & _).
  assert (∀ c, c ∈ cats → c.1 ≠ c0.1 ∧ c.2 ≠ c0.2) as Hfresh.
  { intros c Hc. split.
    - intros Heq. apply (Hid1 c.1); [by apply list_elem_of_fmap_2|].
      rewrite Heq. by left.
    - intros Heq. apply (Hname1 c.2); [by apply list_elem_of_fmap_2|].
      rewrite Heq. by left. }
  assert (existsb (λ c : Z * string,
                     bool_decide (c.2 = c0.2 ∧ c.1 ≠ c0.1
                                  ∧ c.1 ∈ f_category_id <$> fs)) cats
          = false) as ->.
  { apply not_true_is_false. intros (c & Hc & Hb)%existsb_exists.
    apply list_elem_of_In in Hc. apply bool_decide_eq_true_1 in Hb.
    destruct (Hfresh c Hc) as [_ Hne]. by destruct Hb. }
  simpl. rewrite (filter_all _ _ Hfresh).
  assert (insert_by_id c0 cats ≡ₚ cats ++ [c0]) as Hperm
    by apply insert_by_id_perm.
  destruct (IH (insert_by_id c0 cats)) as [Hp Hs'].
  - rewrite Hperm, <- app_assoc. simpl. by rewrite fmap_app, fmap_cons.
  - rewrite Hperm, <- app_assoc. simpl. by rewrite fmap_app, fmap_cons.
  - apply insert_by_id_sorted; [done|]. intros x Hx. by apply Hfresh.
  - split; [|done]. rewrite Hp, Hperm, <- app_assoc. done.
Qed.

(** X25. A clean category file is loaded as it is.  When the rows of
    the file that can be bound (the id converts, the description is
    present) have ids and names distinct from one another and from
    those of the table, [create_food_categories] adds exactly these
    rows to [food_categories] and removes none; the table, which a
    scan returns in the order of the ids, holds them in that order
    whatever the order of the file. *)
Theorem create_food_categories_clean_file (rows : list category_csv_row)
    (d : db) :
  NoDup (food_categories d ++ omap category_of_row rows).*1 →
  NoDup (food_categories d ++ omap category_of_row rows).*2 →
  sorted_by_id (food_categories d) →
  food_categories (create_food_categories rows d).1
    ≡ₚ food_categories d ++ omap category_of_row rows
  ∧ sorted_by_id (food_categories (create_food_categories rows d).1).
Proof. intros Hid Hname Hs. simpl. by apply load_categories_from. Qed.

Lemma create_food_categories_clean_file_witness :
  food_categories
    (create_food_categories
       [mk_category_csv_row (Some 9%Z) (Some "Fruits and Fruit Juices");
        mk_category_csv_row None (Some "Broken");
        mk_category_csv_row (Some 4%Z) (Some "Fats and Oils")]
       sample_db).1
  ≡ₚ sample_categories
     ++ [(9%Z, "Fruits and Fruit Juices"); (4%Z, "Fats and Oils")]
  ∧ sorted_by_id
      (food_categories
         (create_food_categories
            [mk_category_csv_row (Some 9%Z) (Some "Fruits and Fruit Juices");
             mk_category_csv_row None (Some "Broken");
             mk_category_csv_row (Some 4%Z) (Some "Fats and Oils")]
            sample_db).1).
Proof.
  apply (create_food_categories_clean_file
           [mk_category_csv_row (Some 9%Z) (Some "Fruits and Fruit Juices");
            mk_category_csv_row None (Some "Broken");
            mk_category_csv_row (Some 4%Z) (Some "Fats and Oils")]
           sample_db).
  - compute_done.
  - compute_done.
  - simpl. repeat (split; [repeat constructor; simpl; lia|]). done.
Defined.

(** ** The script *)

Lemma main_skips_import batch_size checkpoint_interval rows prows s :
  food_nutrients (tables s) ≠ ∅ →
  ∃ s', main_with batch_size checkpoint_interval rows prows s = Done s'
        ∧ tables s' = tables s.
Proof.
  intros Hne. unfold main_with.
  destruct (map_to_list (food_nutrients (tables s))) as [|kv l] eqn:Hl.
  { by apply map_to_list_empty_iff in Hl. }
  simpl.
  destruct (import_portions_Done prows
              (mk_store (tables s) (common_portions s) (portions_seq s)))
    as (ps & -> & _).
  by eexists.
Qed.

Lemma main_imports batch_size checkpoint_interval rows prows s d' :
  food_nutrients (tables s) = ∅ →
  import_nutrient_data_with batch_size checkpoint_interval rows (tables s)
  = Done d' →
  ∃ s', main_with batch_size checkpoint_interval rows prows s = Done s'
        ∧ tables s' = d'.
Proof.
  intros He Hrun. unfold main_with.
  rewrite He, map_to_list_empty. simpl. rewrite Hrun.
  destruct (import_portions_Done prows
              (mk_store d' (common_portions s) (portions_seq s)))
    as (ps & -> & _).
  by eexists.
Qed.

(** X26. The script does not finish an interrupted import.  Let an
    import of a loadable file that started afresh be interrupted after
    it committed a checkpoint, at offset [k].  The script then
    returns, and: when the interruption left facts in
    [food_nutrients], it skips the import, so the table keeps the
    facts of the first [k] rows only and the checkpoint stays in
    progress; when it left the table empty, it resumes the import at
    [k] and the table holds the facts of the rows from [k] on. *)
Theorem main_after_interruption (batch_size checkpoint_interval : nat)
    (rows : list fact_row) (portion_rows : list portion_row)
    (d : db) (j : nat) (ps : list portion) (seq : Z) :
  0 < batch_size →
  foods_wf (foods d) →
  no_in_progress (import_checkpoint d) →
  loadable (foods d) (nutrients d) rows →
  let d1 := interrupted_after batch_size checkpoint_interval rows j d in
  let k := start_position (import_checkpoint d1) in
  d1 ≠ d →
  ∃ s2, main_with batch_size checkpoint_interval rows portion_rows
          (mk_store d1 ps seq) = Done s2
        ∧ 0 < k ≤ length rows
        ∧ (food_nutrients d1 ≠ ∅ →
           tables s2 = d1
           ∧ holds_facts_of (foods d) (take k rows) (food_nutrients d1))
        ∧ (food_nutrients d1 = ∅ →
           holds_facts_of (foods d) (drop k rows)
             (food_nutrients (tables s2))).
Proof.
  intros HB Hwf Hno Hload d1 k Hd1d. pose proof Hwf as [Hpk Hfdc].
  destruct (fresh_begin d Hno) as [Hstart Hbegin].
  destruct (run_from_total batch_size checkpoint_interval rows d
              (mk_run ∅ (import_checkpoint d) ∅ d) Hload
              (temp_valid_empty _ _) Hbegin) as (st & d3 & Hloop & _ & _).
  destruct (for_each_take_Done _ _ j _ _ Hloop) as [stj Hj].
  assert (d1 = on_disk stj) as Hd1.
  { unfold d1, interrupted_after. by rewrite Hbegin, Hj. }
  pose proof Hj as Hdisk. unfold batch_offsets in Hdisk.
  rewrite Hstart in Hdisk.
  apply (loop_disk _ _ rows HB d 0 j) in Hdisk;
    [|done|apply Nat.le_0_l|apply view_agrees_initial|by left].
  destruct Hdisk as [[Hsame _]|(Hcommit & c & Hc & Hk & Hvk)].
  { by rewrite Hd1, Hsame in Hd1d. }
  assert (foods d1 = foods d ∧ nutrients d1 = nutrients d
          ∧ food_nutrients d1 = w_fn stj
          ∧ import_checkpoint d1 = w_log stj) as (Hf1 & Hn1 & Hfn1 & Hlog1).
  { by rewrite Hd1, Hcommit. }
  assert (k = last_processed c) as Hkc.
  { unfold k, start_position. by rewrite Hlog1, Hc. }
  destruct (decide (food_nutrients d1 = ∅)) as [He|Hne].
  - destruct (resumed_run_view batch_size checkpoint_interval rows [] d1 ∅)
      as (d2 & Hrun & Hv); try done.
    + by rewrite Hf1.
    + fold k. lia.
    + rewrite He. apply reload_empty.
    + rewrite He. apply view_agrees_initial.
    + apply temp_valid_empty.
    + by rewrite Hf1, Hn1.
    + destruct (main_imports batch_size checkpoint_interval rows
                  portion_rows (mk_store d1 ps seq) d2 He Hrun)
        as (s2 & Hmain & Htab).
      exists s2. split; [done|]. split; [lia|]. split; [done|].
      intros _. rewrite Htab. simpl in Hv. rewrite Hf1 in Hv.
      by apply holds_facts_of_view in Hv.
  - destruct (main_skips_import batch_size checkpoint_interval rows
                portion_rows (mk_store d1 ps seq) Hne)
      as (s2 & Hmain & Htab).
    exists s2. split; [done|]. split; [lia|]. split; [|done].
    intros _. split; [done|].
    intros fid nid v. rewrite Hfn1, Hkc.
    apply (view_agrees_lookup _ _ _ _ fid nid v Hvk).
Qed.

Lemma sample_interrupted_changed :
  interrupted_after 2 3 sample_rows 2 sample_db ≠ sample_db.
Proof.
  intros Heq. apply (f_equal (λ d, length (import_checkpoint d))) in Heq.
  vm_compute in Heq. discriminate.
Defined.

Lemma main_after_interruption_witness :
  ∃ s2, main_with 2 3 sample_rows sample_portion_rows
          (mk_store (interrupted_after 2 3 sample_rows 2 sample_db) [] 0)
        = Done s2.
Proof.
  destruct (main_after_interruption 2 3 sample_rows sample_portion_rows
              sample_db 2 [] 0 (Nat.lt_0_succ _) sample_foods_wf
              sample_log_fresh sample_rows_loadable
              sample_interrupted_changed) as (s2 & Hmain & _).
  by exists s2.
Defined.

(** ** The importer from a given offset *)


Lemma range_aux_lt fuel i stop step x :
  x ∈ range_aux fuel i stop step → x < stop.
Proof.
  revert i. induction fuel as [|fuel IH]; intros i; simpl.
  - by intros ?%elem_of_nil.
  - destruct (Nat.ltb_spec i stop) as [Hi|_]; [|by intros ?%elem_of_nil].
    intros [->|Hx]%elem_of_cons; [done|by eapply IH].
Qed.

Section Aborted.
Variables (batch_size checkpoint_interval : nat).
Variable rows : list fact_row.
Variable d : db.
Hypothesis batch_size_pos : 0 < batch_size.
Hypothesis foods_pk : NoDup (f_id <$> foods d).

Local Abbreviation Nrows := (total_rows rows).
Local Abbreviation body :=
  (import_batch batch_size checkpoint_interval rows d).
Local Abbreviation batch_at i := (slice rows i (min (i + batch_size) Nrows)).

Lemma import_batch_prefix i st p :
  i < Nrows → i ≤ p ≤ Nrows `min` (2 * i + batch_size) →
  view_agrees (foods d) rows p (w_temp st) (w_fn st) →
  flushed_prefix d rows st →
  match body i st with
  | Done st' =>
      view_agrees (foods d) rows (i + length (batch_at i))
                  (w_temp st') (w_fn st')
      ∧ flushed_prefix d rows st'
  | Raised st' => flushed_prefix d rows st'
  end.
Proof.
  intros Hi Hp Hv Hfp.
  pose proof (import_batch_view batch_size checkpoint_interval rows d
                batch_size_pos foods_pk i st) as Hview.
  pose proof (batch_at_length batch_size rows batch_size_pos i Hi)
    as (Hpos & _ & _).
  revert Hview. unfold import_batch.
  destruct (batch_values _) as [vs|] eqn:Hvs; [|done].
  set (row := mk_checkpoint fact_table (i + length (batch_at i)) Nrows
                            in_progress).
  assert (progress_row row) as Hrow by (split; [done|simpl; lia]).
  destruct Hfp as (new & k & Hlog & Hnew & Hk & Hvk).
  destruct (_ <? _).
  - destruct (flush _ _ _ _) as [fn'|] eqn:Hfl; intros Hview.
    + specialize (Hview _ p Hi Hp Hv eq_refl). simpl in Hview.
      split; [done|]. exists (new ++ [row]), (i + length (batch_at i)).
      simpl. rewrite Hlog, app_assoc. split; [done|].
      split; [apply Forall_app; split; [done|by apply Forall_singleton]|].
      split; [|done]. right. exists row. split; [|done].
      apply elem_of_app. right. by left.
    + exists (new ++ [row]), k. simpl. rewrite Hlog, app_assoc.
      split; [done|].
      split; [apply Forall_app; split; [done|by apply Forall_singleton]|].
      split; [|done]. destruct Hk as [->|(c & Hc & <-)]; [by left|].
      right. exists c. split; [|done]. apply elem_of_app. by left.
  - intros Hview. specialize (Hview _ p Hi Hp Hv eq_refl). simpl in Hview.
    split; [done|]. by exists new, k.
Qed.

Lemma import_batch_prefix_Raised i st st' :
  i < Nrows → flushed_prefix d rows st → body i st = Raised st' →
  flushed_prefix d rows st'.
Proof.
  intros Hi (new & k & Hlog & Hnew & Hk & Hvk).
  pose proof (batch_at_length batch_size rows batch_size_pos i Hi)
    as (Hpos & _ & _).
  unfold import_batch.
  destruct (batch_values _) as [vs|]; [|intros [= <-]; by exists new, k].
  destruct (_ <? _); [|done].
  destruct (flush _ _ _ _) as [fn'|]; [done|]. intros [= <-].
  set (row := mk_checkpoint fact_table (i + length (batch_at i)) Nrows
                            in_progress).
  assert (progress_row row) as Hrow by (split; [done|simpl; lia]).
  exists (new ++ [row]), k. simpl. rewrite Hlog, app_assoc.
  split; [done|].
  split; [apply Forall_app; split; [done|by apply Forall_singleton]|].
  split; [|done]. destruct Hk as [->|(c & Hc & <-)]; [by left|].
  right. exists c. split; [|done]. apply elem_of_app. by left.
Qed.

(** However the first [j] iterations of a run that started afresh end,
    the fact table they leave holds the facts of a prefix of the
    file. *)
Lemma loop_prefix j st0 :
  w_fn st0 = ∅ → w_temp st0 = ∅ → w_log st0 = import_checkpoint d →
  match for_each body (take j (py_range 0 Nrows batch_size)) st0 with
  | Done st | Raised st => flushed_prefix d rows st
  end.
Proof.
  intros Hfn0 Htemp0 Hlog0.
  assert (flushed_prefix d rows st0) as Hfp0.
  { exists [], 0. rewrite app_nil_r, Hfn0. split; [done|].
    split; [done|]. split; [by left|]. apply view_agrees_initial. }
  assert (∀ j st,
            for_each body (take j (py_range 0 Nrows batch_size)) st0 = Done st
            → ∃ p, p ≤ Nrows
                 ∧ view_agrees (foods d) rows p (w_temp st) (w_fn st)
                 ∧ flushed_prefix d rows st) as Hdone.
  { intros j' st Hrun. unfold py_range in Hrun.
    destruct (batch_loop_rule batch_size checkpoint_interval rows d
                batch_size_pos
                (λ p st, view_agrees (foods d) rows p (w_temp st) (w_fn st)
                         ∧ flushed_prefix d rows st)) with
      (fuel := Nrows - 0) (j := j') (i := 0) (st := st0) (st' := st) (p := 0)
      as (p' & Hp' & [Hv Hfp] & _); [|lia|lia| |done|by eauto].
    - intros i st1 st1' p Hi Hp [Hv Hfp] Hbody.
      pose proof (import_batch_prefix i st1 p Hi Hp Hv Hfp) as H.
      by rewrite Hbody in H.
    - split; [|done]. rewrite Hfn0, Htemp0. apply view_agrees_initial. }
  destruct (for_each _ _ _) as [st|st] eqn:Hrun.
  { by destruct (Hdone j st Hrun) as (_ & _ & _ & ?). }
  apply for_each_Raised in Hrun as (j' & i & st1 & Hi & Hpre & Hraise).
  rewrite take_take in Hpre.
  destruct (Hdone _ _ Hpre) as (p & Hp & Hv & Hfp).
  apply (import_batch_prefix_Raised i st1 st); [|done|done].
  apply lookup_take_Some in Hi as [Hi _].
  apply list_elem_of_lookup_2 in Hi. by apply range_aux_lt in Hi.
Qed.

Lemma flushed_prefix_commit st :
  flushed_prefix d rows st → aborted_with_progress d rows (commit_run d st).
Proof.
  intros (new & k & Hlog & Hnew & Hk & Hvk).
  split; [done|]. split; [done|]. split; [done|]. exists new, k. simpl.
  split; [done|]. split; [done|]. split; [done|].
  intros fid nid v. apply (view_agrees_lookup _ _ _ _ fid nid v Hvk).
Qed.

(** What a run that started afresh leaves on disk when it raises. *)
Lemma fresh_run_Raised d' :
  no_in_progress (import_checkpoint d) →
  import_nutrient_data_with batch_size checkpoint_interval rows d
  = Raised d' →
  aborted_with_progress d rows d'.
Proof.
  intros Hno. unfold import_nutrient_data_with, batch_offsets.
  destruct (fresh_begin d Hno) as [-> ->].
  pose proof (loop_prefix (length (py_range 0 Nrows batch_size))
                (mk_run ∅ (import_checkpoint d) ∅ d)
                eq_refl eq_refl eq_refl) as Hloop.
  rewrite take_ge in Hloop by done.
  destruct (for_each _ _ _) as [st|st].
  - unfold finish_import. destruct (flush _ _ _ _); [done|].
    intros [= <-]. by apply flushed_prefix_commit.
  - intros [= <-]. by apply flushed_prefix_commit.
Qed.

(** What is on disk when a run that started afresh is killed after
    [j] iterations of the batch loop. *)
Lemma fresh_run_killed j :
  no_in_progress (import_checkpoint d) →
  interrupted_after batch_size checkpoint_interval rows j d = d
  ∨ aborted_with_progress d rows
      (interrupted_after batch_size checkpoint_interval rows j d).
Proof.
  intros Hno. unfold interrupted_after, batch_offsets.
  destruct (fresh_begin d Hno) as [-> ->].
  pose proof (loop_prefix j (mk_run ∅ (import_checkpoint d) ∅ d)
                eq_refl eq_refl eq_refl) as Hloop.
  destruct (for_each _ _ _) as [st|st] eqn:Hrun.
  - apply (loop_disk _ _ rows batch_size_pos d 0 j) in Hrun;
      [|done|apply Nat.le_0_l|apply view_agrees_initial|by left].
    destruct Hrun as [[-> _]|[-> _]]; [by left|right].
    by apply flushed_prefix_commit.
  - right. by apply flushed_prefix_commit.
Qed.
End Aborted.

(** ** The row-error policy *)

Lemma portion_refers_food_existsb s :
  existsb (λ p, bool_decide (p_food_id p ∈ f_id <$> foods (tables s)))
          (common_portions s) = true
  ↔ portion_refers_food s.
Proof.
  unfold portion_refers_food. rewrite existsb_exists, Exists_exists.
  split; intros (p & Hp & H); exists p.
  - split; [by apply list_elem_of_In|]. by apply bool_decide_eq_true in H.
  - split; [by apply list_elem_of_In|]. by apply bool_decide_eq_true.
Qed.

(** C8 (amended). Row-error policy.  In [import_nutrient_data] only a
    row whose amount is null is skipped: when the run over the file
    returns, so does the run over the file without that row, with the
    same [food_nutrients] table.  In a run that starts afresh (the log
    has no in-progress row) a row that cannot be parsed or inserted is
    not skipped: when some amount is present but not numeric, or some
    row of a known food with an amount names a nutrient that
    [nutrients] does not have, the exception leaves the batch loop and
    the handler commits and re-raises.  The run then has written no
    [completed] row; the disk keeps the in-progress rows logged so
    far and, in [food_nutrients], the facts of the first [k] rows of
    the file, [k] being 0 or one of the logged offsets.  In
    [import_foundation_foods] one row that cannot be imported makes
    the whole import raise; of a file shorter than the commit interval
    nothing is stored: [foods] is left empty, or, when a row of
    [common_portions] refers to a food, so that the opening DELETE of
    [foods] fails, the database is left as it was. *)
Theorem row_error_policy (batch_size checkpoint_interval : nat) (d : db) :
  0 < batch_size →
  foods_wf (foods d) →
  no_in_progress (import_checkpoint d) →
  (∀ l1 r l2 d',
     fr_amount r = Null →
     import_nutrient_data_with batch_size checkpoint_interval
       (l1 ++ r :: l2) d = Done d' →
     ∃ d'', import_nutrient_data_with batch_size checkpoint_interval
              (l1 ++ l2) d = Done d''
            ∧ food_nutrients d'' = food_nutrients d') ∧
  (∀ rows r s,
     r ∈ rows → fr_amount r = NonNumeric s →
     ∃ d', import_nutrient_data_with batch_size checkpoint_interval rows d
           = Raised d'
           ∧ aborted_with_progress d rows d') ∧
  (∀ rows r,
     r ∈ rows → reaches_table (foods d) r →
     fr_nutrient_id r ∉ n_id <$> nutrients d →
     ∃ d', import_nutrient_data_with batch_size checkpoint_interval rows d
           = Raised d'
           ∧ aborted_with_progress d rows d') ∧
  (∀ self frows s,
     Exists row_must_fail frows →
     ∃ s', import_foundation_foods_store self frows s = Raised s'
           ∧ (portion_refers_food s → s' = s)
           ∧ (¬ portion_refers_food s →
              length frows < foods_commit_every →
              foods (tables s') = []
              ∧ common_portions s' = common_portions s)).
Proof.
  intros HB [Hpk _] Hno. split; [|split; [|split]].
  - intros l1 r l2 d' Hr Hrun.
    destruct (fresh_run_Done _ _ _ HB d d' Hpk Hno Hrun) as [Hv Hload].
    apply (proj1 (loadable_skip_null _ _ l1 r l2 Hr)) in Hload.
    destruct (fresh_run_total batch_size checkpoint_interval (l1 ++ l2) d
                Hno Hload) as [d'' Hrun''].
    exists d''. split; [done|].
    destruct (fresh_run_Done _ _ _ HB d d'' Hpk Hno Hrun'') as [Hv'' _].
    eapply view_agrees_ext; [|exact Hv''|exact Hv].
    intros k. unfold total_rows. rewrite !take_ge by done.
    by rewrite last_amount_skip_null.
  - intros rows r s Hr Hbad.
    destruct (import_nutrient_data_with _ _ rows d) as [d'|d'] eqn:Hrun.
    + destruct (fresh_run_Done _ _ _ HB d d' Hpk Hno Hrun) as [_ Hload].
      destruct (Hload r Hr) as [Hnum _]. by rewrite Hbad in Hnum.
    + exists d'. split; [done|]. by eapply fresh_run_Raised.
  - intros rows r Hr Hreach Hfk.
    destruct (import_nutrient_data_with _ _ rows d) as [d'|d'] eqn:Hrun.
    + destruct (fresh_run_Done _ _ _ HB d d' Hpk Hno Hrun) as [_ Hload].
      destruct (Hload r Hr) as [_ Hval]. by destruct Hfk; apply Hval.
    + exists d'. split; [done|]. by eapply fresh_run_Raised.
  - intros self frows s Hex. unfold import_foundation_foods_store.
    destruct (existsb _ _) eqn:Hblock.
    + exists s. split; [done|]. split; [done|].
      intros Hnot. by apply portion_refers_food_existsb in Hblock.
    + unfold import_foundation_foods.
      destruct (import_food_rows_fail self (clear_for_foods (tables s)) frows
                  (mk_foods_state [] (foods_seq (clear_for_foods (tables s)))
                                  0 (clear_for_foods (tables s))) Hex)
        as [st' Hst'].
      rewrite Hst'. eexists. split; [done|]. split.
      * intros Hyes. apply portion_refers_food_existsb in Hyes.
        by rewrite Hblock in Hyes.
      * intros _ Hlen. simpl. split; [|done].
        pose proof (import_food_rows_disk self (clear_for_foods (tables s))
                      frows
                      (mk_foods_state []
                         (foods_seq (clear_for_foods (tables s))) 0
                         (clear_for_foods (tables s))) eq_refl Hlen) as Hd.
        rewrite Hst' in Hd. by rewrite Hd.
Qed.

(** ** The row the SELECT of the checkpoint returns *)

Lemma head_insert_desc ct l :
  head (insert_desc ct l)
  = match head l with
    | Some x => if (x.2 <=? ct.2)%nat then Some ct else Some x
    | None => Some ct
    end.
Proof. destruct l as [|x l]; simpl; [done|]. by destruct (_ <=? _)%nat. Qed.

Lemma select_head tlog :
  match head (order_by_timestamp_desc
                (filter (λ ct : stamped, is_resume_point ct.1) tlog)) with
  | Some ct => ∃ i, selected_row tlog i ct.1 ∧ tlog !! i = Some ct
  | None => ∀ ct, ct ∈ tlog → ¬ is_resume_point ct.1
  end.
Proof.
  induction tlog as [|[c t] tlog IH].
  { simpl. by intros ct ?%elem_of_nil. }
  rewrite filter_cons. destruct (decide (is_resume_point (c, t).1)) as [Hc|Hc].
  - simpl in Hc. unfold order_by_timestamp_desc. simpl.
    rewrite head_insert_desc.
    fold (order_by_timestamp_desc
            (filter (λ ct : stamped, is_resume_point ct.1) tlog)).
    destruct (head _) as [[c1 t1]|].
    + destruct IH as (i & (t1' & Hi & Hc1 & Hmax) & Hi').
      simpl in Hi, Hc1, Hmax.
      assert (t1' = t1) as -> by congruence.
      simpl. destruct (Nat.leb_spec t1 t) as [Hle|Hlt].
      * exists 0. split; [|done]. exists t. split; [done|]. split; [done|].
        intros [|j] c' t' Hj Hc'; simpl in Hj.
        -- injection Hj as <- <-. right. lia.
        -- destruct (Hmax j c' t' Hj Hc'); lia.
      * exists (S i). split; [|done]. exists t1. split; [done|].
        split; [done|].
        intros [|j] c' t' Hj Hc'; simpl in Hj.
        -- injection Hj as <- <-. left. lia.
        -- destruct (Hmax j c' t' Hj Hc'); [left; lia|right; lia].
    + exists 0. split; [|done]. exists t. split; [done|]. split; [done|].
      intros [|j] c' t' Hj Hc'; simpl in Hj.
      * injection Hj as <- <-. right. lia.
      * apply list_elem_of_lookup_2 in Hj. by destruct (IH _ Hj).
  - destruct (head _) as [[c1 t1]|].
    + destruct IH as (i & (t1' & Hi & Hc1 & Hmax) & Hi').
      exists (S i). split; [|done]. exists t1'. split; [done|].
      split; [done|].
      intros [|j] c' t' Hj Hc'; simpl in Hj.
      * by injection Hj as <- <-.
      * destruct (Hmax j c' t' Hj Hc'); [left; lia|right; lia].
    + intros ct [->|Hct]%elem_of_cons; [done|by apply IH].
Qed.

Lemma select_checkpoint_Some tlog c :
  select_checkpoint tlog = Some c → ∃ i, selected_row tlog i c.
Proof.
  unfold select_checkpoint. pose proof (select_head tlog) as H.
  destruct (head _) as [ct|]; [|done].
  intros [= <-]. destruct H as (i & Hi & _). eauto.
Qed.

Lemma select_checkpoint_None tlog :
  select_checkpoint tlog = None ↔ no_in_progress tlog.*1.
Proof.
  unfold select_checkpoint. pose proof (select_head tlog) as H.
  destruct (head _) as [ct|]; simpl.
  - split; [done|]. intros Hno. destruct H as (i & (t & Hi & Hc & _) & _).
    destruct (Hno ct.1); [|done].
    apply list_elem_of_lookup_2 in Hi. by apply (list_elem_of_fmap_2 fst) in Hi.
  - split; [|done]. intros _ c [ct [-> Hct]]%list_elem_of_fmap. by apply H.
Qed.

Lemma selected_row_unique tlog i j c c' :
  selected_row tlog i c → selected_row tlog j c' → i = j ∧ c = c'.
Proof.
  intros (t & Hi & Hc & Hmax) (t' & Hj & Hc' & Hmax').
  destruct (Hmax j c' t' Hj Hc'), (Hmax' i c t Hi Hc); try lia.
  assert (i = j) as -> by lia. split; [done|]. congruence.
Qed.

(** The row inserted last among the in-progress rows. *)
Lemma latest_checkpoint_index log c :
  latest_checkpoint log = Some c →
  ∃ j, log !! j = Some c ∧ is_resume_point c
       ∧ ∀ j' c', j < j' → log !! j' = Some c' → ¬ is_resume_point c'.
Proof.
  unfold latest_checkpoint.
  induction log as [|x log IH] using rev_ind; [done|].
  rewrite filter_app, filter_cons, filter_nil.
  destruct (decide (is_resume_point x)) as [Hx|Hx].
  - rewrite last_snoc. intros [= <-]. exists (length log).
    split; [by apply list_lookup_middle|]. split; [done|].
    intros j' c' Hj Hc'. apply lookup_lt_Some in Hc'.
    rewrite length_app in Hc'. simpl in Hc'. lia.
  - rewrite app_nil_r. intros (j & Hj & Hc & Hlast)%IH.
    exists j. split; [by apply lookup_app_l_Some|]. split; [done|].
    intros j' c' Hjj' [[_ Hc']|[_ <-]]%lookup_snoc_Some; [by eauto|done].
Qed.

(** When no two in-progress rows share a timestamp, the SELECT returns
    the row inserted last. *)
Lemma select_checkpoint_latest tlog :
  distinct_seconds tlog →
  select_checkpoint tlog = latest_checkpoint tlog.*1.
Proof.
  intros Hdist.
  destruct (latest_checkpoint tlog.*1) as [c'|] eqn:Hlast.
  2:{ apply select_checkpoint_None. by apply latest_checkpoint_None. }
  destruct (select_checkpoint tlog) as [c|] eqn:Hsel.
  2:{ apply select_checkpoint_None in Hsel.
      apply latest_checkpoint_Some in Hlast as [Hin Hc'].
      by destruct (Hsel c'). }
  f_equal.
  apply select_checkpoint_Some in Hsel as (i & t & Hi & Hc & Hmax).
  apply latest_checkpoint_index in Hlast as (j & Hj & Hc' & Hafter).
  rewrite list_lookup_fmap in Hj.
  destruct (tlog !! j) as [[c'' t']|] eqn:Hj'; [|done].
  simpl in Hj. injection Hj as ->.
  destruct (Nat.lt_trichotomy i j) as [Hlt|[->|Hgt]].
  - pose proof (Hdist i j c t c' t' Hlt Hi Hj' Hc Hc').
    destruct (Hmax j c' t' Hj' Hc'); lia.
  - congruence.
  - destruct (Hafter i c Hgt); [|done].
    by rewrite list_lookup_fmap, Hi.
Qed.

Lemma start_position_at_latest tlog :
  distinct_seconds tlog →
  start_position_at tlog = start_position tlog.*1.
Proof.
  intros H. unfold start_position_at, start_position.
  by rewrite (select_checkpoint_latest tlog H).
Qed.

(** ** Fresh start or resume *)









(** ** Instances *)







Lemma row_error_policy_witness :
  (0 < 2 ∧ foods_wf (foods sample_db)
   ∧ no_in_progress (import_checkpoint sample_db)) ∧
  ∃ d', import_nutrient_data_with 2 3 sample_bad_rows sample_db = Raised d'
        ∧ aborted_with_progress sample_db sample_bad_rows d'.
Proof.
  split.
  - exact (conj (Nat.lt_0_succ _) (conj sample_foods_wf sample_log_fresh)).
  - apply (proj1 (proj2 (row_error_policy 2 3 sample_db
                           (Nat.lt_0_succ _) sample_foods_wf
                           sample_log_fresh))
             sample_bad_rows (mk_fact_row 102 1003 (NonNumeric "n/a")) "n/a").
    + right. left.
    + reflexivity.
Defined.

(** X12. A run cut short leaves a prefix.  Take a run of
    [import_nutrient_data] that starts afresh.  If the process is
    killed after any number of batches, or the run raises, then either
    nothing was committed and the database is as it was, or the
    dimension tables are as they were, the log is the log found
    followed by in-progress rows only, and [food_nutrients] holds
    exactly the facts of the first [k] rows of the file, where [k] is
    0 or one of the offsets the run logged.  The offset logged last
    can be larger than [k]: a flush that fails leaves its checkpoint
    row behind. *)
Theorem import_crash_prefix (batch_size checkpoint_interval : nat)
    (rows : list fact_row) (d d1 : db) :
  0 < batch_size →
  NoDup (f_id <$> foods d) →
  no_in_progress (import_checkpoint d) →
  (∃ j, d1 = interrupted_after batch_size checkpoint_interval rows j d)
  ∨ import_nutrient_data_with batch_size checkpoint_interval rows d
    = Raised d1 →
  d1 = d ∨ aborted_with_progress d rows d1.
Proof.
  intros HB Hpk Hno [[j ->]|Hrun].
  - by apply fresh_run_killed.
  - right. by eapply fresh_run_Raised.
Qed.

Lemma import_crash_prefix_witness :
  (0 < 2 ∧ NoDup (f_id <$> foods sample_db)
   ∧ no_in_progress (import_checkpoint sample_db)) ∧
  (interrupted_after 2 3 sample_rows 2 sample_db = sample_db ∨
   aborted_with_progress sample_db sample_rows
     (interrupted_after 2 3 sample_rows 2 sample_db)).
Proof.
  split.
  - exact (conj (Nat.lt_0_succ _)
             (conj (proj1 sample_foods_wf) sample_log_fresh)).
  - apply (import_crash_prefix 2 3 sample_rows sample_db _
             (Nat.lt_0_succ _) (proj1 sample_foods_wf) sample_log_fresh).
    left. by exists 2.
Defined.

(** ** The food import on a database with portions *)

Lemma portions_fk_blocked s :
  portions_fk s → portion_refers_food s ↔ common_portions s ≠ [].
Proof.
  intros Hfk. unfold portion_refers_food. rewrite Exists_exists. split.
  - intros (p & Hp & _) Hnil. rewrite Hnil in Hp. by apply elem_of_nil in Hp.
  - destruct (common_portions s) as [|p ps] eqn:E; [done|]. intros _.
    exists p. split; [by left|]. apply Hfk. rewrite E. by left.
Qed.

Lemma import_foundation_foods_store_cases self rows s :
  portions_fk s →
  (common_portions s ≠ []
   ∧ import_foundation_foods_store self rows s = Raised s)
  ∨ (common_portions s = []
     ∧ import_foundation_foods_store self rows s
       = match import_foundation_foods self rows (tables s) with
         | Done d' => Done (mk_store d' [] (portions_seq s))
         | Raised d' => Raised (mk_store d' [] (portions_seq s))
         end).
Proof.
  intros Hfk. unfold import_foundation_foods_store.
  destruct (existsb _ _) eqn:Hb.
  - left. apply portion_refers_food_existsb in Hb.
    by apply portions_fk_blocked in Hb.
  - right. destruct (common_portions s) as [|p ps] eqn:E; [done|].
    assert (portion_refers_food s) as Hyes.
    { apply portions_fk_blocked; [done|]. by rewrite E. }
    apply portion_refers_food_existsb in Hyes. rewrite E in Hyes.
    by rewrite Hb in Hyes.
Qed.

(** X5. [import_foundation_foods] keeps the schema.  On a database
    that satisfies the constraints on [foods] (distinct ids, distinct
    fdc_ids, every category_id the id of a [food_categories] row, no
    id above the AUTOINCREMENT sequence, every portion referring to a
    food), the same constraints hold however the method ends: when it
    returns, when a row fails, and when a stored portion makes the
    opening DELETE fail.  The sequence never goes back, and every food
    on disk afterwards was there before or has an id above the
    sequence value the import found: an id of an earlier import is
    never handed out again. *)
Theorem import_foundation_foods_keeps_schema (self : mappings)
    (rows : list food_csv_row) (s : store) :
  store_ok s →
  let s' := outcome_store (import_foundation_foods_store self rows s) in
  store_ok s'
  ∧ (foods_seq (tables s) ≤ foods_seq (tables s'))%Z
  ∧ ∀ f, f ∈ foods (tables s') →
      f ∈ foods (tables s) ∨ (foods_seq (tables s) < f_id f)%Z.
Proof.
  intros (Hwf & Hcat & Hfk) s'. subst s'.
  destruct (import_foundation_foods_store_cases self rows s Hfk)
    as [[_ ->]|[Hnil ->]]; simpl.
  { split; [done|]. split; [lia|]. by left. }
  destruct (import_foundation_foods_disk self rows (tables s))
    as (fs & seq & Hd' & Hseq & Hid & Hfdc & Hall).
  rewrite Forall_forall in Hall.
  assert (outcome_store
            match import_foundation_foods self rows (tables s) with
            | Done d' => Done (mk_store d' [] (portions_seq s))
            | Raised d' => Raised (mk_store d' [] (portions_seq s))
            end
          = mk_store (set_foods fs seq (clear_for_foods (tables s))) []
                     (portions_seq s)) as ->.
  { rewrite <- Hd'. by destruct (import_foundation_foods _ _ _). }
  simpl. split; [|split; [done|]].
  - split; [done|]. split.
    + simpl. intros f Hf. destruct (Hall f Hf) as [? ?]. split; [done|lia].
    + by intros p ?%elem_of_nil.
  - intros f Hf. right. destruct (Hall f Hf). lia.
Qed.

Lemma sample_store_ok : store_ok sample_store.
Proof.
  split; [exact sample_foods_wf|]. split.
  - apply Forall_forall. compute_done.
  - by intros p ?%elem_of_nil.
Defined.

Lemma import_foundation_foods_keeps_schema_witness :
  store_ok sample_store
  ∧ store_ok (outcome_store
                (import_foundation_foods_store
                   (build_category_mappings sample_categories)
                   sample_food_rows sample_store)).
Proof.
  split; [exact sample_store_ok|].
  exact (proj1 (import_foundation_foods_keeps_schema
                  (build_category_mappings sample_categories)
                  sample_food_rows sample_store sample_store_ok)).
Defined.

(** X6. What [import_foundation_foods] clears.  On a database whose
    portions refer to foods: when a portion is stored, the method
    raises on its DELETE of [foods] and the rollback undoes the four
    DELETE statements before it, so that nothing changes; when no
    portion is stored, then however the method ends, even on its first
    row, the fact table and the three derived tables are empty
    afterwards (the DELETE statements are committed before the file is
    read), while [food_categories], [nutrients] and the checkpoint log
    of the fact importer are as they were. *)
Theorem import_foundation_foods_clears (self : mappings)
    (rows : list food_csv_row) (s : store) :
  portions_fk s →
  let o := import_foundation_foods_store self rows s in
  let d' := tables (outcome_store o) in
  (common_portions s ≠ [] → o = Raised s) ∧
  (common_portions s = [] →
   food_nutrients d' = ∅ ∧ nutrient_rankings d' = ∅
   ∧ common_nutrients_mv d' = ∅ ∧ food_density_scores d' = ∅
   ∧ food_categories d' = food_categories (tables s)
   ∧ nutrients d' = nutrients (tables s)
   ∧ import_checkpoint d' = import_checkpoint (tables s)
   ∧ common_portions (outcome_store o) = []).
Proof.
  intros Hfk o d'. subst d' o.
  destruct (import_foundation_foods_store_cases self rows s Hfk)
    as [[Hne ->]|[Hnil ->]]; (split; [done|]); [done|].
  intros _.
  destruct (import_foundation_foods_disk self rows (tables s))
    as (fs & seq & Hd' & _).
  assert (outcome_store
            match import_foundation_foods self rows (tables s) with
            | Done d' => Done (mk_store d' [] (portions_seq s))
            | Raised d' => Raised (mk_store d' [] (portions_seq s))
            end
          = mk_store (set_foods fs seq (clear_for_foods (tables s))) []
                     (portions_seq s)) as ->.
  { rewrite <- Hd'. by destruct (import_foundation_foods _ _ _). }
  done.
Qed.

Lemma import_foundation_foods_clears_witness :
  portions_fk sample_store
  ∧ food_nutrients
      (tables (outcome_store
                 (import_foundation_foods_store
                    (build_category_mappings sample_categories)
                    sample_food_rows sample_store))) = ∅.
Proof.
  split; [exact (proj2 (proj2 sample_store_ok))|].
  exact (proj1 (proj2 (import_foundation_foods_clears
                         (build_category_mappings sample_categories)
                         sample_food_rows sample_store
                         (proj2 (proj2 sample_store_ok))) eq_refl)).
Defined.

(** X7. Which food files are imported.  Take a database whose portions
    refer to foods, in which category 1, the default, is a row of
    [food_categories], and mappings built from rows of that table
    (all of them, as [create_food_categories] leaves them, or none, as
    [__init__] does); let the category cells of the file be plain
    text.  Then [import_foundation_foods] returns exactly when no
    portion is stored and every row of the file has an fdc_id and a
    description and no row has a non-zero integer in the category
    column: the classifier never produces a category id that fails the
    foreign key. *)
Theorem import_foundation_foods_returns_iff (cats0 : list (Z * string))
    (rows : list food_csv_row) (s : store) :
  portions_fk s →
  cats0.*1 ⊆ (food_categories (tables s)).*1 →
  default_category_id ∈ (food_categories (tables s)).*1 →
  Forall (λ r, plain_label (fc_food_category_id r)) rows →
  (∃ s', import_foundation_foods_store (build_category_mappings cats0)
           rows s = Done s')
  ↔ common_portions s = [] ∧ Forall (λ r, ¬ row_must_fail r) rows.
Proof.
  intros Hfk Hsub Hdef _.
  destruct (import_foundation_foods_store_cases
              (build_category_mappings cats0) rows s Hfk)
    as [[Hne ->]|[Hnil ->]].
  { split; [by intros [? ?]|by intros [? _]]. }
  unfold import_foundation_foods. split.
  - intros [s' Hrun]. split; [done|].
    apply Forall_forall. intros r Hr Hbad.
    destruct (import_food_rows_fail (build_category_mappings cats0)
                (clear_for_foods (tables s)) rows
                (mk_foods_state [] (foods_seq (clear_for_foods (tables s))) 0
                                (clear_for_foods (tables s)))) as [st' Hst'].
    { apply Exists_exists. eauto. }
    by rewrite Hst' in Hrun.
  - intros [_ Hrows].
    destruct (import_food_rows_total cats0 (clear_for_foods (tables s)) rows
                (mk_foods_state [] (foods_seq (clear_for_foods (tables s))) 0
                                (clear_for_foods (tables s))) Hsub Hdef Hrows)
      as [st' ->].
    eauto.
Qed.

Lemma sample_food_rows_plain :
  Forall (λ r, plain_label (fc_food_category_id r)) sample_food_rows.
Proof. repeat constructor; simpl; lia. Defined.

Lemma import_foundation_foods_returns_iff_witness :
  (portions_fk sample_store
   ∧ sample_categories.*1 ⊆ (food_categories (tables sample_store)).*1
   ∧ default_category_id ∈ (food_categories (tables sample_store)).*1) ∧
  ∃ s', import_foundation_foods_store
          (build_category_mappings sample_categories)
          sample_food_rows sample_store = Done s'.
Proof.
  assert (sample_categories.*1 ⊆ (food_categories (tables sample_store)).*1)
    as H1 by done.
  assert (default_category_id ∈ (food_categories (tables sample_store)).*1)
    as H2 by (by left).
  split; [exact (conj (proj2 (proj2 sample_store_ok)) (conj H1 H2))|].
  apply (import_foundation_foods_returns_iff sample_categories
           sample_food_rows sample_store (proj2 (proj2 sample_store_ok))
           H1 H2 sample_food_rows_plain).
  split; [done|].
  unfold sample_food_rows, row_must_fail.
  repeat constructor; simpl; intros [?|[?|?]]; done.
Defined.

Lemma positive_flags_count (l : list (option float)) :
  foldr (λ o z, (positive_flag_r o + z)%Z) 0%Z l
  = Z.of_nat (count_positive_r l).
Proof.
  unfold count_positive_r. induction l as [|o l IH]; [done|].
  simpl. rewrite IH. destruct o as [x|]; simpl; [|done].
  destruct (0 <? x)%float; simpl; lia.
Qed.

(** C6 (amended). Density score.  For every food with a
    [common_nutrients_mv] row, [calculate_density_scores] writes the
    one [food_density_scores] row of that food, and none for a food
    without such a row.  Its total_score is the expression
    (protein/50 + fiber/25 + vitamin_c/90 + iron/18 + calcium/1000)
    / 5 * 100 evaluated in binary64 arithmetic, left to right, every
    operation rounded, a NULL component counting as 0; its
    nutrient_completeness is the number of the five components that
    are > 0, divided by 5.  With protein = 25, fiber = 5,
    vitamin_c = 45, iron = 9 and calcium = 500 the stored total_score
    is 0x1.6000000000001p+5, the binary64 value next above 44 (printed
    44.00000000000001), not 44.0; the nutrient_completeness is
    exactly 1. *)
Theorem density_score_binary64 (mv : gmap Z mv_reals) (fid : Z)
    (cn : mv_reals) :
  mv !! fid = Some cn →
  let scores := calculate_density_scores_real mv in
  let p := coalesce_r (protein_r cn) in
  let f := coalesce_r (fiber_r cn) in
  let c := coalesce_r (vitamin_c_r cn) in
  let i := coalesce_r (iron_r cn) in
  let ca := coalesce_r (calcium_r cn) in
  (∀ fid', is_Some (scores !! fid') ↔ is_Some (mv !! fid')) ∧
  ∃ s, scores !! fid = Some s ∧
    total_score_r s
    = sql_real ((p / 50 + f / 25 + c / 90 + i / 18 + ca / 1000) / 5 * 100)%float
    ∧ nutrient_completeness_r s
      = (real_of_Z
           (Z.of_nat
              (count_positive_r [protein_r cn; fiber_r cn; vitamin_c_r cn;
                                 iron_r cn; calcium_r cn])) / 5)%float
    ∧ (protein_r cn = Some 25%float → fiber_r cn = Some 5%float →
       vitamin_c_r cn = Some 45%float → iron_r cn = Some 9%float →
       calcium_r cn = Some 500%float →
       total_score_r s = Some 0x1.6000000000001p+5%float
       ∧ PrimFloat.eqb 0x1.6000000000001p+5 44 = false
       ∧ nutrient_completeness_r s = 1%float).
Proof.
  intros Hcn scores p f c i ca. split.
  - intros fid'. unfold scores, calculate_density_scores_real.
    rewrite lookup_fmap. by rewrite fmap_is_Some.
  - exists (density_of_real cn). split.
    { unfold scores, calculate_density_scores_real.
      by rewrite lookup_fmap, Hcn. }
    split; [done|]. split.
    + simpl. do 2 f_equal.
      rewrite <- (positive_flags_count
                    [protein_r cn; fiber_r cn; vitamin_c_r cn; iron_r cn;
                     calcium_r cn]).
      simpl. lia.
    + intros Hp Hf Hc Hi Hca. unfold density_of_real; simpl.
      rewrite Hp, Hf, Hc, Hi, Hca. by vm_compute.
Qed.

Lemma density_score_binary64_witness :
  ∃ s, calculate_density_scores_real {[1%Z := example_mv_reals]} !! 1%Z
       = Some s
       ∧ total_score_r s = Some 0x1.6000000000001p+5%float
       ∧ nutrient_completeness_r s = 1%float.
Proof.
  destruct (density_score_binary64 {[1%Z := example_mv_reals]} 1
              example_mv_reals (lookup_singleton_eq _ _))
    as (_ & s & Hs & _ & _ & Hex).
  destruct (Hex eq_refl eq_refl eq_refl eq_refl eq_refl) as (Ht & _ & Hc).
  by exists s.
Defined.

(** C6, as stated, fails.  For the food of the example, protein 25,
    fiber 5, vitamin C 45, iron 9 and calcium 500, the total_score that
    [calculate_density_scores] stores is not 44.0: the sum
    0.5 + 0.2 + 0.5 + 0.5 + 0.5 is rounded to the binary64 value above
    2.2. *)
Lemma density_example_is_not_44 :
  ∃ s, calculate_density_scores_real {[1%Z := example_mv_reals]} !! 1%Z
       = Some s
       ∧ total_score_r s ≠ Some 44%float.
Proof.
  exists (density_of_real example_mv_reals). split; [by vm_compute|].
  intros [= H]%(f_equal (λ o, match o with
                              | Some x => PrimFloat.eqb x 44
                              | None => false
                              end)).
Qed.
